(** * datacube.utils.uris: URI and path reconciliation

    A shallow embedding of [datacube/utils/uris.py] together with the parts
    of the Python standard library its functions call, and the properties of
    the URI classifier, the part codec, the base-directory resolver, the path
    normaliser and the URI coercer.

    Conventions of the embedding.
    - A Python [str] is the list of its Unicode code points ([N]); [bytes]
      is a list of byte values.  [lit "..."] turns an ASCII literal into a
      [str].
    - A Python [int] is a [Z].  The interpreter's limit on the length of
      int/str conversions ([sys.get_int_max_str_digits()], 4300 digits by
      default) is read from the host; beyond it ['{:d}'.format] and [int]
      raise [ValueError].
    - A call that can raise returns a [result]; [try ... except] becomes
      [try_except] with the test on the exception's class.
    - What the operating system and the interpreter provide (the environment,
      the working directory, symlink resolution, [os.name], the limit on
      int/str conversions) is read from an explicit [host].
    - [pathlib.Path] is modelled for a POSIX host, where it is a
      [PosixPath]; so are the functions that compute with paths
      ([as_url], [default_base_dir], [normalise_path]).  The branch of
      [uri_to_local_path] for [os.name == 'nt'] is modelled too; the
      [WindowsPath] it builds is kept as the text it is built from.
    - The library functions follow CPython 3.11 ([urllib.parse], [pathlib],
      [posixpath], [nturl2path], [re]); the character tables are those of its
      [unicodedata] (Unicode 14.0.0). *)

From Stdlib Require Import ZArith NArith String Ascii Bool Lia.
From Stdlib Require Import DecimalFacts DecimalZ DecimalPos DecimalN.
From stdpp Require Import base option list gmap.
Import ListNotations.

Local Open Scope N_scope.

(** ** Strings *)

(** A code point, a string of code points, and a string of bytes. *)
Abbreviation char := N (only parsing).
Abbreviation str := (list N) (only parsing).
Abbreviation bytes := (list N) (only parsing).

Definition lit (s : string) : str := List.map N_of_ascii (list_ascii_of_string s).

Module Str.

Definition eqb (s t : str) : bool := bool_decide (s = t).

(** [c in s] for a single character [c]. *)
Definition mem (c : char) (s : str) : bool := existsb (N.eqb c) s.

(** The longest prefix of [s] with no character satisfying [p], and what
    follows it (beginning with the first such character, if any). *)
Fixpoint break (p : char -> bool) (s : str) : str * str :=
  match s with
  | [] => ([], [])
  | c :: s' => if p c then ([], s)
               else let '(a, b) := break p s' in (c :: a, b)
  end.

(** [s.find(c)] for a single character: the index of the first occurrence. *)
Fixpoint find (c : char) (s : str) : option nat :=
  match s with
  | [] => None
  | x :: s' => if x =? c then Some O else S <$> find c s'
  end.

(** [s.split(c, 1)] when [c] occurs in [s]: the text before and after the
    first occurrence. *)
Definition split1 (c : char) (s : str) : option (str * str) :=
  match break (N.eqb c) s with
  | (a, _ :: b) => Some (a, b)
  | (_, []) => None
  end.

(** [s.split(c)] for a one-character separator. *)
Fixpoint split (c : char) (s : str) : list str :=
  match s with
  | [] => [[]]
  | x :: s' =>
      if x =? c then [] :: split c s'
      else match split c s' with
           | h :: t => (x :: h) :: t
           | [] => [[x]]
           end
  end.

(** [sep.join(l)] for a one-character separator. *)
Fixpoint join (sep : char) (l : list str) : str :=
  match l with
  | [] => []
  | [a] => a
  | a :: l' => a ++ sep :: join sep l'
  end.

(** [s.replace(a, b)] for single characters. *)
Definition replace (a b : char) (s : str) : str :=
  List.map (fun c => if c =? a then b else c) s.

(** [s.replace(a, "")]. *)
Definition remove (a : char) (s : str) : str :=
  List.filter (fun c => negb (c =? a)) s.

(** [s.lstrip(chars)] with the stripped set given as a predicate. *)
Fixpoint lstrip (p : char -> bool) (s : str) : str :=
  match s with
  | c :: s' => if p c then lstrip p s' else s
  | [] => []
  end.

Fixpoint startswith (pre s : str) : bool :=
  match pre, s with
  | [], _ => true
  | a :: pre', b :: s' => (a =? b) && startswith pre' s'
  | _ :: _, [] => false
  end.

Definition endswith (suf s : str) : bool := startswith (rev suf) (rev s).

Definition isascii (s : str) : bool := forallb (fun c => c <? 128) s.

End Str.

(** ** The Unicode character database *)

Module Unicode.

(** Code points [c] for which [chr(c).isspace()] holds, as inclusive ranges. *)
Definition space_ranges : list (N * N) :=
  [ (9, 13); (28, 32); (133, 133); (160, 160); (5760, 5760); (8192, 8202);
    (8232, 8233); (8239, 8239); (8287, 8287); (12288, 12288) ].

(** Code points for which [chr(c).isdecimal()] holds.  Every range is a whole
    number of decades, and the digit value of a code point [c] of the range
    starting at [lo] is [(c - lo) mod 10]. *)
Definition decimal_ranges : list (N * N) :=
  [ (48, 57); (1632, 1641); (1776, 1785); (1984, 1993); (2406, 2415);
    (2534, 2543); (2662, 2671); (2790, 2799); (2918, 2927); (3046, 3055);
    (3174, 3183); (3302, 3311); (3430, 3439); (3558, 3567); (3664, 3673);
    (3792, 3801); (3872, 3881); (4160, 4169); (4240, 4249); (6112, 6121);
    (6160, 6169); (6470, 6479); (6608, 6617); (6784, 6793); (6800, 6809);
    (6992, 7001); (7088, 7097); (7232, 7241); (7248, 7257); (42528, 42537);
    (43216, 43225); (43264, 43273); (43472, 43481); (43504, 43513);
    (43600, 43609); (44016, 44025); (65296, 65305); (66720, 66729);
    (68912, 68921); (69734, 69743); (69872, 69881); (69942, 69951);
    (70096, 70105); (70384, 70393); (70736, 70745); (70864, 70873);
    (71248, 71257); (71360, 71369); (71472, 71481); (71904, 71913);
    (72016, 72025); (72784, 72793); (73040, 73049); (73120, 73129);
    (92768, 92777); (92864, 92873); (93008, 93017); (120782, 120831);
    (123200, 123209); (123632, 123641); (125264, 125273); (130032, 130041) ].

(** Code points for which [chr(c).isalnum()] holds. *)
Definition alnum_ranges : list (N * N) :=
  [ (48, 57); (65, 90); (97, 122); (170, 170); (178, 179); (181, 181);
    (185, 186); (188, 190); (192, 214); (216, 246); (248, 705); (710, 721);
    (736, 740); (748, 748); (750, 750); (880, 884); (886, 887); (890, 893);
    (895, 895); (902, 902); (904, 906); (908, 908); (910, 929); (931, 1013);
    (1015, 1153); (1162, 1327); (1329, 1366); (1369, 1369); (1376, 1416);
    (1488, 1514); (1519, 1522); (1568, 1610); (1632, 1641); (1646, 1647);
    (1649, 1747); (1749, 1749); (1765, 1766); (1774, 1788); (1791, 1791);
    (1808, 1808); (1810, 1839); (1869, 1957); (1969, 1969); (1984, 2026);
    (2036, 2037); (2042, 2042); (2048, 2069); (2074, 2074); (2084, 2084);
    (2088, 2088); (2112, 2136); (2144, 2154); (2160, 2183); (2185, 2190);
    (2208, 2249); (2308, 2361); (2365, 2365); (2384, 2384); (2392, 2401);
    (2406, 2415); (2417, 2432); (2437, 2444); (2447, 2448); (2451, 2472);
    (2474, 2480); (2482, 2482); (2486, 2489); (2493, 2493); (2510, 2510);
    (2524, 2525); (2527, 2529); (2534, 2545); (2548, 2553); (2556, 2556);
    (2565, 2570); (2575, 2576); (2579, 2600); (2602, 2608); (2610, 2611);
    (2613, 2614); (2616, 2617); (2649, 2652); (2654, 2654); (2662, 2671);
    (2674, 2676); (2693, 2701); (2703, 2705); (2707, 2728); (2730, 2736);
    (2738, 2739); (2741, 2745); (2749, 2749); (2768, 2768); (2784, 2785);
    (2790, 2799); (2809, 2809); (2821, 2828); (2831, 2832); (2835, 2856);
    (2858, 2864); (2866, 2867); (2869, 2873); (2877, 2877); (2908, 2909);
    (2911, 2913); (2918, 2927); (2929, 2935); (2947, 2947); (2949, 2954);
    (2958, 2960); (2962, 2965); (2969, 2970); (2972, 2972); (2974, 2975);
    (2979, 2980); (2984, 2986); (2990, 3001); (3024, 3024); (3046, 3058);
    (3077, 3084); (3086, 3088); (3090, 3112); (3114, 3129); (3133, 3133);
    (3160, 3162); (3165, 3165); (3168, 3169); (3174, 3183); (3192, 3198);
    (3200, 3200); (3205, 3212); (3214, 3216); (3218, 3240); (3242, 3251);
    (3253, 3257); (3261, 3261); (3293, 3294); (3296, 3297); (3302, 3311);
    (3313, 3314); (3332, 3340); (3342, 3344); (3346, 3386); (3389, 3389);
    (3406, 3406); (3412, 3414); (3416, 3425); (3430, 3448); (3450, 3455);
    (3461, 3478); (3482, 3505); (3507, 3515); (3517, 3517); (3520, 3526);
    (3558, 3567); (3585, 3632); (3634, 3635); (3648, 3654); (3664, 3673);
    (3713, 3714); (3716, 3716); (3718, 3722); (3724, 3747); (3749, 3749);
    (3751, 3760); (3762, 3763); (3773, 3773); (3776, 3780); (3782, 3782);
    (3792, 3801); (3804, 3807); (3840, 3840); (3872, 3891); (3904, 3911);
    (3913, 3948); (3976, 3980); (4096, 4138); (4159, 4169); (4176, 4181);
    (4186, 4189); (4193, 4193); (4197, 4198); (4206, 4208); (4213, 4225);
    (4238, 4238); (4240, 4249); (4256, 4293); (4295, 4295); (4301, 4301);
    (4304, 4346); (4348, 4680); (4682, 4685); (4688, 4694); (4696, 4696);
    (4698, 4701); (4704, 4744); (4746, 4749); (4752, 4784); (4786, 4789);
    (4792, 4798); (4800, 4800); (4802, 4805); (4808, 4822); (4824, 4880);
    (4882, 4885); (4888, 4954); (4969, 4988); (4992, 5007); (5024, 5109);
    (5112, 5117); (5121, 5740); (5743, 5759); (5761, 5786); (5792, 5866);
    (5870, 5880); (5888, 5905); (5919, 5937); (5952, 5969); (5984, 5996);
    (5998, 6000); (6016, 6067); (6103, 6103); (6108, 6108); (6112, 6121);
    (6128, 6137); (6160, 6169); (6176, 6264); (6272, 6276); (6279, 6312);
    (6314, 6314); (6320, 6389); (6400, 6430); (6470, 6509); (6512, 6516);
    (6528, 6571); (6576, 6601); (6608, 6618); (6656, 6678); (6688, 6740);
    (6784, 6793); (6800, 6809); (6823, 6823); (6917, 6963); (6981, 6988);
    (6992, 7001); (7043, 7072); (7086, 7141); (7168, 7203); (7232, 7241);
    (7245, 7293); (7296, 7304); (7312, 7354); (7357, 7359); (7401, 7404);
    (7406, 7411); (7413, 7414); (7418, 7418); (7424, 7615); (7680, 7957);
    (7960, 7965); (7968, 8005); (8008, 8013); (8016, 8023); (8025, 8025);
    (8027, 8027); (8029, 8029); (8031, 8061); (8064, 8116); (8118, 8124);
    (8126, 8126); (8130, 8132); (8134, 8140); (8144, 8147); (8150, 8155);
    (8160, 8172); (8178, 8180); (8182, 8188); (8304, 8305); (8308, 8313);
    (8319, 8329); (8336, 8348); (8450, 8450); (8455, 8455); (8458, 8467);
    (8469, 8469); (8473, 8477); (8484, 8484); (8486, 8486); (8488, 8488);
    (8490, 8493); (8495, 8505); (8508, 8511); (8517, 8521); (8526, 8526);
    (8528, 8585); (9312, 9371); (9450, 9471); (10102, 10131); (11264, 11492);
    (11499, 11502); (11506, 11507); (11517, 11517); (11520, 11557);
    (11559, 11559); (11565, 11565); (11568, 11623); (11631, 11631);
    (11648, 11670); (11680, 11686); (11688, 11694); (11696, 11702);
    (11704, 11710); (11712, 11718); (11720, 11726); (11728, 11734);
    (11736, 11742); (11823, 11823); (12293, 12295); (12321, 12329);
    (12337, 12341); (12344, 12348); (12353, 12438); (12445, 12447);
    (12449, 12538); (12540, 12543); (12549, 12591); (12593, 12686);
    (12690, 12693); (12704, 12735); (12784, 12799); (12832, 12841);
    (12872, 12879); (12881, 12895); (12928, 12937); (12977, 12991);
    (13312, 19903); (19968, 42124); (42192, 42237); (42240, 42508);
    (42512, 42539); (42560, 42606); (42623, 42653); (42656, 42735);
    (42775, 42783); (42786, 42888); (42891, 42954); (42960, 42961);
    (42963, 42963); (42965, 42969); (42994, 43009); (43011, 43013);
    (43015, 43018); (43020, 43042); (43056, 43061); (43072, 43123);
    (43138, 43187); (43216, 43225); (43250, 43255); (43259, 43259);
    (43261, 43262); (43264, 43301); (43312, 43334); (43360, 43388);
    (43396, 43442); (43471, 43481); (43488, 43492); (43494, 43518);
    (43520, 43560); (43584, 43586); (43588, 43595); (43600, 43609);
    (43616, 43638); (43642, 43642); (43646, 43695); (43697, 43697);
    (43701, 43702); (43705, 43709); (43712, 43712); (43714, 43714);
    (43739, 43741); (43744, 43754); (43762, 43764); (43777, 43782);
    (43785, 43790); (43793, 43798); (43808, 43814); (43816, 43822);
    (43824, 43866); (43868, 43881); (43888, 44002); (44016, 44025);
    (44032, 55203); (55216, 55238); (55243, 55291); (63744, 64109);
    (64112, 64217); (64256, 64262); (64275, 64279); (64285, 64285);
    (64287, 64296); (64298, 64310); (64312, 64316); (64318, 64318);
    (64320, 64321); (64323, 64324); (64326, 64433); (64467, 64829);
    (64848, 64911); (64914, 64967); (65008, 65019); (65136, 65140);
    (65142, 65276); (65296, 65305); (65313, 65338); (65345, 65370);
    (65382, 65470); (65474, 65479); (65482, 65487); (65490, 65495);
    (65498, 65500); (65536, 65547); (65549, 65574); (65576, 65594);
    (65596, 65597); (65599, 65613); (65616, 65629); (65664, 65786);
    (65799, 65843); (65856, 65912); (65930, 65931); (66176, 66204);
    (66208, 66256); (66273, 66299); (66304, 66339); (66349, 66378);
    (66384, 66421); (66432, 66461); (66464, 66499); (66504, 66511);
    (66513, 66517); (66560, 66717); (66720, 66729); (66736, 66771);
    (66776, 66811); (66816, 66855); (66864, 66915); (66928, 66938);
    (66940, 66954); (66956, 66962); (66964, 66965); (66967, 66977);
    (66979, 66993); (66995, 67001); (67003, 67004); (67072, 67382);
    (67392, 67413); (67424, 67431); (67456, 67461); (67463, 67504);
    (67506, 67514); (67584, 67589); (67592, 67592); (67594, 67637);
    (67639, 67640); (67644, 67644); (67647, 67669); (67672, 67702);
    (67705, 67742); (67751, 67759); (67808, 67826); (67828, 67829);
    (67835, 67867); (67872, 67897); (67968, 68023); (68028, 68047);
    (68050, 68096); (68112, 68115); (68117, 68119); (68121, 68149);
    (68160, 68168); (68192, 68222); (68224, 68255); (68288, 68295);
    (68297, 68324); (68331, 68335); (68352, 68405); (68416, 68437);
    (68440, 68466); (68472, 68497); (68521, 68527); (68608, 68680);
    (68736, 68786); (68800, 68850); (68858, 68899); (68912, 68921);
    (69216, 69246); (69248, 69289); (69296, 69297); (69376, 69415);
    (69424, 69445); (69457, 69460); (69488, 69505); (69552, 69579);
    (69600, 69622); (69635, 69687); (69714, 69743); (69745, 69746);
    (69749, 69749); (69763, 69807); (69840, 69864); (69872, 69881);
    (69891, 69926); (69942, 69951); (69956, 69956); (69959, 69959);
    (69968, 70002); (70006, 70006); (70019, 70066); (70081, 70084);
    (70096, 70106); (70108, 70108); (70113, 70132); (70144, 70161);
    (70163, 70187); (70272, 70278); (70280, 70280); (70282, 70285);
    (70287, 70301); (70303, 70312); (70320, 70366); (70384, 70393);
    (70405, 70412); (70415, 70416); (70419, 70440); (70442, 70448);
    (70450, 70451); (70453, 70457); (70461, 70461); (70480, 70480);
    (70493, 70497); (70656, 70708); (70727, 70730); (70736, 70745);
    (70751, 70753); (70784, 70831); (70852, 70853); (70855, 70855);
    (70864, 70873); (71040, 71086); (71128, 71131); (71168, 71215);
    (71236, 71236); (71248, 71257); (71296, 71338); (71352, 71352);
    (71360, 71369); (71424, 71450); (71472, 71483); (71488, 71494);
    (71680, 71723); (71840, 71922); (71935, 71942); (71945, 71945);
    (71948, 71955); (71957, 71958); (71960, 71983); (71999, 71999);
    (72001, 72001); (72016, 72025); (72096, 72103); (72106, 72144);
    (72161, 72161); (72163, 72163); (72192, 72192); (72203, 72242);
    (72250, 72250); (72272, 72272); (72284, 72329); (72349, 72349);
    (72368, 72440); (72704, 72712); (72714, 72750); (72768, 72768);
    (72784, 72812); (72818, 72847); (72960, 72966); (72968, 72969);
    (72971, 73008); (73030, 73030); (73040, 73049); (73056, 73061);
    (73063, 73064); (73066, 73097); (73112, 73112); (73120, 73129);
    (73440, 73458); (73648, 73648); (73664, 73684); (73728, 74649);
    (74752, 74862); (74880, 75075); (77712, 77808); (77824, 78894);
    (82944, 83526); (92160, 92728); (92736, 92766); (92768, 92777);
    (92784, 92862); (92864, 92873); (92880, 92909); (92928, 92975);
    (92992, 92995); (93008, 93017); (93019, 93025); (93027, 93047);
    (93053, 93071); (93760, 93846); (93952, 94026); (94032, 94032);
    (94099, 94111); (94176, 94177); (94179, 94179); (94208, 100343);
    (100352, 101589); (101632, 101640); (110576, 110579); (110581, 110587);
    (110589, 110590); (110592, 110882); (110928, 110930); (110948, 110951);
    (110960, 111355); (113664, 113770); (113776, 113788); (113792, 113800);
    (113808, 113817); (119520, 119539); (119648, 119672); (119808, 119892);
    (119894, 119964); (119966, 119967); (119970, 119970); (119973, 119974);
    (119977, 119980); (119982, 119993); (119995, 119995); (119997, 120003);
    (120005, 120069); (120071, 120074); (120077, 120084); (120086, 120092);
    (120094, 120121); (120123, 120126); (120128, 120132); (120134, 120134);
    (120138, 120144); (120146, 120485); (120488, 120512); (120514, 120538);
    (120540, 120570); (120572, 120596); (120598, 120628); (120630, 120654);
    (120656, 120686); (120688, 120712); (120714, 120744); (120746, 120770);
    (120772, 120779); (120782, 120831); (122624, 122654); (123136, 123180);
    (123191, 123197); (123200, 123209); (123214, 123214); (123536, 123565);
    (123584, 123627); (123632, 123641); (124896, 124902); (124904, 124907);
    (124909, 124910); (124912, 124926); (124928, 125124); (125127, 125135);
    (125184, 125251); (125259, 125259); (125264, 125273); (126065, 126123);
    (126125, 126127); (126129, 126132); (126209, 126253); (126255, 126269);
    (126464, 126467); (126469, 126495); (126497, 126498); (126500, 126500);
    (126503, 126503); (126505, 126514); (126516, 126519); (126521, 126521);
    (126523, 126523); (126530, 126530); (126535, 126535); (126537, 126537);
    (126539, 126539); (126541, 126543); (126545, 126546); (126548, 126548);
    (126551, 126551); (126553, 126553); (126555, 126555); (126557, 126557);
    (126559, 126559); (126561, 126562); (126564, 126564); (126567, 126570);
    (126572, 126578); (126580, 126583); (126585, 126588); (126590, 126590);
    (126592, 126601); (126603, 126619); (126625, 126627); (126629, 126633);
    (126635, 126651); (127232, 127244); (130032, 130041); (131072, 173791);
    (173824, 177976); (177984, 178205); (178208, 183969); (183984, 191456);
    (194560, 195101); (196608, 201546) ].

(** Code points, other than the five delimiters themselves, whose NFKC
    normalisation contains one of the delimiters / ? # @ and the colon. *)
Definition nfkc_delimiter_points : list N :=
  [ 8263; 8264; 8265; 8448; 8449; 8453; 8454; 10868; 65043; 65046; 65109; 65110;
    65119; 65131; 65283; 65295; 65306; 65311; 65312 ].

Definition in_ranges (t : list (N * N)) (c : char) : bool :=
  existsb (fun r => (fst r <=? c) && (c <=? snd r)) t.

(** [str.isspace] on one character; also the class [\s] of [re]. *)
Definition isspace (c : char) : bool := in_ranges space_ranges c.

(** [str.isalnum] on one character. *)
Definition isalnum (c : char) : bool := in_ranges alnum_ranges c.

(** [str.isdecimal] on one character; also the class [\d] of [re]. *)
Definition isdecimal (c : char) : bool := in_ranges decimal_ranges c.

(** The class [\w] of [re] on [str] patterns: alphanumerics and the
    underscore. *)
Definition isword (c : char) : bool := isalnum c || (c =? 95).

(** [unicodedata.decimal]: the value of a decimal digit. *)
Definition decimal (c : char) : option N :=
  (fun r => (c - fst r) mod 10) <$>
    List.find (fun r => (fst r <=? c) && (c <=? snd r)) decimal_ranges.

(** Whether normalising [c] to NFKC yields one of the delimiters. *)
Definition nfkc_has_delimiter (c : char) : bool :=
  existsb (N.eqb c) nfkc_delimiter_points.

(** ASCII classes. *)
Definition ascii_upper (c : char) : bool := (65 <=? c) && (c <=? 90).
Definition ascii_lower (c : char) : bool := (97 <=? c) && (c <=? 122).
Definition ascii_alpha (c : char) : bool := ascii_upper c || ascii_lower c.
Definition ascii_digit (c : char) : bool := (48 <=? c) && (c <=? 57).

(** [str.lower] and [str.upper] on an ASCII character. *)
Definition ascii_tolower (c : char) : char := if ascii_upper c then c + 32 else c.
Definition ascii_toupper (c : char) : char := if ascii_lower c then c - 32 else c.

(** The value of a hexadecimal digit. *)
Definition hexval (c : char) : option N :=
  if ascii_digit c then Some (c - 48)
  else if (65 <=? c) && (c <=? 70) then Some (c - 55)
  else if (97 <=? c) && (c <=? 102) then Some (c - 87)
  else None.

(** The upper-case hexadecimal digit of a value below sixteen. *)
Definition hexdigit (v : N) : char := if v <? 10 then 48 + v else 55 + v.

End Unicode.

(** ** Exceptions and results *)

(** The reasons for which the modelled code raises [ValueError]. *)
Inductive value_error : Type :=
| OnlyFileURIs (scheme : str)   (* 'Only file URIs currently supported. Tried %r.' *)
| NetlocOnlyOnWindows           (* 'Only know how to use `netloc` urls on Windows' *)
| ExpectAbsoluteBase            (* 'Expect base to be an absolute path' *)
| InvalidIPv6URL                (* urlsplit: 'Invalid IPv6 URL' *)
| InvalidBracketedHost          (* urlsplit: the bracketed host is no IPv6 or IPvFuture literal *)
| NetlocUnderNFKC               (* urlsplit: 'netloc ... contains invalid characters under NFKC normalization' *)
| RelativePathAsURI             (* as_uri: 'relative path can't be expressed as a file URI' *)
| InvalidIntLiteral             (* int: 'invalid literal for int() with base 10' *)
| ExceedsIntMaxStrDigits.       (* int, format: 'Exceeds the limit (%d digits) for integer string conversion' *)

(** Exception classes.  [UnicodeEncodeError] is a subclass of [ValueError];
    [IOError] is another name of [OSError]. *)
Inductive exn : Type :=
| ValueError (why : value_error)
| UnicodeEncodeError
| TypeError
| OSError
| IndexError
| RuntimeError.

Definition isinstance_ValueError (e : exn) : bool :=
  match e with ValueError _ | UnicodeEncodeError => true | _ => false end.

Definition isinstance_TypeError (e : exn) : bool :=
  match e with TypeError => true | _ => false end.

Definition isinstance_IOError (e : exn) : bool :=
  match e with OSError => true | _ => false end.

Inductive result (A : Type) : Type :=
| Ok (a : A)
| Raise (e : exn).
Arguments Ok {A} a.
Arguments Raise {A} e.

Definition bind {A B : Type} (m : result A) (k : A -> result B) : result B :=
  match m with
  | Ok a => k a
  | Raise e => Raise e
  end.

Notation "'let*' x ':=' m 'in' k" := (bind m (fun x => k))
  (at level 10, x name, m at level 200, k at level 200,
   format "'[v' 'let*'  x  ':='  m  'in' '/' k ']'").

(** [try: body  except cls: handler]. *)
Definition try_except {A : Type} (body : result A) (cls : exn -> bool)
    (handler : result A) : result A :=
  match body with
  | Ok a => Ok a
  | Raise e => if cls e then handler else Raise e
  end.

(** Running a fallible step over a list, left to right. *)
Fixpoint map_result {A B : Type} (f : A -> result B) (l : list A) : result (list B) :=
  match l with
  | [] => Ok []
  | a :: l' => let* b := f a in let* bs := map_result f l' in Ok (b :: bs)
  end.

(** ** UTF-8 and percent-encoding *)

Module Codec.

Definition is_cont (b : N) : bool := (128 <=? b) && (b <=? 191).

(** Whether [c1] may follow the lead byte [b] of a three-byte sequence
    (no overlong forms, no surrogates). *)
Definition second_of_3 (b c1 : N) : bool :=
  is_cont c1 && negb ((b =? 224) && (c1 <? 160)) && negb ((b =? 237) && (159 <? c1)).

(** Whether [c1] may follow the lead byte [b] of a four-byte sequence
    (no overlong forms, nothing beyond U+10FFFF). *)
Definition second_of_4 (b c1 : N) : bool :=
  is_cont c1 && negb ((b =? 240) && (c1 <? 144)) && negb ((b =? 244) && (143 <? c1)).

Definition replacement : char := 65533.

(** [bs.decode('utf-8', 'replace')]: every maximal ill-formed run that is a
    prefix of some well-formed sequence, or a single invalid byte, becomes
    one U+FFFD. *)
Fixpoint utf8_decode (bs : bytes) : str :=
  match bs with
  | [] => []
  | b :: r =>
      if b <? 128 then b :: utf8_decode r
      else if (194 <=? b) && (b <=? 223) then
        match r with
        | c1 :: r1 =>
            if is_cont c1 then ((b - 192) * 64 + (c1 - 128)) :: utf8_decode r1
            else replacement :: utf8_decode r
        | [] => [replacement]
        end
      else if (224 <=? b) && (b <=? 239) then
        match r with
        | c1 :: r1 =>
            if second_of_3 b c1 then
              match r1 with
              | c2 :: r2 =>
                  if is_cont c2
                  then ((b - 224) * 4096 + (c1 - 128) * 64 + (c2 - 128)) :: utf8_decode r2
                  else replacement :: utf8_decode r1
              | [] => [replacement]
              end
            else replacement :: utf8_decode r
        | [] => [replacement]
        end
      else if (240 <=? b) && (b <=? 244) then
        match r with
        | c1 :: r1 =>
            if second_of_4 b c1 then
              match r1 with
              | c2 :: r2 =>
                  if is_cont c2 then
                    match r2 with
                    | c3 :: r3 =>
                        if is_cont c3
                        then ((b - 240) * 262144 + (c1 - 128) * 4096
                              + (c2 - 128) * 64 + (c3 - 128)) :: utf8_decode r3
                        else replacement :: utf8_decode r2
                    | [] => [replacement]
                    end
                  else replacement :: utf8_decode r1
              | [] => [replacement]
              end
            else replacement :: utf8_decode r
        | [] => [replacement]
        end
      else replacement :: utf8_decode r
  end.

(** One character of [os.fsencode]: UTF-8 with the [surrogateescape] error
    handler (the file-system encoding is taken to be UTF-8).  The lone
    surrogates U+DC80..U+DCFF stand for the raw bytes 0x80..0xFF; any other
    surrogate cannot be encoded. *)
Definition fsencode_char (c : char) : result bytes :=
  if c <? 128 then Ok [c]
  else if c <? 2048 then Ok [192 + c / 64; 128 + c mod 64]
  else if (56448 <=? c) && (c <=? 56575) then Ok [c - 56320]
  else if (55296 <=? c) && (c <=? 57343) then Raise UnicodeEncodeError
  else if c <? 65536 then
    Ok [224 + c / 4096; 128 + (c / 64) mod 64; 128 + c mod 64]
  else if c <? 1114112 then
    Ok [240 + c / 262144; 128 + (c / 4096) mod 64; 128 + (c / 64) mod 64;
        128 + c mod 64]
  else Raise UnicodeEncodeError.

Definition fsencode (s : str) : result bytes :=
  let* bs := map_result fsencode_char s in Ok (concat bs).

(** [urllib.parse._ALWAYS_SAFE] together with the default [safe='/']. *)
Definition quote_safe (b : N) : bool :=
  Unicode.ascii_alpha b || Unicode.ascii_digit b
  || (b =? 95) || (b =? 46) || (b =? 45) || (b =? 126) || (b =? 47).

(** [urllib.parse.quote_from_bytes(bs)]. *)
Definition quote_from_bytes (bs : bytes) : str :=
  flat_map (fun b => if quote_safe b then [b]
                     else [37; Unicode.hexdigit (b / 16); Unicode.hexdigit (b mod 16)]) bs.

(** One item of [string.split(b'%')] after the first, in
    [urllib.parse.unquote_to_bytes]: two hexadecimal digits become a byte,
    anything else keeps its percent sign. *)
Definition unquote_item (item : bytes) : bytes :=
  match item with
  | h :: l :: rest =>
      match Unicode.hexval h, Unicode.hexval l with
      | Some a, Some b => (16 * a + b) :: rest
      | _, _ => 37 :: item
      end
  | _ => 37 :: item
  end.

(** [urllib.parse.unquote_to_bytes] on an ASCII string. *)
Definition unquote_to_bytes (s : str) : bytes :=
  match Str.split 37 s with
  | [] => []
  | first :: items => first ++ flat_map unquote_item items
  end.

(** The loop of [urllib.parse.unquote] over the pieces of
    [_asciire.split(string)]: [run] is the ASCII run being collected, last
    character first. *)
Fixpoint unquote_runs (run : str) (s : str) : str :=
  match s with
  | [] => utf8_decode (unquote_to_bytes (rev run))
  | c :: s' =>
      if c <? 128 then unquote_runs (c :: run) s'
      else utf8_decode (unquote_to_bytes (rev run)) ++ c :: unquote_runs [] s'
  end.

(** [urllib.parse.unquote(string)] with the default [encoding='utf-8'],
    [errors='replace']. *)
Definition unquote (s : str) : str :=
  if negb (Str.mem 37 s) then s else unquote_runs [] s.

End Codec.

(** ** Paths of [pathlib] on a POSIX host *)

(** A [PurePosixPath]: its root (empty, one slash or two) and its parts, the
    root being the first part of a rooted path.  The drive of a POSIX path
    is always empty. *)
Record PosixPath : Type := mkPath { root : str; parts : list str }.

Module Pathlib.

Definition slash : char := 47.
Definition dot : str := [46].
Definition dotdot : str := [46; 46].

Definition nonempty (s : str) : bool := match s with [] => false | _ => true end.

(** [_PosixFlavour.splitroot]: the root of one constructor argument and the
    rest of it. *)
Definition splitroot (part : str) : str * str :=
  match part with
  | 47 :: _ =>
      let stripped := Str.lstrip (N.eqb slash) part in
      if (length part - length stripped =? 2)%nat
      then ([slash; slash], stripped)
      else ([slash], stripped)
  | _ => ([], part)
  end.

(** The segments one argument contributes: those of [rel.split('/')] that
    are neither empty nor a single dot. *)
Definition segments (rel : str) : list str :=
  List.filter (fun x => nonempty x && negb (Str.eqb x dot)) (Str.split slash rel).

(** The loop of [_Flavour.parse_parts] over [reversed(parts)]: it stops at
    the first rooted argument it meets.  The parts come out last first. *)
Fixpoint parse_rev (rev_args : list str) : str * list str :=
  match rev_args with
  | [] => ([], [])
  | part :: rest =>
      if nonempty part then
        let '(rt, rel) := splitroot part in
        if nonempty rt then (rt, rev (segments rel))
        else let '(rt', more) := parse_rev rest in (rt', rev (segments rel) ++ more)
      else parse_rev rest
  end.

(** [_Flavour.parse_parts(parts)]. *)
Definition parse_parts (args : list str) : PosixPath :=
  let '(rt, parsed) := parse_rev (rev args) in
  mkPath rt (rev (if nonempty rt then parsed ++ [rt] else parsed)).

(** [PurePath.__str__]. *)
Definition to_str (p : PosixPath) : str :=
  let s := if nonempty (root p)
           then root p ++ Str.join slash (tail (parts p))
           else Str.join slash (parts p) in
  if nonempty s then s else dot.

(** [PurePath.is_absolute]. *)
Definition is_absolute (p : PosixPath) : bool := nonempty (root p).

(** [_Flavour.join_parsed_parts] without drives. *)
Definition join_parsed_parts (p q : PosixPath) : PosixPath :=
  if nonempty (root q) then q else mkPath (root p) (parts p ++ parts q).

(** [PurePath.__eq__] between two paths of the POSIX flavour: the parts are
    compared. *)
Definition eqb (p q : PosixPath) : bool := bool_decide (parts p = parts q).

(** [posixpath.normpath] (its definition in Python).  [new_comps] is kept
    last component first. *)
Definition normpath_step (initial_slashes : nat) (new_comps : list str)
    (comp : str) : list str :=
  if negb (nonempty comp) || Str.eqb comp dot then new_comps
  else if negb (Str.eqb comp dotdot)
          || ((initial_slashes =? 0)%nat && match new_comps with [] => true | _ => false end)
          || (match new_comps with top :: _ => Str.eqb top dotdot | [] => false end)
       then comp :: new_comps
       else tail new_comps.

Definition normpath (path : str) : str :=
  if negb (nonempty path) then dot
  else
    let initial_slashes :=
      if Str.startswith [slash] path then
        if Str.startswith [slash; slash] path
           && negb (Str.startswith [slash; slash; slash] path)
        then 2%nat else 1%nat
      else 0%nat in
    let new_comps := fold_left (normpath_step initial_slashes) (Str.split slash path) [] in
    let path' := repeat slash initial_slashes ++ Str.join slash (rev new_comps) in
    if nonempty path' then path' else dot.

End Pathlib.

(** ** Values *)

(** The Python values the functions are applied to. *)
Inductive value : Type :=
| VNone
| VBool (b : bool)
| VInt (n : Z)
| VBytes (b : bytes)
| VStr (s : str)
| VPath (p : PosixPath).

(** ** The host *)

Inductive os_kind : Type := Posix | NT.

Inductive ip_version : Type := IPv4 | IPv6.

(** What the code reads from outside itself. *)
Record host : Type := mkHost {
  (** [os.name == 'nt'] is [NT]. *)
  os_name : os_kind;
  (** [os.environ]. *)
  environ : gmap str str;
  (** [os.getcwd()]. *)
  getcwd : result str;
  (** [pathlib.Path.resolve()]: the path with its symbolic links followed,
      or the exception the file system answers with. *)
  fs_resolve : PosixPath -> result PosixPath;
  (** [ipaddress.ip_address(s)]: the kind of address [s] spells, if any. *)
  ip_address : str -> option ip_version;
  (** [sys.get_int_max_str_digits()]: the longest decimal text an [int] is
      converted to or from, 4300 digits unless set otherwise; [0] stands
      for no limit, and the interpreter accepts no value from 1 to 639. *)
  int_max_str_digits : N
}.

(** ** Regular expressions *)

Module Re.

(** Patterns over character classes.  [re.match] anchors a pattern at the
    start of the string, which is all [\A] asks for. *)
Inductive regex : Type :=
| Empty
| Eps
| Class (p : char -> bool)
| Cat (r1 r2 : regex)
| Alt (r1 r2 : regex)
| Star (r : regex).

Definition Chr (c : char) : regex := Class (N.eqb c).
Definition Plus (r : regex) : regex := Cat r (Star r).

(** The strings a pattern matches in full. *)
Inductive lang : regex -> str -> Prop :=
| lang_eps : lang Eps []
| lang_class p c : p c = true -> lang (Class p) [c]
| lang_cat r1 r2 s1 s2 : lang r1 s1 -> lang r2 s2 -> lang (Cat r1 r2) (s1 ++ s2)
| lang_alt_l r1 r2 s : lang r1 s -> lang (Alt r1 r2) s
| lang_alt_r r1 r2 s : lang r2 s -> lang (Alt r1 r2) s
| lang_star_nil r : lang (Star r) []
| lang_star_cons r s1 s2 : lang r s1 -> lang (Star r) s2 -> lang (Star r) (s1 ++ s2).

Fixpoint nullable (r : regex) : bool :=
  match r with
  | Empty => false
  | Eps => true
  | Class _ => false
  | Cat r1 r2 => nullable r1 && nullable r2
  | Alt r1 r2 => nullable r1 || nullable r2
  | Star _ => true
  end.

(** The derivative of a pattern by one character. *)
Fixpoint deriv (c : char) (r : regex) : regex :=
  match r with
  | Empty => Empty
  | Eps => Empty
  | Class p => if p c then Eps else Empty
  | Cat r1 r2 =>
      if nullable r1 then Alt (Cat (deriv c r1) r2) (deriv c r2)
      else Cat (deriv c r1) r2
  | Alt r1 r2 => Alt (deriv c r1) (deriv c r2)
  | Star r1 => Cat (deriv c r1) (Star r1)
  end.

(** Whether some prefix of [s] matches [r]: [r.match(s) is not None]. *)
Fixpoint match_prefix (r : regex) (s : str) : bool :=
  nullable r ||
  match s with
  | [] => false
  | c :: s' => match_prefix (deriv c r) s'
  end.

(** Whether the whole of [s] matches [r]: a match of a pattern ending in [\Z]. *)
Fixpoint fullmatch (r : regex) (s : str) : bool :=
  match s with
  | [] => nullable r
  | c :: s' => fullmatch (deriv c r) s'
  end.

(** [pattern.match(v)] for a pattern compiled from a [str]: whether the
    result is a match object rather than [None].  Anything but a [str]
    is refused with [TypeError]. *)
Definition match_ (r : regex) (v : value) : result bool :=
  match v with
  | VStr s => Ok (match_prefix r s)
  | _ => Raise TypeError
  end.

End Re.

(** ** [urllib.parse] *)

Record ParseResult : Type := mkParseResult {
  scheme : str;
  netloc : str;
  path : str;
  params : str;
  query : str;
  fragment : str
}.

Module UrlParse.

(** [urllib.parse.scheme_chars]. *)
Definition scheme_char (c : char) : bool :=
  Unicode.ascii_alpha c || Unicode.ascii_digit c || (c =? 43) || (c =? 45) || (c =? 46).

(** [_WHATWG_C0_CONTROL_OR_SPACE]. *)
Definition c0_control_or_space (c : char) : bool := c <=? 32.

(** [_UNSAFE_URL_BYTES_TO_REMOVE]: tab, carriage return, line feed. *)
Definition unsafe_url_byte (c : char) : bool := (c =? 9) || (c =? 13) || (c =? 10).

(** The first lines of [urlsplit]: leading controls and spaces are
    stripped, then tabs and line breaks are removed everywhere. *)
Definition sanitize (url : str) : str :=
  List.filter (fun c => negb (unsafe_url_byte c)) (Str.lstrip c0_control_or_space url).

(** The scheme of [url], lower-cased, and what follows its colon; the empty
    scheme and [url] itself when [url] does not start with a scheme. *)
Definition split_scheme (url : str) : str * str :=
  match Str.find 58 url, url with
  | Some (S i), c0 :: _ =>
      if Unicode.ascii_alpha c0 && forallb scheme_char (take (S i) url)
      then (List.map Unicode.ascii_tolower (take (S i) url), drop (S (S i)) url)
      else ([], url)
  | _, _ => ([], url)
  end.

Definition netloc_delimiter (c : char) : bool := (c =? 47) || (c =? 63) || (c =? 35).

(** [_splitnetloc(url, 2)]: the text between the two slashes and the first
    of [/], [?] and [#] after them, and the rest. *)
Definition splitnetloc (url : str) : str * str := Str.break netloc_delimiter (drop 2 url).

(** [s.rpartition(c)[2]]: what follows the last [c], or all of [s]. *)
Definition after_last (c : char) (s : str) : str :=
  List.last (Str.split c s) [].

(** The pattern of an IPvFuture literal, [v[a-fA-F0-9]+\..+]. *)
Definition IPVFUTURE_RE : Re.regex :=
  Re.Cat (Re.Chr 118)
    (Re.Cat (Re.Plus (Re.Class (fun c => match Unicode.hexval c with Some _ => true | None => false end)))
       (Re.Cat (Re.Chr 46) (Re.Plus (Re.Class (fun c => negb (c =? 10)))))).

(** [_check_bracketed_host]. *)
Definition check_bracketed_host (h : host) (hostname : str) : result unit :=
  if Str.startswith [118] hostname then
    if Re.fullmatch IPVFUTURE_RE hostname then Ok tt
    else Raise (ValueError InvalidBracketedHost)
  else
    match ip_address h hostname with
    | Some IPv6 => Ok tt
    | Some IPv4 | None => Raise (ValueError InvalidBracketedHost)
    end.

(** [_check_bracketed_netloc]. *)
Definition check_bracketed_netloc (h : host) (netloc : str) : result unit :=
  let hostname_and_port := after_last 64 netloc in
  match Str.split1 91 hostname_and_port with
  | Some (before_bracket, bracketed) =>
      if Pathlib.nonempty before_bracket then Raise (ValueError InvalidIPv6URL)
      else
        let '(hostname, port) :=
          match Str.split1 93 bracketed with
          | Some (a, b) => (a, b)
          | None => (bracketed, [])
          end in
        if Pathlib.nonempty port && negb (Str.startswith [58] port)
        then Raise (ValueError InvalidIPv6URL)
        else check_bracketed_host h hostname
  | None =>
      let hostname :=
        match Str.split1 58 hostname_and_port with
        | Some (a, _) => a
        | None => hostname_and_port
        end in
      check_bracketed_host h hostname
  end.

(** [_checknetloc]: a network location that is not plain ASCII may not
    normalise (NFKC) to text with a delimiter.  The location itself holds
    no [/], [?] or [#], and [@] and [:] are set aside before normalising,
    so the normal form has a delimiter exactly when one of the remaining
    characters normalises to text with one. *)
Definition checknetloc (netloc : str) : result unit :=
  if negb (Pathlib.nonempty netloc) || Str.isascii netloc then Ok tt
  else
    let n := Str.remove 63 (Str.remove 35 (Str.remove 58 (Str.remove 64 netloc))) in
    if existsb Unicode.nfkc_has_delimiter n then Raise (ValueError NetlocUnderNFKC)
    else Ok tt.

(** The bracket checks of [urlsplit] on a network location. *)
Definition check_brackets (h : host) (netloc : str) : result unit :=
  let lb := Str.mem 91 netloc in
  let rb := Str.mem 93 netloc in
  if (lb && negb rb) || (rb && negb lb) then Raise (ValueError InvalidIPv6URL)
  else if lb && rb then check_bracketed_netloc h netloc
  else Ok tt.

(** [s.split(c, 1)] when [c in s], and [(s, '')] otherwise. *)
Definition cut (c : char) (s : str) : str * str :=
  match Str.split1 c s with
  | Some ab => ab
  | None => (s, [])
  end.

(** The network location of [urlsplit]: what follows a leading [//], with
    its brackets checked, and the rest. *)
Definition split_authority (h : host) (url : str) : result (str * str) :=
  if Str.startswith [47; 47] url then
    let '(netloc, url) := splitnetloc url in
    let* _ := check_brackets h netloc in Ok (netloc, url)
  else Ok ([], url).

(** [urllib.parse.urlsplit(url)]; the result has no [params]. *)
Definition urlsplit (h : host) (url : str) : result ParseResult :=
  let url := sanitize url in
  let '(scheme, url) := split_scheme url in
  let* nu := split_authority h url in
  let '(netloc, url) := nu in
  let '(url, fragment) := cut 35 url in
  let '(url, query) := cut 63 url in
  let* _ := checknetloc netloc in
  Ok (mkParseResult scheme netloc url [] query fragment).

(** [urllib.parse.uses_params]. *)
Definition uses_params : list str :=
  [ []; lit "ftp"; lit "hdl"; lit "prospero"; lit "http"; lit "imap";
    lit "https"; lit "shttp"; lit "rtsp"; lit "rtspu"; lit "sip"; lit "sips";
    lit "mms"; lit "sftp"; lit "tel" ].

(** The text after the last [c] of [s] and the text up to and including it;
    [None] when [c] does not occur. *)
Definition rsplit1 (c : char) (s : str) : option (str * str) :=
  match Str.split1 c (rev s) with
  | Some (a, b) => Some (rev b ++ [c], rev a)
  | None => None
  end.

(** [_splitparams(url)]: the parameters follow the first semicolon of the
    last path segment. *)
Definition splitparams (url : str) : str * str :=
  match rsplit1 47 url with
  | Some (dir, last_segment) =>
      match Str.split1 59 last_segment with
      | Some (a, b) => (dir ++ a, b)
      | None => (url, [])
      end
  | None => cut 59 url
  end.

(** [urllib.parse.urlparse(url)]. *)
Definition urlparse (h : host) (url : str) : result ParseResult :=
  let* r := urlsplit h url in
  if existsb (Str.eqb (scheme r)) uses_params && Str.mem 59 (path r) then
    let '(url, params) := splitparams (path r) in
    Ok (mkParseResult (scheme r) (netloc r) url params (query r) (fragment r))
  else Ok r.

(** One field of the query string in [parse_qsl], with the defaults
    [keep_blank_values=False] and [strict_parsing=False]: a field without
    [=] or with an empty value is dropped. *)
Definition parse_field (name_value : str) : list (str * str) :=
  match Str.split1 61 name_value with
  | Some (name, v) =>
      if Pathlib.nonempty v
      then [(Codec.unquote (Str.replace 43 32 name), Codec.unquote (Str.replace 43 32 v))]
      else []
  | None => []
  end.

(** [urllib.parse.parse_qsl(qs)]. *)
Definition parse_qsl (qs : str) : list (str * str) :=
  if Pathlib.nonempty qs then flat_map parse_field (Str.split 38 qs) else [].

End UrlParse.

(** [dict(pairs)]: later pairs replace earlier ones with the same key. *)
Definition dict (pairs : list (str * str)) : gmap str str :=
  fold_left (fun m kv => <[ fst kv := snd kv ]> m) pairs ∅.

(** ** Integers and their decimal text *)

Module PyInt.

Fixpoint digits (d : Decimal.uint) : str :=
  match d with
  | Decimal.Nil => []
  | Decimal.D0 d => 48 :: digits d
  | Decimal.D1 d => 49 :: digits d
  | Decimal.D2 d => 50 :: digits d
  | Decimal.D3 d => 51 :: digits d
  | Decimal.D4 d => 52 :: digits d
  | Decimal.D5 d => 53 :: digits d
  | Decimal.D6 d => 54 :: digits d
  | Decimal.D7 d => 55 :: digits d
  | Decimal.D8 d => 56 :: digits d
  | Decimal.D9 d => 57 :: digits d
  end.

(** The number a digit string denotes when the digits before it denote
    [acc]. *)
Fixpoint horner (d : Decimal.uint) (acc : N) : N :=
  match d with
  | Decimal.Nil => acc
  | Decimal.D0 d => horner d (10 * acc)
  | Decimal.D1 d => horner d (10 * acc + 1)
  | Decimal.D2 d => horner d (10 * acc + 2)
  | Decimal.D3 d => horner d (10 * acc + 3)
  | Decimal.D4 d => horner d (10 * acc + 4)
  | Decimal.D5 d => horner d (10 * acc + 5)
  | Decimal.D6 d => horner d (10 * acc + 6)
  | Decimal.D7 d => horner d (10 * acc + 7)
  | Decimal.D8 d => horner d (10 * acc + 8)
  | Decimal.D9 d => horner d (10 * acc + 9)
  end.

(** The decimal text of [n]: its digits, after a minus sign when [n] is
    negative. *)
Definition decimal_text (n : Z) : str :=
  match Z.to_int n with
  | Decimal.Pos d => digits d
  | Decimal.Neg d => 45 :: digits d
  end.

(** [_PY_LONG_MAX_STR_DIGITS_THRESHOLD]: texts up to this length are
    converted without looking at the limit. *)
Definition max_str_digits_threshold : N := 640.

(** The test of the limit in [longobject.c]: a conversion of [len]
    characters, [ndigits] of them digits, is refused when [len] is over
    the threshold, a limit is set, and [ndigits] is over the limit. *)
Definition exceeds_max_str_digits (h : host) (len ndigits : N) : bool :=
  (max_str_digits_threshold <? len) && (0 <? int_max_str_digits h)
  && (int_max_str_digits h <? ndigits).

(** ['{:d}'.format(n)]: the decimal text of [n], or [ValueError] when it
    has more digits than the limit allows ([long_to_decimal_string]; its
    preliminary test on the size of [n] refuses only what the test on the
    text refuses). *)
Definition format_d (h : host) (n : Z) : result str :=
  let s := decimal_text n in
  let strlen := N.of_nat (length s) in
  let strlen_nosign := if (n <? 0)%Z then strlen - 1 else strlen in
  if exceeds_max_str_digits h strlen strlen_nosign
  then Raise (ValueError ExceedsIntMaxStrDigits)
  else Ok s.

(** The white space of [Py_ISSPACE]. *)
Definition ascii_space (c : char) : bool := ((9 <=? c) && (c <=? 13)) || (c =? 32).

(** [_PyUnicode_TransformDecimalAndSpaceToASCII]: in text that is not plain
    ASCII, white space becomes a blank and a decimal digit of any script
    its ASCII digit; any other character from U+007F on is no part of a
    number. *)
Definition to_ascii_decimal (s : str) : option str :=
  if Str.isascii s then Some s
  else
    mapM (M := option)
      (fun c => if c <? 127 then Some c
                else if Unicode.isspace c then Some 32
                else (fun d => 48 + d) <$> Unicode.decimal c) s.

(** The digits of [PyLong_FromString] in base ten: digits with single
    underscores between them.  [prev] is the character read last, [acc]
    the value of the digits read.  Returns the value and the unread rest. *)
Fixpoint scan_digits (s : str) (acc : N) (prev : option char) : option (N * str) :=
  let finish :=
    match prev with
    | None => None
    | Some p => if p =? 95 then None else Some (acc, s)
    end in
  match s with
  | c :: s' =>
      if Unicode.ascii_digit c then scan_digits s' (10 * acc + (c - 48)) (Some c)
      else if c =? 95 then
        match prev with
        | Some p => if p =? 95 then None else scan_digits s' acc (Some c)
        | None => None
        end
      else finish
  | [] => finish
  end.

(** The optional sign before the digits: whether it is a minus, and the
    text after it. *)
Definition split_sign (t : str) : bool * str :=
  match t with
  | 43 :: r => (false, r)
  | 45 :: r => (true, r)
  | _ => (false, t)
  end.

(** The number of digits among the digits and underscores at the head of
    [s], which [PyLong_FromString] counts while it reads them. *)
Fixpoint count_digits (s : str) : N :=
  match s with
  | c :: s' =>
      if Unicode.ascii_digit c then 1 + count_digits s'
      else if c =? 95 then count_digits s'
      else 0
  | [] => 0
  end.

(** [int(s)] for a [str]: white space, an optional sign, digits with
    single underscores between them, white space.  The limit on the number
    of digits is tested once the digits are read, before what follows them
    is looked at. *)
Definition int (h : host) (s : str) : result Z :=
  match to_ascii_decimal s with
  | None => Raise (ValueError InvalidIntLiteral)
  | Some t =>
      let '(negative, t) := split_sign (Str.lstrip ascii_space t) in
      match scan_digits t 0 None with
      | None => Raise (ValueError InvalidIntLiteral)
      | Some (v, rest) =>
          let ndigits := count_digits t in
          if exceeds_max_str_digits h ndigits ndigits
          then Raise (ValueError ExceedsIntMaxStrDigits)
          else
            match Str.lstrip ascii_space rest with
            | [] => Ok (if negative then (- Z.of_N v)%Z else Z.of_N v)
            | _ :: _ => Raise (ValueError InvalidIntLiteral)
            end
      end
  end.

(** The integer [int(s)] returns, if it returns one: [None] stands for
    its [ValueError]. *)
Definition parse (h : host) (s : str) : option Z :=
  match int h s with
  | Ok n => Some n
  | Raise _ => None
  end.

End PyInt.

(** ** [url2pathname] *)

Module Url2Path.

(** [nturl2path.url2pathname], the [url2pathname] of a Windows host. *)
Definition nt_url2pathname (url : str) : result str :=
  let url := Str.replace 58 124 url in
  if negb (Str.mem 124 url) then
    let url := if Str.startswith [47; 47; 47; 47] url then drop 2 url else url in
    Ok (Codec.unquote (Str.join 92 (Str.split 47 url)))
  else
    match Str.split 124 url with
    | [comp0; comp1] =>
        match List.last (List.map Some comp0) None with
        | None => Raise IndexError
        | Some c =>
            if negb (Unicode.ascii_alpha c) then Raise OSError
            else
              let drive := Unicode.ascii_toupper c in
              let path :=
                fold_left
                  (fun path comp =>
                     if Pathlib.nonempty comp then path ++ 92 :: Codec.unquote comp
                     else path)
                  (Str.split 47 comp1) [drive; 58] in
              Ok (if Str.endswith [58] path && Str.endswith [47] url
                  then path ++ [92] else path)
        end
    | _ => Raise OSError
    end.

(** [urllib.request.url2pathname] as [os.name] selects it. *)
Definition url2pathname (h : host) (pathname : str) : result str :=
  match os_name h with
  | NT => nt_url2pathname pathname
  | Posix => Ok (Codec.unquote pathname)
  end.

End Url2Path.

(** The path object [pathlib.Path(s)] builds from a string: a [PosixPath],
    or on a Windows host a [WindowsPath], which is kept as the text it was
    built from. *)
Inductive NativePath : Type :=
| APosixPath (p : PosixPath)
| AWindowsPath (arg : str).

Definition native_path (h : host) (s : str) : NativePath :=
  match os_name h with
  | NT => AWindowsPath s
  | Posix => APosixPath (Pathlib.parse_parts [s])
  end.

(** ** Concrete paths: [pathlib.Path] on a POSIX host *)

Module Path.

(** [pathlib.Path(v)]: a string is parsed, a path contributes its parts. *)
Definition make (v : value) : result PosixPath :=
  match v with
  | VStr s => Ok (Pathlib.parse_parts [s])
  | VPath p => Ok (Pathlib.parse_parts (parts p))
  | _ => Raise TypeError
  end.

Definition of_str (s : str) : PosixPath := Pathlib.parse_parts [s].

(** [p / q] for a path [q]. *)
Definition truediv (p q : PosixPath) : PosixPath :=
  Pathlib.join_parsed_parts p (Pathlib.parse_parts (parts q)).

(** [Path.absolute()]: a relative path is put after [Path.cwd()]. *)
Definition absolute (h : host) (p : PosixPath) : result PosixPath :=
  if Pathlib.is_absolute p then Ok p
  else
    let* cwd := getcwd h in
    Ok (Pathlib.parse_parts (parts (of_str cwd) ++ parts p)).

(** [Path.as_uri()]. *)
Definition as_uri (p : PosixPath) : result str :=
  if negb (Pathlib.is_absolute p) then Raise (ValueError RelativePathAsURI)
  else
    let* bpath := Codec.fsencode (Pathlib.to_str p) in
    Ok (lit "file://" ++ Codec.quote_from_bytes bpath).

(** [Path.resolve()]. *)
Definition resolve (h : host) (p : PosixPath) : result PosixPath := fs_resolve h p.

End Path.

(** * The functions of [datacube/utils/uris.py] *)

(** The class [[\w\d\+]] of [URL_RE]. *)
Definition scheme_token_char (c : char) : bool :=
  Unicode.isword c || Unicode.isdecimal c || (c =? 43).

(** [URL_RE = re.compile(r'\A\s*[\w\d\+]+://')]. *)
Definition URL_RE : Re.regex :=
  Re.Cat (Re.Star (Re.Class Unicode.isspace))
    (Re.Cat (Re.Plus (Re.Class scheme_token_char))
       (Re.Cat (Re.Chr 58) (Re.Cat (Re.Chr 47) (Re.Chr 47)))).

(** [is_url(url_str)]. *)
Definition is_url (url_str : value) : result bool :=
  try_except
    (Re.match_ URL_RE url_str)
    isinstance_TypeError
    (Ok false).

(** [uri_to_local_path(local_uri)], for [None] or a [str]. *)
Definition uri_to_local_path (h : host) (local_uri : option str)
    : result (option NativePath) :=
  match local_uri with
  | None | Some [] => Ok None
  | Some uri =>
      let* components := UrlParse.urlparse h uri in
      if negb (Str.eqb (scheme components) (lit "file"))
      then Raise (ValueError (OnlyFileURIs (scheme components)))
      else
        let* path := Url2Path.url2pathname h (path components) in
        let* path :=
          if Pathlib.nonempty (netloc components) then
            match os_name h with
            | NT => Ok ([47; 47] ++ netloc components ++ path)
            | Posix => Raise (ValueError NetlocOnlyOnWindows)
            end
          else Ok path in
        Ok (Some (native_path h path))
  end.

(** [mk_part_uri(uri, idx)] for a [str] and an [int]:
    ['{}#part={:d}'.format(uri, idx)]. *)
Definition mk_part_uri (h : host) (uri : str) (idx : Z) : result str :=
  let* digits := PyInt.format_d h idx in
  Ok (uri ++ lit "#part=" ++ digits).

(** The inner function [maybe_int] of [get_part_from_uri]. *)
Definition maybe_int (h : host) (v : option str) : result value :=
  match v with
  | None => Ok VNone
  | Some s =>
      try_except
        (let* n := PyInt.int h s in Ok (VInt n))
        isinstance_ValueError
        (Ok (VStr s))
  end.

(** [get_part_from_uri(uri)]. *)
Definition get_part_from_uri (h : host) (uri : str) : result value :=
  let* components := UrlParse.urlparse h uri in
  let opts := dict (UrlParse.parse_qsl (fragment components)) in
  maybe_int h (opts !! lit "part").

(** [as_url(maybe_uri)]. *)
Definition as_url (h : host) (maybe_uri : value) : result value :=
  let* looks_like_url := is_url maybe_uri in
  if looks_like_url then Ok maybe_uri
  else
    let* p := Path.make maybe_uri in
    let* a := Path.absolute h p in
    let* uri := Path.as_uri a in
    Ok (VStr uri).

(** [default_base_dir()]. *)
Definition default_base_dir (h : host) : result PosixPath :=
  let* cwd := Path.resolve h (Path.of_str [46]) in
  match environ h !! lit "PWD" with
  | None => Ok cwd
  | Some pwd =>
      let pwd := Path.of_str pwd in
      if negb (Pathlib.is_absolute pwd) then Ok cwd
      else
        try_except
          (let* pwd_resolved := Path.resolve h pwd in
           if negb (Pathlib.eqb cwd pwd_resolved) then Ok cwd else Ok pwd)
          isinstance_IOError
          (Ok cwd)
  end.

(** An argument that is a [str] or a [pathlib.Path], as the assertions at
    the head of [normalise_path] require of [p] and, unless it is [None],
    of [base]. *)
Inductive pathlike : Type :=
| PStr (s : str)
| PPath (p : PosixPath).

Definition as_path (a : pathlike) : PosixPath :=
  match a with
  | PStr s => Path.of_str s
  | PPath p => p
  end.

(** The inner function [norm] of [normalise_path]. *)
Definition norm (p : PosixPath) : PosixPath :=
  Path.of_str (Pathlib.normpath (Pathlib.to_str p)).

(** [normalise_path(p, base=None)]. *)
Definition normalise_path (h : host) (p : pathlike) (base : option pathlike)
    : result PosixPath :=
  let p := as_path p in
  let base := as_path <$> base in
  if Pathlib.is_absolute p then Ok (norm p)
  else
    let* base :=
      match base with
      | None => default_base_dir h
      | Some base =>
          if negb (Pathlib.is_absolute base)
          then Raise (ValueError ExpectAbsoluteBase)
          else Ok base
      end in
    Ok (norm (Path.truediv base p)).

(** * The statements to be compared with the code *)

(** A string looks like a URL when, after any white space, it has a
    non-empty run of characters of the class [[\w\d\+]] and then [://]. *)
Definition url_shaped (s : str) : Prop :=
  exists ws tok rest,
    s = ws ++ tok ++ lit "://" ++ rest
    /\ forallb Unicode.isspace ws = true
    /\ tok <> []
    /\ forallb scheme_token_char tok = true.

(** The class [[A-Za-z0-9_+]] of the pattern as the specification writes it. *)
Definition spec_scheme_char (c : char) : bool :=
  Unicode.ascii_alpha c || Unicode.ascii_digit c || (c =? 95) || (c =? 43).

(** The pattern as the specification writes it, [^\s*[A-Za-z0-9_+]+://]. *)
Definition SPEC_URL_RE : Re.regex :=
  Re.Cat (Re.Star (Re.Class Unicode.isspace))
    (Re.Cat (Re.Plus (Re.Class spec_scheme_char))
       (Re.Cat (Re.Chr 58) (Re.Cat (Re.Chr 47) (Re.Chr 47)))).

(** The classifier as the specification describes it. *)
Definition spec_is_locator (v : value) : bool :=
  match v with
  | VStr s => Re.match_prefix SPEC_URL_RE s
  | _ => false
  end.

(** The limit on int/str conversions is one the interpreter accepts: no
    limit, or one of at least the threshold. *)
Definition valid_max_str_digits (h : host) : Prop :=
  int_max_str_digits h = 0
  \/ PyInt.max_str_digits_threshold <= int_max_str_digits h.

(** The integer [n] is within the limit on int/str conversions: there is
    no limit, or [n] is below ten to the power of the limit in absolute
    value. *)
Definition within_max_str_digits (h : host) (n : Z) : Prop :=
  int_max_str_digits h = 0
  \/ (Z.abs n < 10 ^ Z.of_N (int_max_str_digits h))%Z.

(** The parse of a URL that has no [#], with its fragment replaced. *)
Definition with_fragment (t : str) (c : ParseResult) : ParseResult :=
  mkParseResult (scheme c) (netloc c) (path c) (params c) (query c) t.

(** [PWD] can be trusted on host [h] whose resolved working directory is
    [cwd]: it is set to [pwd], an absolute path that resolves, and to the
    same directory as [cwd]. *)
Definition pwd_trusted (h : host) (cwd : PosixPath) (pwd : str) : Prop :=
  environ h !! lit "PWD" = Some pwd
  /\ Pathlib.is_absolute (Path.of_str pwd) = true
  /\ exists r, Path.resolve h (Path.of_str pwd) = Ok r /\ parts r = parts cwd.

(** Resolving an absolute [PWD] on host [h] either succeeds or fails with
    an I/O error. *)
Definition pwd_fails_with_io_only (h : host) : Prop :=
  forall pwd e,
    environ h !! lit "PWD" = Some pwd ->
    Pathlib.is_absolute (Path.of_str pwd) = true ->
    Path.resolve h (Path.of_str pwd) = Raise e ->
    isinstance_IOError e = true.

(** A path has a root of one or two slashes, as every absolute path that
    [pathlib] builds has. *)
Definition rooted (p : PosixPath) : Prop :=
  root p = [Pathlib.slash] \/ root p = [Pathlib.slash; Pathlib.slash].

(** A name between separators that is a plain name: not empty, not a dot,
    not two dots, and without a separator. *)
Definition plain_name (x : str) : bool :=
  Pathlib.nonempty x && negb (Str.eqb x Pathlib.dot)
  && negb (Str.eqb x Pathlib.dotdot) && negb (Str.mem Pathlib.slash x).

(** An absolute path in lexical normal form: a root followed by plain
    names only. *)
Definition lexically_normal (p : PosixPath) : Prop :=
  rooted p /\ exists names, parts p = root p :: names /\ forallb plain_name names = true.

(** ** Statements about URLs and paths *)

(** A character of the path of a [file] URL as [Path.as_uri] writes it: a
    letter, a digit, one of [_ . - ~ /], or the percent sign of an escape. *)
Definition url_path_char (c : char) : bool := Codec.quote_safe c || (c =? 37).


(** A name as [pathlib] keeps it among the parts of a path: not empty, not
    a single dot, and without a separator. *)
Definition part_name (x : str) : bool :=
  Pathlib.nonempty x && negb (Str.eqb x Pathlib.dot) && negb (Str.mem Pathlib.slash x).

(** An absolute path as [pathlib] builds it: a root of one or two slashes,
    which is its first part, and names after it. *)
Definition absolute_path (p : PosixPath) : Prop :=
  rooted p /\ exists names, parts p = root p :: names /\ forallb part_name names = true.
















(** A scheme as [urlsplit] takes one from before the first colon: a
    letter, then letters, digits, [+], [-] and [.]. *)
Definition scheme_text (s : str) : bool :=
  match s with
  | c :: _ => Unicode.ascii_alpha c && forallb UrlParse.scheme_char s
  | [] => false
  end.

(** ** Hosts to run the functions on *)

(** Symbolic-link-free resolution below a working directory: a path is made
    absolute and normalised. *)
Definition plain_resolve (cwd : str) (p : PosixPath) : result PosixPath :=
  Ok (norm (if Pathlib.is_absolute p then p else Path.truediv (Path.of_str cwd) p)).

(** An address parser that knows the loopback addresses only. *)
Definition loopback_only (s : str) : option ip_version :=
  if Str.eqb s (lit "::1") then Some IPv6
  else if Str.eqb s (lit "127.0.0.1") then Some IPv4
  else None.

(** A POSIX host whose shell started the process in [/home/user/work]. *)
Definition posix_host : host :=
  mkHost Posix {[ lit "PWD" := lit "/home/user/work" ]} (Ok (lit "/home/user/work"))
    (plain_resolve (lit "/home/user/work")) loopback_only 4300.

(** A Windows host. *)
Definition windows_host : host :=
  mkHost NT ∅ (Ok (lit "C:\work")) (plain_resolve (lit "/")) loopback_only 4300.

(** A POSIX host whose [PWD] names a symbolic link to itself, which
    [Path.resolve] answers with [RuntimeError] ('Symlink loop from ...'). *)
Definition looping_host : host :=
  mkHost Posix {[ lit "PWD" := lit "/tmp/loop" ]} (Ok (lit "/home/user/work"))
    (fun p => if Pathlib.eqb p (Path.of_str (lit "/tmp/loop")) then Raise RuntimeError
              else plain_resolve (lit "/home/user/work") p)
    loopback_only 4300.

(** A POSIX host whose shell reached the working directory [/data/work]
    through the symbolic link [/home/user/link]. *)
Definition symlink_host : host :=
  mkHost Posix {[ lit "PWD" := lit "/home/user/link" ]} (Ok (lit "/data/work"))
    (fun p => if Pathlib.eqb p (Path.of_str (lit "/home/user/link"))
              then Ok (Path.of_str (lit "/data/work"))
              else plain_resolve (lit "/data/work") p)
    loopback_only 4300.
(** * Properties *)

(** ** Regular expressions *)

Lemma lang_cat (r1 r2 : Re.regex) (s : str) :
  Re.lang (Re.Cat r1 r2) s <->
  exists s1 s2, s = s1 ++ s2 /\ Re.lang r1 s1 /\ Re.lang r2 s2.
Proof.
  split.
  - inversion 1; subst. eauto.
  - intros (s1 & s2 & -> & H1 & H2). now constructor.
Qed.

Lemma lang_alt (r1 r2 : Re.regex) (s : str) :
  Re.lang (Re.Alt r1 r2) s <-> Re.lang r1 s \/ Re.lang r2 s.
Proof.
  split.
  - inversion 1; subst; auto.
  - intros [H|H]; [now apply Re.lang_alt_l | now apply Re.lang_alt_r].
Qed.

Lemma lang_class (p : char -> bool) (s : str) :
  Re.lang (Re.Class p) s <-> exists c, s = [c] /\ p c = true.
Proof.
  split.
  - inversion 1; subst. eauto.
  - intros (c & -> & H). now constructor.
Qed.

Lemma nullable_lang (r : Re.regex) : Re.nullable r = true <-> Re.lang r [].
Proof.
  induction r as [| |p|r1 IH1 r2 IH2|r1 IH1 r2 IH2|r IH]; simpl.
  - split; [discriminate | inversion 1].
  - split; [constructor | reflexivity].
  - split; [discriminate | inversion 1].
  - rewrite andb_true_iff, IH1, IH2, lang_cat. split.
    + intros [H1 H2]. now exists [], [].
    + intros (s1 & s2 & E & H1 & H2). symmetry in E.
      apply app_eq_nil in E as [-> ->]. now split.
  - now rewrite orb_true_iff, IH1, IH2, lang_alt.
  - split; [constructor | reflexivity].
Qed.

(** A non-empty match of a star starts with a non-empty match of its body. *)
Lemma lang_star_cons_inv (r : Re.regex) (c : char) (s : str) :
  Re.lang (Re.Star r) (c :: s) ->
  exists s1 s2, s = s1 ++ s2 /\ Re.lang r (c :: s1) /\ Re.lang (Re.Star r) s2.
Proof.
  intros H. remember (Re.Star r) as r' eqn:Er. remember (c :: s) as t eqn:Et.
  induction H as [| | | | | |r0 s1 s2 H1 _ H2 IH2]; try discriminate.
  injection Er as ->. destruct s1 as [|c1 s1].
  - simpl in Et. now apply IH2.
  - simpl in Et. injection Et as -> <-. now exists s1, s2.
Qed.

Lemma deriv_lang (r : Re.regex) (c : char) (s : str) :
  Re.lang (Re.deriv c r) s <-> Re.lang r (c :: s).
Proof.
  revert s. induction r as [| |p|r1 IH1 r2 IH2|r1 IH1 r2 IH2|r IH]; intros s; simpl.
  - split; inversion 1.
  - split; inversion 1.
  - rewrite lang_class. destruct (p c) eqn:Hp; split.
    + inversion 1; subst. now exists c.
    + intros (c' & E & _). injection E as <- ->. constructor.
    + inversion 1.
    + intros (c' & E & Hc). injection E as <- ->. congruence.
  - assert (Hcat : Re.lang (Re.Cat (Re.deriv c r1) r2) s <->
                   exists s1 s2, s = s1 ++ s2 /\ Re.lang r1 (c :: s1) /\ Re.lang r2 s2).
    { rewrite lang_cat. split; intros (s1 & s2 & E & H1 & H2); exists s1, s2;
        (split; [assumption|]); (split; [now apply IH1 | assumption]). }
    assert (Hinv : Re.lang (Re.Cat r1 r2) (c :: s) <->
                   (exists s1 s2, s = s1 ++ s2 /\ Re.lang r1 (c :: s1) /\ Re.lang r2 s2)
                   \/ (Re.lang r1 [] /\ Re.lang r2 (c :: s))).
    { rewrite lang_cat. split.
      - intros (s1 & s2 & E & H1 & H2). destruct s1 as [|c1 s1]; simpl in E.
        + right. subst s2. now split.
        + injection E as -> ->. left. now exists s1, s2.
      - intros [(s1 & s2 & -> & H1 & H2)|[H1 H2]].
        + now exists (c :: s1), s2.
        + now exists [], (c :: s). }
    rewrite Hinv. destruct (Re.nullable r1) eqn:Hn.
    + rewrite lang_alt, Hcat, IH2. apply nullable_lang in Hn. tauto.
    + rewrite Hcat. split; [tauto|]. intros [H|[H _]]; [assumption|].
      apply nullable_lang in H. congruence.
  - now rewrite !lang_alt, IH1, IH2.
  - rewrite lang_cat. split.
    + intros (s1 & s2 & -> & H1 & H2). apply IH in H1.
      change (c :: s1 ++ s2) with ((c :: s1) ++ s2). now constructor.
    + intros H. apply lang_star_cons_inv in H as (s1 & s2 & -> & H1 & H2).
      exists s1, s2. split; [reflexivity|]. split; [now apply IH | assumption].
Qed.

(** [match_prefix] decides whether a prefix of the string is in the language. *)
Lemma match_prefix_spec (r : Re.regex) (s : str) :
  Re.match_prefix r s = true <-> exists p q, s = p ++ q /\ Re.lang r p.
Proof.
  revert r. induction s as [|c s IH]; intros r; simpl.
  - rewrite orb_false_r, nullable_lang. split.
    + intros H. now exists [], [].
    + intros (p & q & E & H). symmetry in E. apply app_eq_nil in E as [-> _].
      assumption.
  - rewrite orb_true_iff, nullable_lang, IH. split.
    + intros [H|(p & q & -> & H)].
      * now exists [], (c :: s).
      * exists (c :: p), q. split; [reflexivity | now apply deriv_lang].
    + intros (p & q & E & H). destruct p as [|c' p]; [now left|].
      simpl in E. injection E as <- ->. right. exists p, q.
      split; [reflexivity | now apply deriv_lang].
Qed.

Lemma fullmatch_spec (r : Re.regex) (s : str) :
  Re.fullmatch r s = true <-> Re.lang r s.
Proof.
  revert r. induction s as [|c s IH]; intros r; simpl.
  - apply nullable_lang.
  - now rewrite IH, deriv_lang.
Qed.

Lemma lang_star_class (p : char -> bool) (s : str) :
  Re.lang (Re.Star (Re.Class p)) s <-> forallb p s = true.
Proof.
  split.
  - intros H. remember (Re.Star (Re.Class p)) as r eqn:Er.
    induction H as [| | | | | |r0 s1 s2 H1 _ H2 IH2]; try discriminate; [reflexivity|].
    injection Er as ->. apply lang_class in H1 as (c & -> & Hc). simpl.
    apply andb_true_iff. split; [assumption | now apply IH2].
  - induction s as [|c s IH]; simpl; intros H.
    + constructor.
    + apply andb_true_iff in H as [Hc Hs].
      change (c :: s) with ([c] ++ s). constructor; [now constructor | now apply IH].
Qed.

Lemma lang_chr (c : char) (s : str) : Re.lang (Re.Chr c) s <-> s = [c].
Proof.
  unfold Re.Chr. rewrite lang_class. split.
  - intros (c' & -> & Hc). apply N.eqb_eq in Hc. now subst.
  - intros ->. exists c. split; [reflexivity | apply N.eqb_refl].
Qed.

Lemma lang_plus_class (p : char -> bool) (s : str) :
  Re.lang (Re.Plus (Re.Class p)) s <-> s <> [] /\ forallb p s = true.
Proof.
  unfold Re.Plus. rewrite lang_cat. split.
  - intros (s1 & s2 & -> & H1 & H2). apply lang_class in H1 as (c & -> & Hc).
    split; [discriminate|]. simpl. apply andb_true_iff.
    split; [assumption | now apply lang_star_class].
  - intros [Hne H]. destruct s as [|c s]; [congruence|]. simpl in H.
    apply andb_true_iff in H as [Hc Hs]. exists [c], s.
    split; [reflexivity|]. split; [now constructor | now apply lang_star_class].
Qed.

(** ** The classifier *)

Lemma lang_url_pattern (cls : char -> bool) (p : str) :
  Re.lang
    (Re.Cat (Re.Star (Re.Class Unicode.isspace))
       (Re.Cat (Re.Plus (Re.Class cls))
          (Re.Cat (Re.Chr 58) (Re.Cat (Re.Chr 47) (Re.Chr 47))))) p
  <-> exists ws tok,
        p = ws ++ tok ++ lit "://"
        /\ forallb Unicode.isspace ws = true /\ tok <> [] /\ forallb cls tok = true.
Proof.
  split.
  - intros H.
    apply lang_cat in H as (ws & p1 & -> & Hws & H).
    apply lang_cat in H as (tok & p2 & -> & Htok & H).
    apply lang_cat in H as (a & p3 & -> & Ha & H).
    apply lang_cat in H as (b & c & -> & Hb & Hc).
    apply lang_chr in Ha, Hb, Hc. subst a b c.
    apply lang_star_class in Hws. apply lang_plus_class in Htok as [Hne Htok].
    now exists ws, tok.
  - intros (ws & tok & -> & Hws & Hne & Htok).
    apply lang_cat. exists ws, (tok ++ lit "://").
    split; [reflexivity|]. split; [now apply lang_star_class|].
    apply lang_cat. exists tok, (lit "://").
    split; [reflexivity|]. split; [now apply lang_plus_class|].
    apply lang_cat. exists [58], [47; 47].
    split; [reflexivity|]. split; [now apply lang_chr|].
    apply lang_cat. exists [47], [47].
    split; [reflexivity|]. split; now apply lang_chr.
Qed.

Lemma match_URL_RE (s : str) : Re.match_prefix URL_RE s = true <-> url_shaped s.
Proof.
  rewrite match_prefix_spec. unfold url_shaped, URL_RE. split.
  - intros (p & rest & -> & H). apply lang_url_pattern in H
      as (ws & tok & -> & Hws & Hne & Htok).
    exists ws, tok, rest. now rewrite <- !app_assoc.
  - intros (ws & tok & rest & -> & Hws & Hne & Htok).
    exists (ws ++ tok ++ lit "://"), rest. split.
    + now rewrite <- !app_assoc.
    + apply lang_url_pattern. now exists ws, tok.
Qed.

Lemma is_url_str (s : str) : is_url (VStr s) = Ok (Re.match_prefix URL_RE s).
Proof. reflexivity. Qed.

Lemma is_url_other (v : value) : (forall s, v <> VStr s) -> is_url v = Ok false.
Proof. destruct v as [| b | n | b | s | p]; intros H; [reflexivity .. | | reflexivity].
  now destruct (H s).
Qed.

Lemma is_url_total (v : value) : exists b, is_url v = Ok b.
Proof.
  destruct v; try (now exists false). rewrite is_url_str. eauto.
Qed.

(** Whatever follows [file://], the text is classified as a URL. *)
Lemma is_url_file (q : str) : is_url (VStr (lit "file://" ++ q)) = Ok true.
Proof.
  rewrite is_url_str. f_equal. apply match_URL_RE.
  exists [], (lit "file"), q.
  split; [reflexivity|]. split; [reflexivity|].
  split; [discriminate | vm_compute; reflexivity].
Qed.

(** C2 (as amended).  [is_url] answers true exactly for a [str] that, after
    any white space, has a non-empty run of characters of the class
    [[\w\d\+]] of [re] (Unicode alphanumerics, underscore, plus) followed by
    [://]; it never raises, and it answers false for every value that is not
    a [str]. *)
Theorem is_url_classifies (v : value) :
  (is_url v = Ok true <-> exists s, v = VStr s /\ url_shaped s)
  /\ (is_url v = Ok true \/ is_url v = Ok false)
  /\ ((forall s, v <> VStr s) -> is_url v = Ok false).
Proof.
  split; [|split].
  - split.
    + intros H. destruct v as [| b | n | b | s | p]; try discriminate.
      rewrite is_url_str in H. injection H as H.
      exists s. split; [reflexivity | now apply match_URL_RE].
    + intros (s & -> & H). rewrite is_url_str. f_equal. now apply match_URL_RE.
  - destruct (is_url_total v) as [[|] H]; auto.
  - apply is_url_other.
Qed.

(** C2, the counterexample: the string [é://] (U+00E9 is alphanumeric) is
    accepted by [is_url] although it does not match the pattern with the
    class [[A-Za-z0-9_+]]. *)
Lemma is_url_beyond_ascii_class :
  is_url (VStr [233; 58; 47; 47]) = Ok true
  /\ spec_is_locator (VStr [233; 58; 47; 47]) = false.
Proof. split; vm_compute; reflexivity. Qed.

(** The class of the specification lies within the class of the code. *)
Lemma spec_scheme_char_accepted (c : char) :
  spec_scheme_char c = true -> scheme_token_char c = true.
Proof.
  unfold spec_scheme_char, scheme_token_char, Unicode.isword, Unicode.isalnum,
    Unicode.in_ranges.
  intros H.
  assert (Hin : forall lo hi, In (lo, hi) Unicode.alnum_ranges ->
                  (lo <=? c) && (c <=? hi) = true ->
                  existsb (fun r => (fst r <=? c) && (c <=? snd r)) Unicode.alnum_ranges
                  = true).
  { intros lo hi Hr Hc. apply existsb_exists. now exists (lo, hi). }
  repeat (apply orb_true_iff in H as [H|H]).
  - rewrite (Hin 65 90); [reflexivity | right; left; reflexivity | exact H].
  - rewrite (Hin 97 122); [reflexivity | right; right; left; reflexivity | exact H].
  - rewrite (Hin 48 57); [reflexivity | left; reflexivity | exact H].
  - rewrite H. now rewrite !orb_true_r.
  - rewrite H. now rewrite !orb_true_r.
Qed.

(** What the pattern of the specification accepts, [is_url] accepts. *)
Lemma spec_is_locator_accepted (v : value) :
  spec_is_locator v = true -> is_url v = Ok true.
Proof.
  destruct v as [| b | n | b | s | p]; try discriminate. cbn [spec_is_locator].
  intros H. rewrite is_url_str. f_equal.
  apply match_prefix_spec in H as (p & rest & -> & H).
  apply lang_url_pattern in H as (ws & tok & -> & Hws & Hne & Htok).
  apply match_URL_RE. exists ws, tok, rest. rewrite <- !app_assoc.
  repeat (split; [assumption || reflexivity|]).
  rewrite forallb_forall in *. intros c Hc. now apply spec_scheme_char_accepted, Htok.
Qed.

(** ** Strings *)

Lemma mem_false_iff (c : char) (s : str) :
  Str.mem c s = false <-> ~ In c s.
Proof.
  unfold Str.mem. induction s as [|x s IH]; simpl.
  - tauto.
  - rewrite orb_false_iff, IH, N.eqb_neq. intuition congruence.
Qed.

Lemma mem_app (c : char) (a b : str) :
  Str.mem c (a ++ b) = Str.mem c a || Str.mem c b.
Proof. unfold Str.mem. apply existsb_app. Qed.

Lemma mem_filter (c : char) (p : char -> bool) (s : str) :
  Str.mem c s = false -> Str.mem c (List.filter p s) = false.
Proof.
  rewrite !mem_false_iff. intros H Hin. apply H.
  apply List.filter_In in Hin. tauto.
Qed.

Lemma lstrip_suffix (p : char -> bool) (s : str) :
  exists a, s = a ++ Str.lstrip p s.
Proof.
  induction s as [|c s [a IH]]; simpl.
  - now exists [].
  - destruct (p c).
    + exists (c :: a). simpl. now f_equal.
    + now exists [].
Qed.

Lemma mem_lstrip (c : char) (p : char -> bool) (s : str) :
  Str.mem c s = false -> Str.mem c (Str.lstrip p s) = false.
Proof.
  destruct (lstrip_suffix p s) as [a E]. rewrite E at 1. rewrite mem_app.
  now intros [_ H]%orb_false_iff.
Qed.

Lemma lstrip_app_stop (p : char -> bool) (a : str) (c : char) (t : str) :
  p c = false -> Str.lstrip p (a ++ c :: t) = Str.lstrip p a ++ c :: t.
Proof.
  intros Hc. induction a as [|x a IH]; simpl.
  - now rewrite Hc.
  - now destruct (p x).
Qed.

Lemma lstrip_stop (p : char -> bool) (c : char) (t : str) :
  p c = false -> Str.lstrip p (c :: t) = c :: t.
Proof. intros H. simpl. now rewrite H. Qed.

Lemma find_app_some (c : char) (a b : str) (i : nat) :
  Str.find c a = Some i -> Str.find c (a ++ b) = Some i /\ (i < length a)%nat.
Proof.
  revert i. induction a as [|x a IH]; simpl; intros i H; [discriminate|].
  destruct (x =? c).
  - injection H as <-. split; [reflexivity | lia].
  - destruct (Str.find c a) as [j|]; [|discriminate]. injection H as <-.
    destruct (IH j eq_refl) as [-> Hj]. split; [reflexivity | lia].
Qed.

Lemma find_none_iff (c : char) (s : str) :
  Str.find c s = None <-> Str.mem c s = false.
Proof.
  unfold Str.mem. induction s as [|x s IH]; simpl; [tauto|].
  rewrite (N.eqb_sym c x). destruct (x =? c); simpl.
  - split; discriminate.
  - rewrite <- IH. destruct (Str.find c s); simpl; split; congruence.
Qed.

Lemma break_app_stop (p : char -> bool) (a : str) (c : char) (t : str) :
  p c = true ->
  Str.break p (a ++ c :: t)
  = (fst (Str.break p a), snd (Str.break p a) ++ c :: t).
Proof.
  intros Hc. induction a as [|x a IH]; simpl.
  - now rewrite Hc.
  - destruct (p x); [reflexivity|]. rewrite IH.
    now destruct (Str.break p a).
Qed.

Lemma break_all (p : char -> bool) (s : str) :
  forallb (fun c => negb (p c)) s = true -> Str.break p s = (s, []).
Proof.
  induction s as [|x s IH]; simpl; [reflexivity|].
  intros [Hx Hs]%andb_true_iff. apply negb_true_iff in Hx. rewrite Hx.
  now rewrite (IH Hs).
Qed.

Lemma break_app (p : char -> bool) (s : str) :
  fst (Str.break p s) ++ snd (Str.break p s) = s.
Proof.
  induction s as [|x s IH]; simpl; [reflexivity|].
  destruct (p x); [reflexivity|]. destruct (Str.break p s); simpl in *.
  now f_equal.
Qed.

Lemma not_mem_forallb (c : char) (s : str) :
  Str.mem c s = false -> forallb (fun x => negb (c =? x)) s = true.
Proof.
  unfold Str.mem. induction s as [|x s IH]; simpl; [reflexivity|].
  intros [-> H]%orb_false_iff. simpl. now apply IH.
Qed.

(** Splitting at a character that first occurs where the second piece
    begins. *)
Lemma split1_app (c : char) (a t : str) :
  Str.mem c a = false -> Str.split1 c (a ++ c :: t) = Some (a, t).
Proof.
  intros H. unfold Str.split1.
  rewrite break_app_stop by apply N.eqb_refl.
  now rewrite (break_all _ _ (not_mem_forallb _ _ H)).
Qed.

Lemma split1_none (c : char) (s : str) :
  Str.mem c s = false -> Str.split1 c s = None.
Proof.
  intros H. unfold Str.split1.
  now rewrite (break_all _ _ (not_mem_forallb _ _ H)).
Qed.

Lemma split_none (c : char) (s : str) :
  Str.mem c s = false -> Str.split c s = [s].
Proof.
  unfold Str.mem. induction s as [|x s IH]; simpl; [reflexivity|].
  intros [Hx H]%orb_false_iff. rewrite N.eqb_sym in Hx. rewrite Hx.
  now rewrite (IH H).
Qed.

Lemma replace_none (a b : char) (s : str) :
  Str.mem a s = false -> Str.replace a b s = s.
Proof.
  unfold Str.mem, Str.replace. induction s as [|x s IH]; simpl; [reflexivity|].
  intros [Hx H]%orb_false_iff. rewrite N.eqb_sym in Hx. rewrite Hx.
  now rewrite (IH H).
Qed.

Lemma filter_all (p : char -> bool) (s : str) :
  forallb p s = true -> List.filter p s = s.
Proof.
  induction s as [|x s IH]; simpl; [reflexivity|].
  intros [-> H]%andb_true_iff. now rewrite (IH H).
Qed.

Lemma unquote_plain (s : str) : Str.mem 37 s = false -> Codec.unquote s = s.
Proof. intros H. unfold Codec.unquote. now rewrite H. Qed.

(** ** [urlsplit] on a URL followed by a fragment *)

Lemma mem_sanitize (c : char) (u : str) :
  Str.mem c u = false -> Str.mem c (UrlParse.sanitize u) = false.
Proof. intros H. unfold UrlParse.sanitize. now apply mem_filter, mem_lstrip. Qed.

Lemma mem_drop (c : char) (n : nat) (s : str) :
  Str.mem c s = false -> Str.mem c (drop n s) = false.
Proof.
  rewrite <- (take_drop n s) at 1. rewrite mem_app.
  now intros [_ H]%orb_false_iff.
Qed.

Lemma split_scheme_app (a b : str) :
  Str.mem 58 b = false ->
  UrlParse.split_scheme (a ++ b)
  = (fst (UrlParse.split_scheme a), snd (UrlParse.split_scheme a) ++ b).
Proof.
  intros Hb. unfold UrlParse.split_scheme.
  destruct (Str.find 58 a) as [i|] eqn:Hf.
  - destruct (find_app_some _ _ b _ Hf) as [-> Hi].
    destruct i as [|i]; [reflexivity|].
    destruct a as [|c0 a]; [simpl in Hi; lia|].
    rewrite take_app_le by (simpl in *; lia).
    rewrite drop_app_le by (simpl in *; lia).
    change ((c0 :: a) ++ b) with (c0 :: (a ++ b)). cbv iota.
    now destruct (Unicode.ascii_alpha c0 && forallb UrlParse.scheme_char (take (S i) (c0 :: a))).
  - assert (Hn : Str.find 58 (a ++ b) = None).
    { apply find_none_iff. rewrite mem_app. apply find_none_iff in Hf.
      now rewrite Hf, Hb. }
    now rewrite Hn.
Qed.

Lemma mem_split_scheme (c : char) (a : str) :
  Str.mem c a = false -> Str.mem c (snd (UrlParse.split_scheme a)) = false.
Proof.
  intros H. unfold UrlParse.split_scheme.
  destruct (Str.find 58 a) as [[|i]|]; try assumption.
  destruct a as [|c0 a]; [assumption|].
  destruct (_ && _); [|assumption]. now apply mem_drop.
Qed.

Lemma mem_split_authority (h : host) (c : char) (a nl r : str) :
  Str.mem c a = false ->
  UrlParse.split_authority h a = Ok (nl, r) -> Str.mem c r = false.
Proof.
  intros Ha. unfold UrlParse.split_authority.
  destruct (Str.startswith [47; 47] a).
  - unfold UrlParse.splitnetloc.
    pose proof (break_app UrlParse.netloc_delimiter (drop 2 a)) as E.
    destruct (Str.break UrlParse.netloc_delimiter (drop 2 a)) as [nl' r'].
    simpl in E. destruct (UrlParse.check_brackets h nl'); simpl; [|discriminate].
    intros [= <- <-]. apply (mem_drop c 2) in Ha. rewrite <- E, mem_app in Ha.
    now apply orb_false_iff in Ha.
  - now intros [= <- <-].
Qed.

Lemma cut_app (c : char) (a t : str) :
  Str.mem c a = false -> UrlParse.cut c (a ++ c :: t) = (a, t).
Proof. intros H. unfold UrlParse.cut. now rewrite split1_app. Qed.

Lemma cut_none (c : char) (a : str) :
  Str.mem c a = false -> UrlParse.cut c a = (a, []).
Proof. intros H. unfold UrlParse.cut. now rewrite split1_none. Qed.

Section Fragment.

(** A host, and the text [t] of a fragment: text that the first lines of
    [urlsplit] leave as it is, and without a colon. *)
Variable h : host.
Variable t : str.
Hypothesis t_safe : forallb (fun c => negb (UrlParse.unsafe_url_byte c)) t = true.
Hypothesis t_no_colon : Str.mem 58 t = false.

Lemma sanitize_app (u : str) :
  UrlParse.sanitize (u ++ 35 :: t) = UrlParse.sanitize u ++ 35 :: t.
Proof.
  unfold UrlParse.sanitize.
  rewrite lstrip_app_stop by reflexivity.
  rewrite List.filter_app. f_equal.
  change (List.filter ?p (35 :: t)) with (35 :: List.filter p t).
  now rewrite (filter_all _ _ t_safe).
Qed.

Lemma startswith_slashes_app (a : str) :
  Str.startswith [47; 47] (a ++ 35 :: t) = Str.startswith [47; 47] a.
Proof.
  destruct a as [|x [|y a]]; simpl; try reflexivity;
    try (now destruct (47 =? x)).
Qed.

Lemma split_authority_app (a : str) :
  UrlParse.split_authority h (a ++ 35 :: t)
  = bind (UrlParse.split_authority h a)
         (fun nu => Ok (fst nu, snd nu ++ 35 :: t)).
Proof.
  unfold UrlParse.split_authority. rewrite startswith_slashes_app.
  destruct (Str.startswith [47; 47] a) eqn:Hs; [|reflexivity].
  assert (Hlen : (2 <= length a)%nat).
  { destruct a as [|x [|y a]]; simpl in *; try discriminate; try lia;
      try (now rewrite andb_false_r in Hs). }
  unfold UrlParse.splitnetloc. rewrite drop_app_le by assumption.
  rewrite break_app_stop by reflexivity.
  destruct (Str.break UrlParse.netloc_delimiter (drop 2 a)) as [nl r]. simpl.
  now destruct (UrlParse.check_brackets h nl).
Qed.

Lemma urlsplit_fragment (u : str) :
  Str.mem 35 u = false ->
  UrlParse.urlsplit h (u ++ 35 :: t)
  = bind (UrlParse.urlsplit h u) (fun c => Ok (with_fragment t c)).
Proof.
  intros Hu. unfold UrlParse.urlsplit. rewrite sanitize_app.
  pose proof (mem_sanitize 35 u Hu) as Hu1.
  rewrite split_scheme_app by exact t_no_colon.
  pose proof (mem_split_scheme 35 _ Hu1) as Hrest.
  destruct (UrlParse.split_scheme (UrlParse.sanitize u)) as [sch rest].
  simpl fst in *; simpl snd in *. rewrite split_authority_app.
  destruct (UrlParse.split_authority h rest) as [[nl r]|e] eqn:Ha;
    cbn [bind fst snd]; [|reflexivity].
  pose proof (mem_split_authority h 35 _ _ _ Hrest Ha) as Hr.
  rewrite (cut_app 35 r t Hr), (cut_none 35 r Hr).
  destruct (UrlParse.cut 63 r) as [p q].
  now destruct (UrlParse.checknetloc nl).
Qed.

Lemma urlparse_fragment (u : str) :
  Str.mem 35 u = false ->
  UrlParse.urlparse h (u ++ 35 :: t)
  = bind (UrlParse.urlparse h u) (fun c => Ok (with_fragment t c)).
Proof.
  intros Hu. unfold UrlParse.urlparse. rewrite urlsplit_fragment by assumption.
  destruct (UrlParse.urlsplit h u) as [[sch nl p pa q f]|e]; [|reflexivity].
  cbn [bind with_fragment scheme netloc path params query fragment].
  destruct (existsb (Str.eqb sch) UrlParse.uses_params && Str.mem 59 p);
    [|reflexivity].
  now destruct (UrlParse.splitparams p).
Qed.

End Fragment.

(** ** Integers and their decimal text *)

Lemma digits_chars (d : Decimal.uint) :
  forallb Unicode.ascii_digit (PyInt.digits d) = true.
Proof. induction d; simpl; auto. Qed.

Lemma decimal_text_chars (n : Z) :
  forallb (fun c => Unicode.ascii_digit c || (c =? 45)) (PyInt.decimal_text n) = true.
Proof.
  assert (H : forall d, forallb (fun c => Unicode.ascii_digit c || (c =? 45))
                          (PyInt.digits d) = true).
  { intros d. pose proof (digits_chars d) as Hd. rewrite forallb_forall in *.
    intros c Hc. now rewrite (Hd c Hc). }
  unfold PyInt.decimal_text. destruct (Z.to_int n) as [d|d]; simpl; auto.
Qed.

(** A character that is neither a digit nor the minus sign does not occur
    in the decimal text of an integer. *)
Lemma decimal_text_mem (c : char) (n : Z) :
  Unicode.ascii_digit c || (c =? 45) = false -> Str.mem c (PyInt.decimal_text n) = false.
Proof.
  intros Hc. apply mem_false_iff. intros Hin.
  pose proof (decimal_text_chars n) as H. rewrite forallb_forall in H.
  specialize (H c Hin). congruence.
Qed.

Lemma to_int_nonnil (n : Z) :
  match Z.to_int n with Decimal.Pos d | Decimal.Neg d => d <> Decimal.Nil end.
Proof.
  destruct n; simpl; [discriminate | apply Unsigned.to_uint_nonnil ..].
Qed.

Lemma digits_nonnil (d : Decimal.uint) :
  d <> Decimal.Nil ->
  PyInt.digits d <> []
  /\ Str.lstrip PyInt.ascii_space (PyInt.digits d) = PyInt.digits d
  /\ PyInt.split_sign (PyInt.digits d) = (false, PyInt.digits d).
Proof. destruct d; [congruence | repeat split; discriminate ..]. Qed.

Lemma decimal_text_nonempty (n : Z) : PyInt.decimal_text n <> [].
Proof.
  unfold PyInt.decimal_text. pose proof (to_int_nonnil n) as H.
  destruct (Z.to_int n) as [d|d]; [now apply digits_nonnil | discriminate].
Qed.

Lemma horner_pos (d : Decimal.uint) (acc : positive) :
  PyInt.horner d (N.pos acc) = N.pos (Pos.of_uint_acc d acc).
Proof.
  revert acc. induction d as [|d IH|d IH|d IH|d IH|d IH|d IH|d IH|d IH|d IH|d IH];
    intros acc; simpl; [reflexivity | ..]; rewrite <- IH; f_equal; lia.
Qed.

Lemma horner_zero (d : Decimal.uint) : PyInt.horner d 0 = Pos.of_uint d.
Proof.
  induction d; simpl; [reflexivity | assumption | apply horner_pos ..].
Qed.

Lemma scan_digits_after (d : Decimal.uint) (acc : N) (p : char) :
  p <> 95 ->
  PyInt.scan_digits (PyInt.digits d) acc (Some p) = Some (PyInt.horner d acc, []).
Proof.
  revert acc p. induction d as [|d IH|d IH|d IH|d IH|d IH|d IH|d IH|d IH|d IH|d IH];
    intros acc p Hp; simpl.
  1: { apply N.eqb_neq in Hp. now rewrite Hp. }
  all: rewrite IH by discriminate; repeat f_equal; lia.
Qed.

Lemma scan_digits_start (d : Decimal.uint) :
  d <> Decimal.Nil ->
  PyInt.scan_digits (PyInt.digits d) 0 None = Some (Pos.of_uint d, []).
Proof.
  intros Hd. rewrite <- horner_zero.
  destruct d; [congruence | ..]; simpl;
    rewrite scan_digits_after by discriminate; reflexivity.
Qed.

Lemma isascii_decimal_text (n : Z) : Str.isascii (PyInt.decimal_text n) = true.
Proof.
  unfold Str.isascii. pose proof (decimal_text_chars n) as H.
  rewrite forallb_forall in *. intros c Hc. specialize (H c Hc).
  unfold Unicode.ascii_digit in H. apply N.ltb_lt.
  apply orb_true_iff in H as [H|H].
  - apply andb_true_iff in H as [_ H]. apply N.leb_le in H. lia.
  - apply N.eqb_eq in H. lia.
Qed.

Lemma exceeds_max_str_digits_le (h : host) (len len' k : N) :
  len' <= len ->
  PyInt.exceeds_max_str_digits h len k = false ->
  PyInt.exceeds_max_str_digits h len' k = false.
Proof.
  unfold PyInt.exceeds_max_str_digits. rewrite !andb_false_iff, !N.ltb_ge. lia.
Qed.

Lemma count_digits_digits (d : Decimal.uint) (r : str) :
  match r with
  | c :: _ => Unicode.ascii_digit c = false /\ c <> 95
  | [] => True
  end ->
  PyInt.count_digits (PyInt.digits d ++ r) = N.of_nat (length (PyInt.digits d)).
Proof.
  intros Hr.
  induction d as [|d IH|d IH|d IH|d IH|d IH|d IH|d IH|d IH|d IH|d IH];
    cbn [PyInt.digits app length]; [|cbn [PyInt.count_digits]; cbn; rewrite IH; lia ..].
  destruct r as [|c r]; [reflexivity|]. destruct Hr as [Hc Hu].
  apply N.eqb_neq in Hu. cbn [PyInt.count_digits]. now rewrite Hc, Hu.
Qed.

(** The value of a digit string lies between its start value and the next
    one, each followed by as many zeros as the string has digits. *)
Lemma horner_bounds (d : Decimal.uint) (acc : N) :
  acc * 10 ^ N.of_nat (length (PyInt.digits d)) <= PyInt.horner d acc
  /\ PyInt.horner d acc < (acc + 1) * 10 ^ N.of_nat (length (PyInt.digits d)).
Proof.
  revert acc. induction d as [|d IH|d IH|d IH|d IH|d IH|d IH|d IH|d IH|d IH|d IH];
    intros acc; cbn [PyInt.digits length PyInt.horner];
    [change (10 ^ N.of_nat 0) with 1; lia|..];
    rewrite Nat2N.inj_succ, N.pow_succ_r';
    match goal with
    | |- _ <= PyInt.horner _ ?a /\ _ => destruct (IH a) as [Hlo Hhi]
    end;
    split; nia.
Qed.

(** The decimal text of a positive number does not begin with a zero. *)
Lemma to_uint_no_leading_zero (p : positive) (d : Decimal.uint) :
  Pos.to_uint p <> Decimal.D0 d.
Proof.
  intros E.
  assert (Hn : Pos.to_uint p = Decimal.unorm (Pos.to_uint p)).
  { rewrite <- DecimalPos.Unsigned.to_of, DecimalPos.Unsigned.of_to. reflexivity. }
  unfold Decimal.unorm in Hn.
  destruct (Decimal.nzhead (Pos.to_uint p)) eqn:Hz.
  - now apply (DecimalPos.Unsigned.to_uint_nonzero p).
  - now apply (DecimalFacts.nzhead_nonzero (Pos.to_uint p) u).
  - rewrite E in Hn. discriminate.
  - rewrite E in Hn. discriminate.
  - rewrite E in Hn. discriminate.
  - rewrite E in Hn. discriminate.
  - rewrite E in Hn. discriminate.
  - rewrite E in Hn. discriminate.
  - rewrite E in Hn. discriminate.
  - rewrite E in Hn. discriminate.
  - rewrite E in Hn. discriminate.
Qed.

(** The number of digits of the decimal text of [n]. *)
Lemma decimal_text_digits (n : Z) :
  exists d,
    d <> Decimal.Nil
    /\ (forall d', d <> Decimal.D0 d' \/ d = Decimal.D0 Decimal.Nil)
    /\ Z.of_N (Pos.of_uint d) = Z.abs n
    /\ PyInt.decimal_text n = (if (n <? 0)%Z then [45] else []) ++ PyInt.digits d.
Proof.
  unfold PyInt.decimal_text. pose proof (to_int_nonnil n) as Hd.
  pose proof (DecimalZ.of_to n) as Hn.
  destruct n as [|p|p]; cbn [Z.to_int] in *; unfold Z.of_int, Z.of_uint in Hn.
  - exists (Decimal.D0 Decimal.Nil). split; [discriminate|]. split; [now right|].
    split; reflexivity.
  - exists (Pos.to_uint p). split; [assumption|].
    split; [intros d'; left; apply to_uint_no_leading_zero|].
    split; [cbn [Z.abs]; exact Hn | reflexivity].
  - exists (Pos.to_uint p). split; [assumption|].
    split; [intros d'; left; apply to_uint_no_leading_zero|].
    split; [cbn [Z.abs]; lia | reflexivity].
Qed.

Lemma isascii_digits (d : Decimal.uint) : Str.isascii (PyInt.digits d) = true.
Proof.
  unfold Str.isascii. pose proof (digits_chars d) as H.
  rewrite forallb_forall in *. intros c Hc. specialize (H c Hc).
  unfold Unicode.ascii_digit in H. apply N.ltb_lt.
  apply andb_true_iff in H as [_ H]. apply N.leb_le in H. lia.
Qed.

(** [int] on a sign and digits: the number, unless the digits are more
    than the limit allows. *)
Lemma int_signed_digits (h : host) (negative : bool) (d : Decimal.uint) :
  d <> Decimal.Nil ->
  PyInt.int h ((if negative then [45] else []) ++ PyInt.digits d)
  = if PyInt.exceeds_max_str_digits h (N.of_nat (length (PyInt.digits d)))
         (N.of_nat (length (PyInt.digits d)))
    then Raise (ValueError ExceedsIntMaxStrDigits)
    else Ok (if negative then (- Z.of_N (Pos.of_uint d))%Z else Z.of_N (Pos.of_uint d)).
Proof.
  intros Hd. unfold PyInt.int, PyInt.to_ascii_decimal.
  assert (Ha : Str.isascii ((if negative then [45] else []) ++ PyInt.digits d) = true).
  { unfold Str.isascii. rewrite forallb_app. fold (Str.isascii (PyInt.digits d)).
    rewrite isascii_digits. now destruct negative. }
  rewrite Ha. pose proof (count_digits_digits d [] I) as Hc. rewrite app_nil_r in Hc.
  destruct (digits_nonnil d Hd) as (_ & Hl & Hs).
  destruct negative; cbn [app].
  - change (Str.lstrip PyInt.ascii_space (45 :: PyInt.digits d))
      with (45 :: PyInt.digits d).
    cbn [PyInt.split_sign]. rewrite (scan_digits_start d Hd), Hc.
    now destruct (PyInt.exceeds_max_str_digits h _ _).
  - rewrite Hl, Hs, (scan_digits_start d Hd), Hc.
    now destruct (PyInt.exceeds_max_str_digits h _ _).
Qed.

(** What ['{:d}'.format] returns is the decimal text, which [int] reads
    back. *)
Lemma format_d_ok (h : host) (n : Z) (s : str) :
  PyInt.format_d h n = Ok s ->
  s = PyInt.decimal_text n /\ PyInt.int h s = Ok n.
Proof.
  unfold PyInt.format_d.
  destruct (PyInt.exceeds_max_str_digits h _ _) eqn:E; [discriminate|].
  intros [= <-]. split; [reflexivity|].
  destruct (decimal_text_digits n) as (d & Hd & _ & Hv & Ht). rewrite Ht in *.
  rewrite (int_signed_digits h (n <? 0)%Z d Hd).
  replace (PyInt.exceeds_max_str_digits h (N.of_nat (length (PyInt.digits d)))
             (N.of_nat (length (PyInt.digits d)))) with false.
  - rewrite Hv. f_equal. destruct (n <? 0)%Z eqn:Hn; [apply Z.ltb_lt in Hn | apply Z.ltb_ge in Hn]; lia.
  - symmetry. destruct (n <? 0)%Z; cbn [app length] in E.
    + apply (exceeds_max_str_digits_le h _ _ _ (N.le_refl _)).
      replace (N.of_nat (S (length (PyInt.digits d))) - 1)
        with (N.of_nat (length (PyInt.digits d))) in E by lia.
      revert E. apply exceeds_max_str_digits_le. lia.
    + exact E.
Qed.

(** Reading back the decimal text of an integer gives the integer, when
    the text is within the limit. *)
Lemma int_decimal_text (h : host) (n : Z) :
  PyInt.format_d h n = Ok (PyInt.decimal_text n) ->
  PyInt.int h (PyInt.decimal_text n) = Ok n.
Proof. intros H. now apply format_d_ok in H. Qed.

(** The decimal text of an integer determines it. *)
Lemma decimal_text_injective (n m : Z) :
  PyInt.decimal_text n = PyInt.decimal_text m -> n = m.
Proof.
  intros H.
  destruct (decimal_text_digits n) as (d & Hd & _ & Hv & Ht).
  destruct (decimal_text_digits m) as (d' & Hd' & _ & Hv' & Ht').
  rewrite Ht, Ht' in H.
  assert (Hfirst : forall x, PyInt.digits x <> 45 :: PyInt.digits d
                             /\ PyInt.digits x <> 45 :: PyInt.digits d').
  { intros x. pose proof (digits_chars x) as Hx.
    split; intros E; rewrite E in Hx; discriminate. }
  assert (Hinj : forall x y, PyInt.digits x = PyInt.digits y -> x = y).
  { induction x as [|x IH|x IH|x IH|x IH|x IH|x IH|x IH|x IH|x IH|x IH];
      intros y; destruct y; cbn [PyInt.digits]; try discriminate;
      intros E; [reflexivity | injection E as E; f_equal; now apply IH ..]. }
  destruct (n <? 0)%Z eqn:Hn, (m <? 0)%Z eqn:Hm; cbn [app] in H.
  - injection H as H. apply Hinj in H. subst d'. apply Z.ltb_lt in Hn, Hm. lia.
  - symmetry in H. now apply Hfirst in H.
  - now apply Hfirst in H.
  - apply Hinj in H. subst d'. apply Z.ltb_ge in Hn, Hm. lia.
Qed.

Lemma within_max_str_digits_length (h : host) (n : Z) (d : Decimal.uint) :
  1 <= int_max_str_digits h ->
  d <> Decimal.Nil -> (forall d', d <> Decimal.D0 d' \/ d = Decimal.D0 Decimal.Nil) ->
  Z.of_N (Pos.of_uint d) = Z.abs n ->
  ((Z.abs n < 10 ^ Z.of_N (int_max_str_digits h))%Z
   <-> N.of_nat (length (PyInt.digits d)) <= int_max_str_digits h).
Proof.
  intros Hm Hd Hz Hv. rewrite <- Hv, <- horner_zero.
  change 10%Z with (Z.of_N 10). rewrite <- N2Z.inj_pow, <- N2Z.inj_lt.
  set (L := N.of_nat (length (PyInt.digits d))). set (M := int_max_str_digits h) in *.
  split.
  - intros Hlt. destruct (N.le_gt_cases L M) as [|Hgt]; [assumption|]. exfalso.
    assert (Hlow : 10 ^ (L - 1) <= PyInt.horner d 0).
    { subst L.
      destruct d as [|d|d|d|d|d|d|d|d|d|d]; [congruence | | ..].
      - destruct (Hz d) as [E | E]; [congruence|]. injection E as ->.
        cbn in Hgt. lia.
      - cbn [PyInt.digits length PyInt.horner].
        replace (N.of_nat (S (length (PyInt.digits d))) - 1)
          with (N.of_nat (length (PyInt.digits d))) by lia.
        destruct (horner_bounds d (10 * 0 + 1)) as [Hlo _]. nia.
      - cbn [PyInt.digits length PyInt.horner].
        replace (N.of_nat (S (length (PyInt.digits d))) - 1)
          with (N.of_nat (length (PyInt.digits d))) by lia.
        destruct (horner_bounds d (10 * 0 + 2)) as [Hlo _]. nia.
      - cbn [PyInt.digits length PyInt.horner].
        replace (N.of_nat (S (length (PyInt.digits d))) - 1)
          with (N.of_nat (length (PyInt.digits d))) by lia.
        destruct (horner_bounds d (10 * 0 + 3)) as [Hlo _]. nia.
      - cbn [PyInt.digits length PyInt.horner].
        replace (N.of_nat (S (length (PyInt.digits d))) - 1)
          with (N.of_nat (length (PyInt.digits d))) by lia.
        destruct (horner_bounds d (10 * 0 + 4)) as [Hlo _]. nia.
      - cbn [PyInt.digits length PyInt.horner].
        replace (N.of_nat (S (length (PyInt.digits d))) - 1)
          with (N.of_nat (length (PyInt.digits d))) by lia.
        destruct (horner_bounds d (10 * 0 + 5)) as [Hlo _]. nia.
      - cbn [PyInt.digits length PyInt.horner].
        replace (N.of_nat (S (length (PyInt.digits d))) - 1)
          with (N.of_nat (length (PyInt.digits d))) by lia.
        destruct (horner_bounds d (10 * 0 + 6)) as [Hlo _]. nia.
      - cbn [PyInt.digits length PyInt.horner].
        replace (N.of_nat (S (length (PyInt.digits d))) - 1)
          with (N.of_nat (length (PyInt.digits d))) by lia.
        destruct (horner_bounds d (10 * 0 + 7)) as [Hlo _]. nia.
      - cbn [PyInt.digits length PyInt.horner].
        replace (N.of_nat (S (length (PyInt.digits d))) - 1)
          with (N.of_nat (length (PyInt.digits d))) by lia.
        destruct (horner_bounds d (10 * 0 + 8)) as [Hlo _]. nia.
      - cbn [PyInt.digits length PyInt.horner].
        replace (N.of_nat (S (length (PyInt.digits d))) - 1)
          with (N.of_nat (length (PyInt.digits d))) by lia.
        destruct (horner_bounds d (10 * 0 + 9)) as [Hlo _]. nia. }
    pose proof (N.pow_le_mono_r 10 M (L - 1) ltac:(lia) ltac:(lia)). lia.
  - intros HL. destruct (horner_bounds d 0) as [_ Hhi]. fold L in Hhi.
    pose proof (N.pow_le_mono_r 10 L M ltac:(lia) HL). lia.
Qed.

(** Within the limit ['{:d}'.format] returns the decimal text. *)
Lemma format_d_within (h : host) (n : Z) :
  valid_max_str_digits h -> within_max_str_digits h n ->
  PyInt.format_d h n = Ok (PyInt.decimal_text n).
Proof.
  intros Hvalid Hin. unfold PyInt.format_d.
  replace (PyInt.exceeds_max_str_digits h _ _) with false; [reflexivity|].
  symmetry. unfold PyInt.exceeds_max_str_digits.
  destruct Hin as [H0 | Hlt];
    [rewrite H0; change (0 <? 0) with false; now rewrite andb_false_r|].
  destruct Hvalid as [H0 | Hge];
    [rewrite H0; change (0 <? 0) with false; now rewrite andb_false_r|].
  unfold PyInt.max_str_digits_threshold in Hge.
  destruct (decimal_text_digits n) as (d & Hd & Hz & Hv & Ht).
  apply (within_max_str_digits_length h n d ltac:(lia) Hd Hz Hv) in Hlt.
  rewrite Ht. apply andb_false_iff. right. apply N.ltb_ge.
  destruct (n <? 0)%Z; cbn [app length]; lia.
Qed.

(** Beyond the limit ['{:d}'.format] raises [ValueError]. *)
Lemma format_d_beyond (h : host) (n : Z) :
  valid_max_str_digits h -> ~ within_max_str_digits h n ->
  PyInt.format_d h n = Raise (ValueError ExceedsIntMaxStrDigits).
Proof.
  intros Hvalid Hout. unfold PyInt.format_d.
  replace (PyInt.exceeds_max_str_digits h _ _) with true; [reflexivity|].
  symmetry. unfold PyInt.exceeds_max_str_digits.
  destruct Hvalid as [H0 | Hge]; [exfalso; apply Hout; now left|].
  unfold PyInt.max_str_digits_threshold in *.
  destruct (decimal_text_digits n) as (d & Hd & Hz & Hv & Ht).
  assert (Hlen : int_max_str_digits h < N.of_nat (length (PyInt.digits d))).
  { apply N.lt_nge. intros Hle.
    apply (within_max_str_digits_length h n d ltac:(lia) Hd Hz Hv) in Hle.
    apply Hout. now right. }
  rewrite Ht. rewrite !andb_true_iff, !N.ltb_lt.
  destruct (n <? 0)%Z; cbn [app length]; lia.
Qed.

(** ** The part codec *)

Lemma parse_qsl_part (raw : str) :
  raw <> [] ->
  Str.mem 38 raw = false -> Str.mem 43 raw = false -> Str.mem 37 raw = false ->
  UrlParse.parse_qsl (lit "part=" ++ raw) = [(lit "part", raw)].
Proof.
  intros Hne Hamp Hplus Hpct. unfold UrlParse.parse_qsl.
  change (Pathlib.nonempty (lit "part=" ++ raw)) with true. cbv iota.
  rewrite split_none by exact Hamp. cbn [flat_map]. rewrite app_nil_r.
  unfold UrlParse.parse_field.
  change (lit "part=" ++ raw) with (lit "part" ++ 61 :: raw).
  rewrite split1_app by reflexivity.
  destruct raw as [|x raw]; [congruence|]. cbn [Pathlib.nonempty].
  rewrite (replace_none 43 32 (x :: raw)) by assumption.
  rewrite (unquote_plain (x :: raw)) by assumption.
  reflexivity.
Qed.

Lemma dict_single (k v : str) : dict [(k, v)] !! k = Some v.
Proof. unfold dict. cbn [fold_left fst snd]. apply lookup_insert_eq. Qed.

(** [int] raises nothing but [ValueError]. *)
Lemma int_raises (h : host) (s : str) (e : exn) :
  PyInt.int h s = Raise e -> isinstance_ValueError e = true.
Proof.
  unfold PyInt.int. destruct (PyInt.to_ascii_decimal s) as [t|]; [|now intros [= <-]].
  destruct (PyInt.split_sign _) as [negative t'].
  destruct (PyInt.scan_digits t' 0 None) as [[v rest]|]; [|now intros [= <-]].
  destruct (PyInt.exceeds_max_str_digits h _ _); [now intros [= <-]|].
  destruct (Str.lstrip PyInt.ascii_space rest); [discriminate | now intros [= <-]].
Qed.

Lemma maybe_int_text (h : host) (s : str) :
  PyInt.parse h s = None -> maybe_int h (Some s) = Ok (VStr s).
Proof.
  unfold maybe_int, PyInt.parse.
  destruct (PyInt.int h s) as [n|e] eqn:E; [discriminate|]. intros _.
  cbn [bind try_except]. now rewrite (int_raises h s e E).
Qed.

Lemma maybe_int_number (h : host) (s : str) (n : Z) :
  PyInt.parse h s = Some n -> maybe_int h (Some s) = Ok (VInt n).
Proof.
  unfold maybe_int, PyInt.parse.
  destruct (PyInt.int h s) as [m|e]; [|discriminate]. now intros [= ->].
Qed.

Lemma maybe_int_total (h : host) (v : option str) : exists r, maybe_int h v = Ok r.
Proof.
  destruct v as [s|]; [|now exists VNone].
  destruct (PyInt.parse h s) as [n|] eqn:E.
  - exists (VInt n). now apply maybe_int_number.
  - exists (VStr s). now apply maybe_int_text.
Qed.

(** [get_part_from_uri] raises only what parsing the URL raises. *)
Lemma get_part_from_uri_raises (h : host) (uri : str) (e : exn) :
  get_part_from_uri h uri = Raise e <-> UrlParse.urlparse h uri = Raise e.
Proof.
  unfold get_part_from_uri. destruct (UrlParse.urlparse h uri) as [c|e']; simpl.
  - destruct (maybe_int_total h (dict (UrlParse.parse_qsl (fragment c)) !! lit "part"))
      as [r ->]. split; discriminate.
  - split; intros [= ->]; reflexivity.
Qed.

(** Reading the part of a locator that ends in the decimal text of an
    integer which [int] reads back. *)
Lemma get_part_from_uri_decimal_text (h : host) (u : str) (n : Z) :
  Str.mem 35 u = false ->
  PyInt.int h (PyInt.decimal_text n) = Ok n ->
  get_part_from_uri h (u ++ lit "#part=" ++ PyInt.decimal_text n)
  = let* _ := UrlParse.urlparse h u in Ok (VInt n).
Proof.
  intros Hu Hint. unfold get_part_from_uri.
  change (u ++ lit "#part=" ++ PyInt.decimal_text n)
    with (u ++ 35 :: (lit "part=" ++ PyInt.decimal_text n)).
  assert (Hdigit : forall c, In c (PyInt.decimal_text n) ->
                     Unicode.ascii_digit c || (c =? 45) = true).
  { apply forallb_forall, decimal_text_chars. }
  rewrite urlparse_fragment; [| |apply (decimal_text_mem 58 n); reflexivity|assumption].
  - destruct (UrlParse.urlparse h u) as [c|e]; [|reflexivity].
    cbn [bind with_fragment fragment].
    rewrite parse_qsl_part by
      (apply decimal_text_nonempty || (apply decimal_text_mem; reflexivity)).
    rewrite dict_single. unfold maybe_int. now rewrite Hint.
  - change (lit "part=" ++ PyInt.decimal_text n)
      with (112 :: 97 :: 114 :: 116 :: 61 :: PyInt.decimal_text n).
    cbn [forallb]. apply forallb_forall. intros c Hc. specialize (Hdigit c Hc).
    unfold UrlParse.unsafe_url_byte, Unicode.ascii_digit in *.
    apply orb_true_iff in Hdigit as [H|H].
    + apply andb_true_iff in H as [H _]. apply N.leb_le in H.
      apply negb_true_iff. rewrite !orb_false_iff, !N.eqb_neq. lia.
    + apply N.eqb_eq in H. now subst c.
Qed.

(** What [mk_part_uri] returns, when it returns: the locator, [#part=] and
    the decimal text of the index, which [int] reads back. *)
Lemma mk_part_uri_ok (h : host) (u : str) (n : Z) (r : str) :
  mk_part_uri h u n = Ok r ->
  r = u ++ lit "#part=" ++ PyInt.decimal_text n
  /\ PyInt.int h (PyInt.decimal_text n) = Ok n.
Proof.
  unfold mk_part_uri. destruct (PyInt.format_d h n) as [s|e] eqn:E; [|discriminate].
  cbn [bind]. intros [= <-]. apply format_d_ok in E as [-> E]. now split.
Qed.

(** C1 (as amended).  On a host whose limit on int/str conversions is one
    the interpreter accepts, for a locator [u] without [#]: when the
    integer [n] is within the limit, [mk_part_uri] returns a locator whose
    part reads back as [n] whenever the URL parser accepts [u], and
    reading it raises the parser's exception when the parser rejects [u];
    when [n] is beyond the limit, [mk_part_uri] raises [ValueError]. *)
Theorem part_round_trip (h : host) (u : str) (n : Z) :
  Str.mem 35 u = false -> valid_max_str_digits h ->
  (within_max_str_digits h n ->
     exists r,
       mk_part_uri h u n = Ok r
       /\ get_part_from_uri h r = let* _ := UrlParse.urlparse h u in Ok (VInt n))
  /\ (~ within_max_str_digits h n ->
      mk_part_uri h u n = Raise (ValueError ExceedsIntMaxStrDigits)).
Proof.
  intros Hu Hvalid. split.
  - intros Hin. pose proof (format_d_within h n Hvalid Hin) as Hf.
    exists (u ++ lit "#part=" ++ PyInt.decimal_text n). split.
    + unfold mk_part_uri. now rewrite Hf.
    + apply get_part_from_uri_decimal_text; [assumption|].
      now apply int_decimal_text.
  - intros Hout. unfold mk_part_uri. now rewrite (format_d_beyond h n Hvalid Hout).
Qed.

(** C1, the witness: the part [-3] of a file URL. *)
Lemma part_round_trip_witness :
  exists r,
    mk_part_uri posix_host (lit "file:///data/scene.nc") (-3) = Ok r
    /\ get_part_from_uri posix_host r = Ok (VInt (-3)).
Proof.
  refine (proj1 (part_round_trip posix_host (lit "file:///data/scene.nc") (-3)
                   eq_refl _) _).
  - right. vm_compute. discriminate.
  - right. vm_compute. reflexivity.
Defined.

(** C1, the counterexample: a locator ([is_url] accepts it) without [#]
    whose network location opens a bracket and does not close it; the URL
    parser refuses the locator with the part appended ('Invalid IPv6 URL'). *)
Lemma part_round_trip_unparsable :
  is_url (VStr (lit "http://[::1")) = Ok true
  /\ Str.mem 35 (lit "http://[::1") = false
  /\ mk_part_uri posix_host (lit "http://[::1") 7 = Ok (lit "http://[::1#part=7")
  /\ get_part_from_uri posix_host (lit "http://[::1#part=7")
     = Raise (ValueError InvalidIPv6URL).
Proof. repeat split; vm_compute; reflexivity. Qed.

(** What [get_part_from_uri] returns of a locator that parses. *)
Lemma get_part_from_uri_value (h : host) (u : str) (c : ParseResult) :
  UrlParse.urlparse h u = Ok c ->
  get_part_from_uri h u
  = maybe_int h (dict (UrlParse.parse_qsl (fragment c)) !! lit "part").
Proof. intros Hc. unfold get_part_from_uri. now rewrite Hc. Qed.

(** C5 (as amended).  When the URL parser accepts the locator,
    [get_part_from_uri] returns a value; and when the fragment is
    [part=<value>] with a non-empty [<value>] that has no [&], [+] or [%]
    and is not the text of an integer, it returns that value as it stands. *)
Theorem get_part_text (h : host) (u : str) (c : ParseResult) :
  UrlParse.urlparse h u = Ok c ->
  (exists v, get_part_from_uri h u = Ok v)
  /\ (forall raw,
        fragment c = lit "part=" ++ raw ->
        raw <> [] ->
        Str.mem 38 raw = false -> Str.mem 43 raw = false -> Str.mem 37 raw = false ->
        PyInt.parse h raw = None ->
        get_part_from_uri h u = Ok (VStr raw)).
Proof.
  intros Hc. unfold get_part_from_uri. rewrite Hc. cbn [bind]. split.
  - apply maybe_int_total.
  - intros raw -> Hne Hamp Hplus Hpct Hint.
    rewrite parse_qsl_part by assumption. rewrite dict_single.
    now apply maybe_int_text.
Qed.

(** C5, the witness: the part [blue] of a file URL. *)
Lemma get_part_text_witness :
  get_part_from_uri posix_host (lit "file:///data/scene.nc#part=blue")
  = Ok (VStr (lit "blue")).
Proof.
  exact (proj2 (get_part_text posix_host (lit "file:///data/scene.nc#part=blue")
                  _ eq_refl)
           (lit "blue") eq_refl ltac:(discriminate) eq_refl eq_refl eq_refl eq_refl).
Defined.

(** C5, the counterexample: the value [a+b] is not the text of an integer,
    and what is returned is [a b]: the value goes through the decoding of
    query strings, which turns a plus sign into a blank. *)
Lemma get_part_text_decoded :
  PyInt.parse posix_host (lit "a+b") = None
  /\ get_part_from_uri posix_host (lit "file:///x#part=a+b") = Ok (VStr (lit "a b")).
Proof. split; vm_compute; reflexivity. Qed.

(** ** From a file URL to a path *)

Lemma str_eqb_true (s t : str) : Str.eqb s t = true <-> s = t.
Proof. unfold Str.eqb. apply bool_decide_eq_true. Qed.

Lemma str_eqb_false (s t : str) : Str.eqb s t = false <-> s <> t.
Proof. unfold Str.eqb. apply bool_decide_eq_false. Qed.

Lemma nonempty_true (s : str) : Pathlib.nonempty s = true <-> s <> [].
Proof. destruct s; simpl; split; congruence. Qed.


(** C8.  [uri_to_local_path] returns [None], and does not raise, for [None]
    and for the empty string. *)
Theorem uri_to_local_path_absent (h : host) :
  uri_to_local_path h None = Ok None /\ uri_to_local_path h (Some []) = Ok None.
Proof. split; reflexivity. Qed.

(** C4 (as amended).  For a non-empty locator: an exception of the URL
    parser is passed on; when the locator parses, a scheme other than
    [file] is refused, a network location is refused on a POSIX host and
    gives the path [//<netloc><path>] on a Windows host, and otherwise the
    decoded path is returned; on a Windows host an exception of
    [url2pathname] is passed on. *)
Theorem uri_to_local_path_outcomes (h : host) (uri : str) :
  uri <> [] ->
  (forall e, UrlParse.urlparse h uri = Raise e ->
     uri_to_local_path h (Some uri) = Raise e)
  /\ (forall c, UrlParse.urlparse h uri = Ok c ->
     (scheme c <> lit "file" ->
        uri_to_local_path h (Some uri) = Raise (ValueError (OnlyFileURIs (scheme c))))
     /\ (scheme c = lit "file" -> netloc c <> [] -> os_name h = Posix ->
        uri_to_local_path h (Some uri) = Raise (ValueError NetlocOnlyOnWindows))
     /\ (scheme c = lit "file" -> netloc c <> [] -> os_name h = NT ->
        uri_to_local_path h (Some uri)
        = let* p := Url2Path.nt_url2pathname (path c) in
          Ok (Some (AWindowsPath (lit "//" ++ netloc c ++ p))))
     /\ (scheme c = lit "file" -> netloc c = [] -> os_name h = Posix ->
        uri_to_local_path h (Some uri)
        = Ok (Some (APosixPath (Path.of_str (Codec.unquote (path c))))))
     /\ (scheme c = lit "file" -> netloc c = [] -> os_name h = NT ->
        uri_to_local_path h (Some uri)
        = let* p := Url2Path.nt_url2pathname (path c) in
          Ok (Some (AWindowsPath p)))).
Proof.
  intros Hne. destruct uri as [|x uri]; [congruence|].
  unfold uri_to_local_path, native_path, Url2Path.url2pathname. split.
  - intros e ->. reflexivity.
  - intros c ->. cbn [bind]. repeat split.
    + intros H. apply str_eqb_false in H. now rewrite H.
    + intros Hs Hn Hos. apply str_eqb_true in Hs. apply nonempty_true in Hn.
      now rewrite Hs, Hn, Hos.
    + intros Hs Hn Hos. apply str_eqb_true in Hs. apply nonempty_true in Hn.
      rewrite Hs, Hn, Hos. cbn [negb bind].
      now destruct (Url2Path.nt_url2pathname (path c)).
    + intros Hs Hn Hos. apply str_eqb_true in Hs. now rewrite Hs, Hn, Hos.
    + intros Hs Hn Hos. apply str_eqb_true in Hs. rewrite Hs, Hn, Hos.
      cbn [negb bind]. now destruct (Url2Path.nt_url2pathname (path c)).
Qed.

(** C4, the witness: a file URL on a POSIX host. *)
Lemma uri_to_local_path_outcomes_witness :
  uri_to_local_path posix_host (Some (lit "file:///tmp/x.txt"))
  = Ok (Some (APosixPath (mkPath (lit "/") [lit "/"; lit "tmp"; lit "x.txt"]))).
Proof.
  exact (proj1 (proj2 (proj2 (proj2
           (proj2 (uri_to_local_path_outcomes posix_host (lit "file:///tmp/x.txt")
                     ltac:(discriminate)) _ eq_refl))))
           eq_refl eq_refl eq_refl).
Defined.

(** C4, the counterexample: a file URL ([is_url] accepts it) whose network
    location opens a bracket and does not close it fails with the URL
    parser's [ValueError] ('Invalid IPv6 URL'), which is neither the
    refusal of the scheme nor the refusal of the network location. *)
Lemma uri_to_local_path_unparsable :
  is_url (VStr (lit "file://[/x")) = Ok true
  /\ uri_to_local_path posix_host (Some (lit "file://[/x"))
     = Raise (ValueError InvalidIPv6URL).
Proof. split; vm_compute; reflexivity. Qed.

Example uri_to_local_path_windows :
  uri_to_local_path windows_host (Some (lit "file:///C:/tmp/x.txt"))
  = Ok (Some (AWindowsPath (lit "C:\tmp\x.txt"))).
Proof. vm_compute. reflexivity. Qed.

Example uri_to_local_path_unc :
  uri_to_local_path windows_host (Some (lit "file://server/share/x.txt"))
  = Ok (Some (AWindowsPath (lit "//server\share\x.txt"))).
Proof. vm_compute. reflexivity. Qed.

Example uri_to_local_path_http :
  uri_to_local_path posix_host (Some (lit "http://example.com/x"))
  = Raise (ValueError (OnlyFileURIs (lit "http"))).
Proof. vm_compute. reflexivity. Qed.

Example uri_to_local_path_netloc_posix :
  uri_to_local_path posix_host (Some (lit "file://server/share/x.txt"))
  = Raise (ValueError NetlocOnlyOnWindows).
Proof. vm_compute. reflexivity. Qed.

(** On a Windows host the decoding of the path can fail as well. *)
Example uri_to_local_path_windows_bad_drive :
  uri_to_local_path windows_host (Some (lit "file:///a:b:c")) = Raise OSError.
Proof. vm_compute. reflexivity. Qed.

(** ** The base directory *)

(** X24.  On a POSIX host whose working directory resolves to [cwd]:
    [default_base_dir] returns the unresolved [PWD] when [PWD] is set to
    an absolute path that resolves to the directory of [cwd]; and when
    that is not so, and resolving [PWD] fails with nothing but an I/O
    error, it returns [cwd]. *)
Theorem default_base_dir_cases (h : host) (cwd : PosixPath) :
  os_name h = Posix ->
  Path.resolve h (Path.of_str (lit ".")) = Ok cwd ->
  (forall pwd, pwd_trusted h cwd pwd ->
     default_base_dir h = Ok (Path.of_str pwd))
  /\ ((forall pwd, ~ pwd_trusted h cwd pwd) -> pwd_fails_with_io_only h ->
      default_base_dir h = Ok cwd).
Proof.
  intros _ Hcwd. unfold default_base_dir.
  change (Path.of_str [46]) with (Path.of_str (lit ".")). rewrite Hcwd.
  cbn [bind]. split.
  - intros pwd (-> & -> & r & -> & Hr). cbn [negb bind try_except].
    unfold Pathlib.eqb. rewrite bool_decide_eq_true_2 by congruence.
    reflexivity.
  - intros Hno Hio. destruct (environ h !! lit "PWD") as [pwd|] eqn:Henv;
      [|reflexivity].
    destruct (Pathlib.is_absolute (Path.of_str pwd)) eqn:Habs; [|reflexivity].
    cbn [negb]. destruct (Path.resolve h (Path.of_str pwd)) as [r|e] eqn:Hres.
    + cbn [bind try_except]. unfold Pathlib.eqb.
      destruct (bool_decide (parts cwd = parts r)) eqn:Hd; [|reflexivity].
      apply bool_decide_eq_true in Hd. exfalso. apply (Hno pwd).
      repeat split; try assumption. now exists r.
    + cbn [bind try_except]. now rewrite (Hio pwd e Henv Habs Hres).
Qed.

(** X24, the witness: the shell came through a symbolic link, and the path
    with the link is returned. *)
Lemma default_base_dir_cases_witness :
  default_base_dir symlink_host = Ok (Path.of_str (lit "/home/user/link")).
Proof.
  refine (proj1 (default_base_dir_cases symlink_host (Path.of_str (lit "/data/work"))
                   eq_refl eq_refl) (lit "/home/user/link") _).
  split; [reflexivity|]. split; [reflexivity|].
  exists (Path.of_str (lit "/data/work")). split; reflexivity.
Defined.

(** C3.  The function at an input where it leaves its documented
    behaviour: [PWD] is set to an absolute path whose resolution fails,
    with the [RuntimeError] of a symbolic link that loops; the handler
    that answers a failed resolution with the resolved working directory
    catches [IOError] only, and [default_base_dir] raises instead of
    returning [/home/user/work]. *)
Lemma default_base_dir_symlink_loop :
  Path.resolve looping_host (Path.of_str (lit "."))
  = Ok (Path.of_str (lit "/home/user/work"))
  /\ environ looping_host !! lit "PWD" = Some (lit "/tmp/loop")
  /\ Path.resolve looping_host (Path.of_str (lit "/tmp/loop")) = Raise RuntimeError
  /\ default_base_dir looping_host = Raise RuntimeError.
Proof. repeat split; vm_compute; reflexivity. Qed.

(** An exception of the resolution that is not an I/O error is passed on. *)
Lemma default_base_dir_passes_on (h : host) (cwd : PosixPath) (pwd : str) (e : exn) :
  Path.resolve h (Path.of_str (lit ".")) = Ok cwd ->
  environ h !! lit "PWD" = Some pwd ->
  Pathlib.is_absolute (Path.of_str pwd) = true ->
  Path.resolve h (Path.of_str pwd) = Raise e ->
  isinstance_IOError e = false ->
  default_base_dir h = Raise e.
Proof.
  intros Hcwd Henv Habs Hres He. unfold default_base_dir.
  change (Path.of_str [46]) with (Path.of_str (lit ".")).
  rewrite Hcwd. cbn [bind]. rewrite Henv, Habs. cbn [negb].
  rewrite Hres. cbn [bind try_except]. now rewrite He.
Qed.

Example default_base_dir_stale_pwd :
  default_base_dir
    (mkHost Posix {[ lit "PWD" := lit "/home/user/elsewhere" ]} (Ok (lit "/home/user/work"))
       (plain_resolve (lit "/home/user/work")) loopback_only 4300)
  = Ok (Path.of_str (lit "/home/user/work")).
Proof. vm_compute. reflexivity. Qed.

(** ** Lexical normal forms *)

Lemma split_app (c : char) (a t : str) :
  Str.mem c a = false -> Str.split c (a ++ c :: t) = a :: Str.split c t.
Proof.
  unfold Str.mem. induction a as [|x a IH]; simpl.
  - now rewrite N.eqb_refl.
  - intros [Hx H]%orb_false_iff. rewrite N.eqb_sym in Hx. rewrite Hx.
    now rewrite (IH H).
Qed.

Lemma split_pieces (c : char) (s : str) :
  Forall (fun x => Str.mem c x = false) (Str.split c s).
Proof.
  induction s as [|x s IH]; simpl.
  - now repeat constructor.
  - destruct (x =? c) eqn:Hx.
    + now constructor.
    + assert (Hm : forall t, Str.mem c t = false -> Str.mem c (x :: t) = false).
      { intros t Ht. unfold Str.mem in *. simpl. now rewrite N.eqb_sym, Hx. }
      destruct (Str.split c s) as [|h t].
      * constructor; [now apply Hm | constructor].
      * inversion IH; subst. constructor; [now apply Hm | assumption].
Qed.

Lemma split_join (c : char) (l : list str) :
  l <> [] -> Forall (fun x => Str.mem c x = false) l ->
  Str.split c (Str.join c l) = l.
Proof.
  induction l as [|a l IH]; [congruence|]. intros _ H. inversion H; subst.
  destruct l as [|b l].
  - simpl. now apply split_none.
  - change (Str.join c (a :: b :: l)) with (a ++ c :: Str.join c (b :: l)).
    rewrite split_app by assumption. f_equal. now apply IH.
Qed.

Lemma plain_name_spec (x : str) :
  plain_name x = true <->
  x <> [] /\ x <> Pathlib.dot /\ x <> Pathlib.dotdot /\ Str.mem Pathlib.slash x = false.
Proof.
  unfold plain_name.
  rewrite !andb_true_iff, !negb_true_iff, nonempty_true, !str_eqb_false. tauto.
Qed.

(** One step of [normpath] on a path that begins with a slash keeps the
    components plain. *)
Lemma normpath_step_plain (k : nat) (stack : list str) (comp : str) :
  k <> O -> Str.mem Pathlib.slash comp = false ->
  forallb plain_name stack = true ->
  forallb plain_name (Pathlib.normpath_step k stack comp) = true.
Proof.
  intros Hk Hc Hs. unfold Pathlib.normpath_step.
  destruct (negb (Pathlib.nonempty comp) || Str.eqb comp Pathlib.dot) eqn:E1;
    [assumption|].
  apply orb_false_iff in E1 as [E1 E2]. apply negb_false_iff in E1.
  destruct (Str.eqb comp Pathlib.dotdot) eqn:E3; cbn [negb orb].
  - replace (k =? 0)%nat with false by (symmetry; now apply Nat.eqb_neq).
    cbn [andb orb]. destruct stack as [|top stack]; [assumption|].
    cbn [forallb] in Hs. apply andb_true_iff in Hs as [Htop Hs].
    apply plain_name_spec in Htop as (_ & _ & Htop & _).
    apply str_eqb_false in Htop. rewrite Htop. exact Hs.
  - cbn [forallb]. rewrite Hs, andb_true_r. unfold plain_name.
    now rewrite E1, E2, E3, Hc.
Qed.

Lemma normpath_fold_plain (k : nat) (comps stack : list str) :
  k <> O -> Forall (fun x => Str.mem Pathlib.slash x = false) comps ->
  forallb plain_name stack = true ->
  forallb plain_name (fold_left (Pathlib.normpath_step k) comps stack) = true.
Proof.
  intros Hk Hc. revert stack. induction Hc as [|c comps Hc _ IH]; intros stack Hs.
  - assumption.
  - cbn [fold_left]. apply IH. now apply normpath_step_plain.
Qed.

Lemma forallb_rev {A : Type} (f : A -> bool) (l : list A) :
  forallb f (rev l) = forallb f l.
Proof.
  induction l as [|a l IH]; [reflexivity|]. simpl.
  rewrite forallb_app, IH. simpl. rewrite andb_true_r. apply andb_comm.
Qed.

(** [normpath] of a text that begins with a slash: one or two slashes and
    plain names between single slashes. *)
Lemma normpath_rooted (s : str) :
  Str.startswith [Pathlib.slash] s = true ->
  exists k names,
    (k = 1%nat \/ k = 2%nat) /\ forallb plain_name names = true
    /\ Pathlib.normpath s = repeat Pathlib.slash k ++ Str.join Pathlib.slash names.
Proof.
  intros Hs. unfold Pathlib.normpath. rewrite Hs.
  destruct s as [|x s]; [discriminate|]. cbn [Pathlib.nonempty negb].
  set (k := if Str.startswith [Pathlib.slash; Pathlib.slash] (x :: s)
               && negb (Str.startswith [Pathlib.slash; Pathlib.slash; Pathlib.slash] (x :: s))
            then 2%nat else 1%nat).
  assert (Hk : k = 1%nat \/ k = 2%nat) by (subst k; destruct (_ && _); auto).
  exists k, (rev (fold_left (Pathlib.normpath_step k) (Str.split Pathlib.slash (x :: s)) [])).
  split; [assumption|]. split.
  - rewrite forallb_rev. apply normpath_fold_plain;
      [lia | apply split_pieces | reflexivity].
  - destruct Hk as [-> | ->]; reflexivity.
Qed.

Lemma lstrip_plain_names (names : list str) :
  forallb plain_name names = true ->
  Str.lstrip (N.eqb Pathlib.slash) (Str.join Pathlib.slash names)
  = Str.join Pathlib.slash names.
Proof.
  destruct names as [|a names]; [reflexivity|]. cbn [forallb].
  intros [Ha _]%andb_true_iff. apply plain_name_spec in Ha as (Hne & _ & _ & Hs).
  destruct a as [|c a]; [congruence|].
  unfold Str.mem in Hs. cbn [existsb] in Hs. apply orb_false_iff in Hs as [Hc _].
  destruct names; cbn [Str.join app Str.lstrip]; now rewrite Hc.
Qed.

Lemma plain_names_kept (names : list str) :
  forallb plain_name names = true ->
  List.filter (fun x => Pathlib.nonempty x && negb (Str.eqb x Pathlib.dot)) names
  = names.
Proof.
  induction names as [|a names IH]; [reflexivity|]. cbn [forallb List.filter].
  intros [Ha Hn]%andb_true_iff. apply plain_name_spec in Ha as (Ha1 & Ha2 & _).
  apply nonempty_true in Ha1. apply str_eqb_false in Ha2. rewrite Ha1, Ha2.
  cbn [negb andb]. f_equal. now apply IH.
Qed.

Lemma plain_names_no_slash (names : list str) :
  forallb plain_name names = true ->
  Forall (fun x => Str.mem Pathlib.slash x = false) names.
Proof.
  induction names as [|a names IH]; [constructor|]. cbn [forallb].
  intros [Ha Hn]%andb_true_iff. apply plain_name_spec in Ha as (_ & _ & _ & Ha).
  constructor; [assumption | now apply IH].
Qed.

Lemma segments_plain_names (names : list str) :
  forallb plain_name names = true ->
  Pathlib.segments (Str.join Pathlib.slash names) = names.
Proof.
  intros H. unfold Pathlib.segments. destruct names as [|a names]; [reflexivity|].
  rewrite split_join; [now apply plain_names_kept | discriminate
                      | now apply plain_names_no_slash].
Qed.

(** A path text in normal form parses to its root and names. *)
Lemma of_str_normal_text (k : nat) (names : list str) :
  k = 1%nat \/ k = 2%nat -> forallb plain_name names = true ->
  Path.of_str (repeat Pathlib.slash k ++ Str.join Pathlib.slash names)
  = mkPath (repeat Pathlib.slash k) (repeat Pathlib.slash k :: names).
Proof.
  intros Hk Hn. unfold Path.of_str, Pathlib.parse_parts.
  cbn [rev app Pathlib.parse_rev].
  pose proof (lstrip_plain_names names Hn) as Hl.
  pose proof (segments_plain_names names Hn) as Hseg.
  unfold Pathlib.slash in *.
  set (j := Str.join 47 names) in *.
  destruct Hk as [-> | ->]; cbn [repeat app Pathlib.nonempty Pathlib.splitroot];
    unfold Pathlib.slash.
  - assert (E : Str.lstrip (N.eqb 47) (47 :: j) = j)
      by (cbn [Str.lstrip]; now rewrite N.eqb_refl).
    rewrite E.
    replace (length (47%N :: j) - length j =? 2)%nat with false
      by (symmetry; apply Nat.eqb_neq; simpl; lia).
    cbn [Pathlib.nonempty]. rewrite Hseg.
    now rewrite rev_app_distr, rev_involutive.
  - assert (E : Str.lstrip (N.eqb 47) (47 :: 47 :: j) = j)
      by (cbn [Str.lstrip]; now rewrite N.eqb_refl).
    rewrite E.
    replace (length (47%N :: 47%N :: j) - length j =? 2)%nat with true
      by (symmetry; apply Nat.eqb_eq; simpl; lia).
    cbn [Pathlib.nonempty]. rewrite Hseg.
    now rewrite rev_app_distr, rev_involutive.
Qed.

Lemma to_str_rooted (p : PosixPath) :
  rooted p -> Str.startswith [Pathlib.slash] (Pathlib.to_str p) = true.
Proof.
  unfold Pathlib.to_str. intros [-> | ->]; reflexivity.
Qed.

(** The normal form of a rooted path is lexically normal. *)
Lemma norm_lexically_normal (p : PosixPath) : rooted p -> lexically_normal (norm p).
Proof.
  intros Hp. unfold norm.
  destruct (normpath_rooted _ (to_str_rooted p Hp)) as (k & names & Hk & Hn & ->).
  rewrite of_str_normal_text by assumption. split.
  - destruct Hk as [-> | ->]; [now left | now right].
  - now exists names.
Qed.

(** The root [pathlib] gives a path is empty, one slash or two. *)
Lemma parse_rev_root (args : list str) :
  let rt := fst (Pathlib.parse_rev args) in
  rt = [] \/ rt = [Pathlib.slash] \/ rt = [Pathlib.slash; Pathlib.slash].
Proof.
  induction args as [|a args IH]; cbn [Pathlib.parse_rev]; [now left|].
  destruct (Pathlib.nonempty a); [|exact IH].
  unfold Pathlib.splitroot.
  destruct a as [|c a]; [|destruct (N.eq_dec c 47) as [-> | Hc]].
  - cbn [Pathlib.nonempty]. destruct (Pathlib.parse_rev args). exact IH.
  - destruct (_ =? 2)%nat; cbn [Pathlib.nonempty fst]; auto.
  - replace (match c with 47 => _ | _ => ([], c :: a) end) with (@nil N, c :: a).
    + cbn [Pathlib.nonempty]. destruct (Pathlib.parse_rev args). exact IH.
    + clear -Hc. destruct c as [|q]; [reflexivity|].
      do 6 (destruct q as [q|q|]; try reflexivity). congruence.
Qed.

Lemma parse_parts_root (args : list str) :
  let p := Pathlib.parse_parts args in
  Pathlib.is_absolute p = true -> rooted p.
Proof.
  unfold Pathlib.parse_parts, Pathlib.is_absolute, rooted.
  pose proof (parse_rev_root (rev args)) as H.
  destruct (Pathlib.parse_rev (rev args)) as [rt parsed]. cbn [fst root] in *.
  destruct H as [-> | [-> | ->]]; [discriminate | auto ..].
Qed.

(** ** The path normaliser *)

Lemma normalise_path_of_absolute (h : host) (p : pathlike) (base : option pathlike) :
  Pathlib.is_absolute (as_path p) = true ->
  normalise_path h p base = Ok (norm (as_path p)).
Proof. intros Hp. unfold normalise_path. now rewrite Hp. Qed.

Lemma normalise_path_of_relative (h : host) (p base : pathlike) :
  Pathlib.is_absolute (as_path p) = false ->
  normalise_path h p (Some base)
  = if Pathlib.is_absolute (as_path base)
    then Ok (norm (Path.truediv (as_path base) (as_path p)))
    else Raise (ValueError ExpectAbsoluteBase).
Proof.
  intros Hp. unfold normalise_path. rewrite Hp. cbn [fmap option_fmap option_map].
  now destruct (Pathlib.is_absolute (as_path base)).
Qed.

(** The example of the specification, for every POSIX host and every
    base. *)
Example normalise_path_a_b_c (h : host) (base : option pathlike) :
  os_name h = Posix ->
  normalise_path h (PStr (lit "/a/b/../c")) base = Ok (Path.of_str (lit "/a/c")).
Proof. reflexivity. Qed.

(** An absolute path given as text has a normal form that is lexically
    normal. *)
Corollary normalise_path_text_normal (h : host) (s : str) (base : option pathlike) :
  Pathlib.is_absolute (Path.of_str s) = true ->
  exists q, normalise_path h (PStr s) base = Ok q /\ lexically_normal q.
Proof.
  intros Hs. exists (norm (Path.of_str s)). split.
  - now apply (normalise_path_of_absolute h (PStr s)).
  - apply norm_lexically_normal. now apply (parse_parts_root [s]).
Qed.

(** Two leading slashes are a root of their own and are kept. *)
Example normalise_path_two_slashes (h : host) (base : option pathlike) :
  os_name h = Posix ->
  normalise_path h (PStr (lit "//a/./b//c/..")) base = Ok (Path.of_str (lit "//a/b")).
Proof. reflexivity. Qed.

(** Below a rooted base the result is lexically normal as well. *)
Lemma normalise_path_relative_normal (h : host) (p base : pathlike) :
  Pathlib.is_absolute (as_path p) = false -> rooted (as_path base) ->
  exists q, normalise_path h p (Some base) = Ok q /\ lexically_normal q.
Proof.
  intros Hp Hb. exists (norm (Path.truediv (as_path base) (as_path p))). split.
  - rewrite (normalise_path_of_relative h p base Hp).
    unfold Pathlib.is_absolute. now destruct Hb as [-> | ->].
  - apply norm_lexically_normal. unfold Path.truediv, Pathlib.join_parsed_parts.
    destruct (Pathlib.nonempty (root (Pathlib.parse_parts (parts (as_path p))))) eqn:E.
    + now apply parse_parts_root.
    + exact Hb.
Qed.

Example normalise_path_dotdot_base (h : host) :
  os_name h = Posix ->
  normalise_path h (PStr (lit "../x/./y")) (Some (PStr (lit "/a/b")))
  = Ok (Path.of_str (lit "/a/x/y")).
Proof. reflexivity. Qed.

(** Without a base the base directory of the host is used. *)
Example normalise_path_default_base :
  normalise_path symlink_host (PStr (lit "x/../y.nc")) None
  = Ok (Path.of_str (lit "/home/user/link/y.nc")).
Proof. vm_compute. reflexivity. Qed.

(** ** The coercion to a URL *)

Lemma as_uri_shape (a : PosixPath) (uri : str) :
  Path.as_uri a = Ok uri ->
  Pathlib.is_absolute a = true
  /\ exists b, Codec.fsencode (Pathlib.to_str a) = Ok b
               /\ uri = lit "file://" ++ Codec.quote_from_bytes b.
Proof.
  unfold Path.as_uri. destruct (Pathlib.is_absolute a); [|discriminate].
  cbn [negb]. destruct (Codec.fsencode (Pathlib.to_str a)) as [b|e]; [|discriminate].
  cbn [bind]. intros [= <-]. split; [reflexivity|]. now exists b.
Qed.

Lemma as_url_of_url (h : host) (v : value) :
  is_url v = Ok true -> as_url h v = Ok v.
Proof. unfold as_url. now intros ->. Qed.

(** What [as_url] makes of a value that is not a URL: [file://] and the
    percent-encoded bytes of the absolute path. *)
Lemma as_url_path_shape (h : host) (v r : value) :
  is_url v = Ok false -> as_url h v = Ok r ->
  exists a b,
    Pathlib.is_absolute a = true
    /\ Codec.fsencode (Pathlib.to_str a) = Ok b
    /\ r = VStr (lit "file://" ++ Codec.quote_from_bytes b).
Proof.
  unfold as_url. intros -> H. cbn [bind] in H.
  destruct (Path.make v) as [p|e]; [|discriminate]. cbn [bind] in H.
  destruct (Path.absolute h p) as [a|e]; [|discriminate]. cbn [bind] in H.
  destruct (Path.as_uri a) as [uri|e] eqn:Hu; [|discriminate]. cbn [bind] in H.
  injection H as <-. apply as_uri_shape in Hu as (Ha & b & Hb & ->).
  now exists a, b.
Qed.

Example as_url_percent_encodes (h : host) :
  os_name h = Posix ->
  as_url h (VStr (lit "/tmp/a b#c")) = Ok (VStr (lit "file:///tmp/a%20b%23c")).
Proof. reflexivity. Qed.

Example as_url_relative :
  as_url posix_host (VStr (lit "scene.nc"))
  = Ok (VStr (lit "file:///home/user/work/scene.nc")).
Proof. vm_compute. reflexivity. Qed.

Example as_url_other_scheme (h : host) :
  as_url h (VStr (lit "s3://bucket/key")) = Ok (VStr (lit "s3://bucket/key")).
Proof. reflexivity. Qed.

(** C10.  A value that [as_url] returns is classified as a URL by [is_url],
    and [as_url] returns it unchanged: [as_url] is idempotent. *)
Theorem as_url_idempotent (h : host) (v r : value) :
  as_url h v = Ok r -> is_url r = Ok true /\ as_url h r = Ok r.
Proof.
  intros H.
  assert (Hr : is_url r = Ok true).
  { destruct (is_url_total v) as [[|] Hv].
    - rewrite (as_url_of_url h v Hv) in H. now injection H as <-.
    - destruct (as_url_path_shape h v r Hv H) as (a & b & _ & _ & ->).
      apply is_url_file. }
  split; [assumption|]. now apply as_url_of_url.
Qed.

(** C10, the witness: a path, and the URL it becomes. *)
Lemma as_url_idempotent_witness :
  is_url (VStr (lit "file:///tmp/x")) = Ok true
  /\ as_url posix_host (VStr (lit "file:///tmp/x")) = Ok (VStr (lit "file:///tmp/x")).
Proof.
  exact (as_url_idempotent posix_host (VStr (lit "/tmp/x"))
           (VStr (lit "file:///tmp/x")) eq_refl).
Defined.

(** * Further properties *)

(** ** Further properties of the classifier *)

Lemma forallb_not_mem (p : char -> bool) (c : char) (s : str) :
  p c = false -> forallb p s = true -> Str.mem c s = false.
Proof.
  intros Hc. induction s as [|x s IH]; simpl; [reflexivity|].
  intros [Hx Hs]%andb_prop. rewrite (IH Hs), orb_false_r.
  apply N.eqb_neq. intros ->. congruence.
Qed.

(** X1. A string is taken for a URL only when it holds [://], with at
    least one character and neither a colon nor a slash before it: the
    first colon of a URL is followed by two slashes.  A drive-letter path
    such as [C:/data] and a relative or absolute file path are never taken
    for URLs. *)
Theorem is_url_separator (s : str) :
  is_url (VStr s) = Ok true ->
  exists pre rest,
    s = pre ++ lit "://" ++ rest
    /\ pre <> [] /\ Str.mem 58 pre = false /\ Str.mem 47 pre = false.
Proof.
  rewrite is_url_str. intros [= H]. apply match_URL_RE in H.
  destruct H as (ws & tok & rest & -> & Hws & Htok & Hcls).
  exists (ws ++ tok), rest. rewrite <- app_assoc. split; [reflexivity|].
  split; [destruct ws; [assumption | discriminate]|].
  rewrite !mem_app.
  rewrite (forallb_not_mem Unicode.isspace 58 ws eq_refl Hws).
  rewrite (forallb_not_mem scheme_token_char 58 tok eq_refl Hcls).
  rewrite (forallb_not_mem Unicode.isspace 47 ws eq_refl Hws).
  rewrite (forallb_not_mem scheme_token_char 47 tok eq_refl Hcls).
  split; reflexivity.
Qed.

(** X1, the witness. *)
Lemma is_url_separator_witness :
  exists pre rest,
    lit "s3://bucket/key" = pre ++ lit "://" ++ rest
    /\ pre <> [] /\ Str.mem 58 pre = false /\ Str.mem 47 pre = false.
Proof. apply (is_url_separator (lit "s3://bucket/key")). reflexivity. Defined.

Lemma match_prefix_app (r : Re.regex) (s t : str) :
  Re.match_prefix r s = true -> Re.match_prefix r (s ++ t) = true.
Proof.
  intros (p & q & -> & Hp)%match_prefix_spec. apply match_prefix_spec.
  exists p, (q ++ t). now rewrite app_assoc.
Qed.

(** X2. Only the head of a string decides: a URL stays a URL whatever is
    written after it, so what [mk_part_uri] returns for a URL is a URL
    again. *)
Theorem is_url_mk_part_uri (h : host) (s t : str) (idx : Z) :
  is_url (VStr s) = Ok true ->
  is_url (VStr (s ++ t)) = Ok true
  /\ (forall r, mk_part_uri h s idx = Ok r -> is_url (VStr r) = Ok true).
Proof.
  rewrite !is_url_str. intros [= H]. split.
  - now rewrite (match_prefix_app _ _ _ H).
  - intros r [-> _]%mk_part_uri_ok. rewrite is_url_str.
    now rewrite (match_prefix_app _ _ _ H).
Qed.

(** X2, the witness. *)
Lemma is_url_mk_part_uri_witness :
  is_url (VStr (lit "s3://bucket/key" ++ lit "?versionId=3")) = Ok true
  /\ (forall r, mk_part_uri posix_host (lit "s3://bucket/key") 4 = Ok r ->
      is_url (VStr r) = Ok true).
Proof. apply (is_url_mk_part_uri posix_host (lit "s3://bucket/key")). reflexivity. Defined.

(** ** Further properties of the part codec *)

Lemma part_suffix_safe (n : Z) :
  forallb (fun c => negb (UrlParse.unsafe_url_byte c)) (lit "part=" ++ PyInt.decimal_text n)
  = true.
Proof.
  change (lit "part=" ++ PyInt.decimal_text n)
    with (112 :: 97 :: 114 :: 116 :: 61 :: PyInt.decimal_text n).
  cbn [forallb]. apply forallb_forall. intros c Hc.
  pose proof (proj1 (forallb_forall _ _) (decimal_text_chars n) c Hc) as Hdigit.
  cbn beta in Hdigit.
  unfold UrlParse.unsafe_url_byte, Unicode.ascii_digit in *.
  apply orb_true_iff in Hdigit as [H|H].
  - apply andb_true_iff in H as [H _]. apply N.leb_le in H.
    apply negb_true_iff. rewrite !orb_false_iff, !N.eqb_neq. lia.
  - apply N.eqb_eq in H. now subst c.
Qed.

Lemma part_suffix_mem (c : char) (n : Z) :
  Str.mem c (lit "part=") = false ->
  Unicode.ascii_digit c || (c =? 45) = false ->
  Str.mem c (lit "part=" ++ PyInt.decimal_text n) = false.
Proof. intros H1 H2. now rewrite mem_app, H1, decimal_text_mem. Qed.

Lemma urlparse_part_text (h : host) (u : str) (n : Z) :
  Str.mem 35 u = false ->
  UrlParse.urlparse h (u ++ lit "#part=" ++ PyInt.decimal_text n)
  = bind (UrlParse.urlparse h u)
         (fun c => Ok (with_fragment (lit "part=" ++ PyInt.decimal_text n) c)).
Proof.
  intros Hu.
  change (u ++ lit "#part=" ++ PyInt.decimal_text n)
    with (u ++ 35 :: (lit "part=" ++ PyInt.decimal_text n)).
  apply urlparse_fragment; [apply part_suffix_safe| |assumption].
  now apply part_suffix_mem.
Qed.

Lemma urlsplit_no_fragment (h : host) (u : str) (c : ParseResult) :
  Str.mem 35 u = false -> UrlParse.urlsplit h u = Ok c -> fragment c = [].
Proof.
  intros Hu. unfold UrlParse.urlsplit.
  pose proof (mem_split_scheme 35 _ (mem_sanitize 35 u Hu)) as Hs.
  destruct (UrlParse.split_scheme (UrlParse.sanitize u)) as [sch rest]. cbn [snd] in Hs.
  destruct (UrlParse.split_authority h rest) as [[nl r]|e] eqn:Ha; [|discriminate].
  cbn [bind]. pose proof (mem_split_authority h 35 rest nl r Hs Ha) as Hr.
  rewrite (cut_none 35 r Hr).
  destruct (UrlParse.cut 63 r) as [p q].
  destruct (UrlParse.checknetloc nl); [|discriminate].
  cbn [bind]. now intros [= <-].
Qed.

Lemma urlparse_no_fragment (h : host) (u : str) (c : ParseResult) :
  Str.mem 35 u = false -> UrlParse.urlparse h u = Ok c -> fragment c = [].
Proof.
  intros Hu. unfold UrlParse.urlparse.
  destruct (UrlParse.urlsplit h u) as [r|e] eqn:Hr; [|discriminate]. cbn [bind].
  pose proof (urlsplit_no_fragment h u r Hu Hr) as Hf.
  destruct (_ && _).
  - destruct (UrlParse.splitparams (path r)). now intros [= <-].
  - now intros [= <-].
Qed.

(** X3. A locator without [#] names no part: [get_part_from_uri] returns
    [None] for it whenever the URL parser accepts it (and raises what the
    parser raises otherwise). *)
Theorem get_part_from_uri_no_fragment (h : host) (u : str) :
  Str.mem 35 u = false ->
  get_part_from_uri h u = let* _ := UrlParse.urlparse h u in Ok VNone.
Proof.
  intros Hu. unfold get_part_from_uri.
  destruct (UrlParse.urlparse h u) as [c|e] eqn:Hc; [|reflexivity].
  cbn [bind]. now rewrite (urlparse_no_fragment h u c Hu Hc).
Qed.

(** X3, the witness. *)
Lemma get_part_from_uri_no_fragment_witness :
  get_part_from_uri posix_host (lit "file:///data/scene.nc") = Ok VNone.
Proof.
  apply (get_part_from_uri_no_fragment posix_host (lit "file:///data/scene.nc")).
  reflexivity.
Defined.

(** X4. The part suffix does not change the file a locator names: for a
    non-empty locator [u] without [#], [uri_to_local_path] gives the same
    result, or raises the same exception, on what [mk_part_uri u idx]
    returns as on [u]. *)
Theorem uri_to_local_path_mk_part_uri (h : host) (u r : str) (idx : Z) :
  u <> [] -> Str.mem 35 u = false ->
  mk_part_uri h u idx = Ok r ->
  uri_to_local_path h (Some r) = uri_to_local_path h (Some u).
Proof.
  intros Hne Hu [-> _]%mk_part_uri_ok. unfold uri_to_local_path.
  destruct u as [|x u]; [congruence|].
  rewrite urlparse_part_text by assumption.
  change ((x :: u) ++ lit "#part=" ++ PyInt.decimal_text idx)
    with (x :: (u ++ lit "#part=" ++ PyInt.decimal_text idx)).
  cbv iota.
  now destruct (UrlParse.urlparse h (x :: u)) as [c|e].
Qed.

(** X4, the witness. *)
Lemma uri_to_local_path_mk_part_uri_witness :
  uri_to_local_path posix_host (Some (lit "file:///data/scene.nc#part=2"))
  = uri_to_local_path posix_host (Some (lit "file:///data/scene.nc")).
Proof.
  apply (uri_to_local_path_mk_part_uri posix_host (lit "file:///data/scene.nc") _ 2).
  - discriminate.
  - reflexivity.
  - reflexivity.
Defined.

Lemma split_nonempty (c : char) (s : str) : Str.split c s <> [].
Proof.
  induction s as [|x s IH]; simpl; [discriminate|].
  destruct (x =? c); [discriminate|]. now destruct (Str.split c s).
Qed.

Lemma split_app_sep (c : char) (a t : str) :
  Str.split c (a ++ c :: t) = Str.split c a ++ Str.split c t.
Proof.
  induction a as [|x a IH]; simpl.
  - now rewrite N.eqb_refl.
  - destruct (x =? c); [now rewrite IH|]. rewrite IH.
    pose proof (split_nonempty c a) as Hne.
    now destruct (Str.split c a).
Qed.

Lemma dict_last (l : list (str * str)) (k v : str) : dict (l ++ [(k, v)]) !! k = Some v.
Proof. unfold dict. rewrite fold_left_app. cbn [fold_left fst snd]. apply lookup_insert_eq. Qed.

(** X5. When the fragment holds several fields, the last [part] field
    decides: whatever fields [f] come before [&part=raw], the part is read
    from [raw] alone (an integer when [int] accepts [raw], else [raw] as
    text), since [dict] keeps the last pair of a key. *)
Theorem get_part_from_uri_last_field (h : host) (u : str) (c : ParseResult) (f raw : str) :
  UrlParse.urlparse h u = Ok c ->
  fragment c = f ++ lit "&part=" ++ raw ->
  raw <> [] ->
  Str.mem 38 raw = false -> Str.mem 43 raw = false -> Str.mem 37 raw = false ->
  get_part_from_uri h u = maybe_int h (Some raw).
Proof.
  intros Hc Hf Hne Hamp Hplus Hpct.
  rewrite (get_part_from_uri_value h u c Hc), Hf.
  pose proof (parse_qsl_part raw Hne Hamp Hplus Hpct) as Hq.
  unfold UrlParse.parse_qsl in *.
  change (Pathlib.nonempty (lit "part=" ++ raw)) with true in Hq. cbv iota in Hq.
  change (f ++ lit "&part=" ++ raw) with (f ++ 38 :: (lit "part=" ++ raw)).
  replace (Pathlib.nonempty (f ++ 38 :: (lit "part=" ++ raw))) with true
    by now destruct f.
  rewrite split_app_sep, flat_map_app, Hq. now rewrite dict_last.
Qed.

(** X5, the witness. *)
Lemma get_part_from_uri_last_field_witness :
  get_part_from_uri posix_host (lit "file:///x.nc#part=1&band=red&part=7")
  = maybe_int posix_host (Some (lit "7")).
Proof.
  apply (get_part_from_uri_last_field posix_host
           (lit "file:///x.nc#part=1&band=red&part=7")
           (mkParseResult (lit "file") [] (lit "/x.nc") [] [] (lit "part=1&band=red&part=7"))
           (lit "part=1&band=red") (lit "7")).
  - reflexivity.
  - reflexivity.
  - discriminate.
  - reflexivity.
  - reflexivity.
  - reflexivity.
Defined.

Lemma scan_digits_stop (d : Decimal.uint) (acc : N) (p c : char) (r : str) :
  p <> 95 -> Unicode.ascii_digit c = false -> c <> 95 ->
  PyInt.scan_digits (PyInt.digits d ++ c :: r) acc (Some p)
  = Some (PyInt.horner d acc, c :: r).
Proof.
  intros Hp Hc Hu. revert acc p Hp.
  induction d as [|d IH|d IH|d IH|d IH|d IH|d IH|d IH|d IH|d IH|d IH];
    intros acc p Hp; simpl.
  1: { apply N.eqb_neq in Hp, Hu. now rewrite Hc, Hu, Hp. }
  all: rewrite IH by discriminate; repeat f_equal; lia.
Qed.

Lemma scan_digits_start_stop (d : Decimal.uint) (c : char) (r : str) :
  d <> Decimal.Nil -> Unicode.ascii_digit c = false -> c <> 95 ->
  PyInt.scan_digits (PyInt.digits d ++ c :: r) 0 None
  = Some (PyInt.horner d 0, c :: r).
Proof.
  intros Hd Hc Hu.
  destruct d; [congruence | ..]; simpl;
    rewrite scan_digits_stop by (discriminate || assumption); reflexivity.
Qed.

Lemma isascii_app (a b : str) : Str.isascii (a ++ b) = Str.isascii a && Str.isascii b.
Proof. apply forallb_app. Qed.

(** Text that goes on after the decimal text of an integer with a
    character that is neither a digit, an underscore nor white space is no
    integer literal. *)
Lemma parse_decimal_text_more (h : host) (n : Z) (c : char) (r : str) :
  Unicode.ascii_digit c = false -> c <> 95 -> PyInt.ascii_space c = false ->
  Str.isascii (c :: r) = true ->
  PyInt.parse h (PyInt.decimal_text n ++ c :: r) = None.
Proof.
  intros Hc Hu Hs Ha.
  unfold PyInt.parse, PyInt.int, PyInt.to_ascii_decimal.
  rewrite isascii_app, isascii_decimal_text, Ha.
  cbn [andb]. unfold PyInt.decimal_text.
  pose proof (to_int_nonnil n) as Hd.
  destruct (Z.to_int n) as [d|d].
  - assert (Hl : Str.lstrip PyInt.ascii_space (PyInt.digits d ++ c :: r)
                 = PyInt.digits d ++ c :: r) by now destruct d.
    assert (Hg : PyInt.split_sign (PyInt.digits d ++ c :: r)
                 = (false, PyInt.digits d ++ c :: r)) by now destruct d.
    rewrite Hl, Hg, (scan_digits_start_stop d c r Hd Hc Hu).
    destruct (PyInt.exceeds_max_str_digits h _ _); [reflexivity|].
    cbn [Str.lstrip]. now rewrite Hs.
  - change (Str.lstrip PyInt.ascii_space ((45 :: PyInt.digits d) ++ c :: r))
      with (45 :: PyInt.digits d ++ c :: r).
    cbn [PyInt.split_sign]. rewrite (scan_digits_start_stop d c r Hd Hc Hu).
    destruct (PyInt.exceeds_max_str_digits h _ _); [reflexivity|].
    cbn [Str.lstrip]. now rewrite Hs.
Qed.

(** X6. A part suffix is not replaced by a second one: when [mk_part_uri]
    is applied to what it returned for [u] and [n], the fragment of the
    result starts at the first [#], so its part is the text [n#part=m] and
    not an integer. *)
Theorem get_part_from_uri_twice (h : host) (u r1 r2 : str) (n m : Z) :
  Str.mem 35 u = false ->
  mk_part_uri h u n = Ok r1 -> mk_part_uri h r1 m = Ok r2 ->
  get_part_from_uri h r2
  = let* _ := UrlParse.urlparse h u in
    Ok (VStr (PyInt.decimal_text n ++ lit "#part=" ++ PyInt.decimal_text m)).
Proof.
  intros Hu [-> _]%mk_part_uri_ok [-> _]%mk_part_uri_ok. unfold get_part_from_uri.
  set (raw := PyInt.decimal_text n ++ 35 :: lit "part=" ++ PyInt.decimal_text m).
  assert (E : (u ++ lit "#part=" ++ PyInt.decimal_text n) ++ lit "#part=" ++ PyInt.decimal_text m
              = u ++ 35 :: (lit "part=" ++ raw)).
  { unfold raw. now rewrite <- app_assoc. }
  rewrite E. clear E.
  assert (Hmem : forall c, Str.mem c (lit "#part=") = false ->
                   Unicode.ascii_digit c || (c =? 45) = false -> Str.mem c raw = false).
  { intros c H1 H2. unfold raw. rewrite mem_app, decimal_text_mem by assumption.
    change (35 :: lit "part=" ++ PyInt.decimal_text m) with (lit "#part=" ++ PyInt.decimal_text m).
    now rewrite mem_app, H1, decimal_text_mem. }
  assert (Hne : raw <> []).
  { unfold raw. pose proof (decimal_text_nonempty n). now destruct (PyInt.decimal_text n). }
  rewrite urlparse_fragment; [| |rewrite mem_app; now rewrite Hmem|assumption].
  - destruct (UrlParse.urlparse h u) as [c|e]; [|reflexivity].
    cbn [bind with_fragment fragment].
    rewrite parse_qsl_part by (assumption || now apply Hmem).
    rewrite dict_single. apply maybe_int_text. unfold raw.
    apply parse_decimal_text_more; try reflexivity; try discriminate.
    change (Str.isascii (lit "#part=" ++ PyInt.decimal_text m) = true).
    now rewrite isascii_app, isascii_decimal_text.
  - rewrite forallb_app. apply andb_true_iff. split; [reflexivity|].
    unfold raw. rewrite forallb_app. apply andb_true_iff. split.
    + pose proof (part_suffix_safe n) as H. rewrite forallb_app in H.
      now apply andb_true_iff in H as [_ H].
    + change (35 :: lit "part=" ++ PyInt.decimal_text m)
        with ([35] ++ lit "part=" ++ PyInt.decimal_text m).
      rewrite forallb_app. apply andb_true_iff. split; [reflexivity|].
      apply part_suffix_safe.
Qed.

(** X6, the witness. *)
Lemma get_part_from_uri_twice_witness :
  get_part_from_uri posix_host (lit "file:///x.nc#part=1#part=2")
  = Ok (VStr (lit "1#part=2")).
Proof.
  apply (get_part_from_uri_twice posix_host (lit "file:///x.nc")
           (lit "file:///x.nc#part=1") _ 1 2); reflexivity.
Defined.

(** ** UTF-8 and percent-encoding, there and back *)

Ltac ndiv := zify; Z.to_euclidean_division_equations; lia.

Ltac b2p :=
  repeat first
    [ rewrite andb_true_iff | rewrite orb_true_iff | rewrite negb_true_iff
    | rewrite andb_false_iff | rewrite orb_false_iff
    | rewrite N.eqb_eq | rewrite N.eqb_neq | rewrite N.ltb_lt | rewrite N.ltb_ge
    | rewrite N.leb_le | rewrite N.leb_gt ].






Lemma fsencode_cons (c : char) (s : str) :
  Codec.fsencode (c :: s)
  = let* b := Codec.fsencode_char c in
    let* bs := Codec.fsencode s in Ok (b ++ bs).
Proof.
  unfold Codec.fsencode. cbn [map_result].
  destruct (Codec.fsencode_char c) as [b|e]; [|reflexivity]. cbn [bind].
  now destruct (map_result Codec.fsencode_char s).
Qed.


Lemma fsencode_char_bytes (c : char) (b : bytes) :
  Codec.fsencode_char c = Ok b -> Forall (fun x => x < 256) b.
Proof.
  unfold Codec.fsencode_char.
  destruct (c <? 128) eqn:E1.
  { apply N.ltb_lt in E1. intros [= <-]. repeat constructor. lia. }
  destruct (c <? 2048) eqn:E2.
  { apply N.ltb_lt in E2. intros [= <-]. repeat constructor; ndiv. }
  destruct ((56448 <=? c) && (c <=? 56575)) eqn:E3.
  { revert E3. b2p. intros E3 [= <-]. repeat constructor. lia. }
  destruct ((55296 <=? c) && (c <=? 57343)); [discriminate|].
  destruct (c <? 65536) eqn:E4.
  { apply N.ltb_lt in E4. intros [= <-]. repeat constructor; ndiv. }
  destruct (c <? 1114112) eqn:E5; [|discriminate].
  apply N.ltb_lt in E5. intros [= <-]. repeat constructor; ndiv.
Qed.

Lemma fsencode_bytes (s : str) (bs : bytes) :
  Codec.fsencode s = Ok bs -> Forall (fun x => x < 256) bs.
Proof.
  revert bs. induction s as [|c s IH]; intros bs.
  - intros [= <-]. constructor.
  - rewrite fsencode_cons.
    destruct (Codec.fsencode_char c) as [b|e] eqn:Hb; [|discriminate]. cbn [bind].
    destruct (Codec.fsencode s) as [bs'|e]; [|discriminate]. cbn [bind].
    intros [= <-]. apply Forall_app. split; [now apply (fsencode_char_bytes c) | now apply IH].
Qed.


Lemma split_cons_sep (c : char) (s : str) : Str.split c (c :: s) = [] :: Str.split c s.
Proof. cbn [Str.split]. now rewrite N.eqb_refl. Qed.



Lemma hexdigit_safe (v : N) : v < 16 -> Codec.quote_safe (Unicode.hexdigit v) = true.
Proof.
  intros Hv.
  unfold Unicode.hexdigit, Codec.quote_safe, Unicode.ascii_alpha, Unicode.ascii_upper,
    Unicode.ascii_lower, Unicode.ascii_digit.
  destruct (v <? 10) eqn:E; revert E; b2p; lia.
Qed.

Lemma quote_from_bytes_cons (b : N) (bs : bytes) :
  Codec.quote_from_bytes (b :: bs)
  = (if Codec.quote_safe b then [b]
     else [37; Unicode.hexdigit (b / 16); Unicode.hexdigit (b mod 16)])
    ++ Codec.quote_from_bytes bs.
Proof. reflexivity. Qed.

(** Every character that [quote_from_bytes] writes is a safe one or belongs
    to an escape. *)
Lemma quote_from_bytes_chars (bs : bytes) :
  Forall (fun x => x < 256) bs ->
  forallb url_path_char (Codec.quote_from_bytes bs) = true.
Proof.
  induction 1 as [|b bs Hb _ IH]; [reflexivity|].
  rewrite quote_from_bytes_cons, forallb_app, IH, andb_true_r.
  destruct (Codec.quote_safe b) eqn:E; cbn [forallb]; unfold url_path_char.
  - now rewrite E.
  - rewrite !hexdigit_safe by ndiv. reflexivity.
Qed.







(** ** File URLs as [as_uri] writes them *)

Lemma url_path_char_mem (c : char) (s : str) :
  url_path_char c = false -> forallb url_path_char s = true -> Str.mem c s = false.
Proof. apply forallb_not_mem. Qed.

Lemma url_path_char_kept (s : str) :
  forallb url_path_char s = true ->
  forallb (fun c => negb (UrlParse.unsafe_url_byte c)) s = true.
Proof.
  rewrite !forallb_forall. intros H c Hc. specialize (H c Hc).
  destruct (UrlParse.unsafe_url_byte c) eqn:E; [|reflexivity].
  unfold UrlParse.unsafe_url_byte in E. revert E. b2p.
  intros [[-> | ->] | ->]; discriminate.
Qed.

(** The parse of a [file] URL with an empty network location whose path
    holds characters of [as_uri] only: the path is all there is. *)
Lemma urlparse_file_path (h : host) (q : str) :
  forallb url_path_char (47 :: q) = true ->
  UrlParse.urlparse h (lit "file://" ++ 47 :: q)
  = Ok (mkParseResult (lit "file") [] (47 :: q) [] [] []).
Proof.
  intros Hq. unfold UrlParse.urlparse, UrlParse.urlsplit.
  assert (Hsan : UrlParse.sanitize (lit "file://" ++ 47 :: q) = lit "file://" ++ 47 :: q).
  { unfold UrlParse.sanitize.
    change (Str.lstrip UrlParse.c0_control_or_space (lit "file://" ++ 47 :: q))
      with (lit "file://" ++ 47 :: q).
    apply filter_all. rewrite forallb_app. apply andb_true_iff.
    split; [reflexivity | now apply url_path_char_kept]. }
  rewrite Hsan.
  assert (Hsch : UrlParse.split_scheme (lit "file://" ++ 47 :: q)
                 = (lit "file", 47 :: 47 :: 47 :: q)) by reflexivity.
  rewrite Hsch.
  assert (Hauth : UrlParse.split_authority h (47 :: 47 :: 47 :: q) = Ok ([], 47 :: q))
    by reflexivity.
  rewrite Hauth. cbn [bind].
  rewrite (cut_none 35 (47 :: q)) by (now apply url_path_char_mem).
  rewrite (cut_none 63 (47 :: q)) by (now apply url_path_char_mem).
  reflexivity.
Qed.

(** ** Paths as [pathlib] builds them *)

Lemma part_name_spec (x : str) :
  part_name x = true <->
  x <> [] /\ x <> Pathlib.dot /\ Str.mem Pathlib.slash x = false.
Proof.
  unfold part_name.
  rewrite !andb_true_iff, !negb_true_iff, nonempty_true, !str_eqb_false. tauto.
Qed.

Lemma plain_name_part_name (names : list str) :
  forallb plain_name names = true -> forallb part_name names = true.
Proof.
  rewrite !forallb_forall. intros H x Hx. specialize (H x Hx).
  apply plain_name_spec in H. apply part_name_spec. tauto.
Qed.

Lemma segments_part_names (rel : str) :
  forallb part_name (Pathlib.segments rel) = true.
Proof.
  unfold Pathlib.segments. pose proof (split_pieces Pathlib.slash rel) as H.
  induction H as [|x l Hx _ IH]; [reflexivity|]. cbn [List.filter].
  destruct (Pathlib.nonempty x && negb (Str.eqb x Pathlib.dot)) eqn:E; [|exact IH].
  cbn [forallb]. rewrite IH, andb_true_r. unfold part_name. now rewrite E, Hx.
Qed.

Lemma parse_rev_names (args : list str) :
  forallb part_name (snd (Pathlib.parse_rev args)) = true.
Proof.
  induction args as [|a args IH]; cbn [Pathlib.parse_rev]; [reflexivity|].
  destruct (Pathlib.nonempty a); [|exact IH].
  destruct (Pathlib.splitroot a) as [rt rel].
  destruct (Pathlib.nonempty rt).
  - cbn [snd]. rewrite forallb_rev. apply segments_part_names.
  - destruct (Pathlib.parse_rev args) as [rt' more]. cbn [snd] in *.
    rewrite forallb_app, forallb_rev, segments_part_names, IH. reflexivity.
Qed.

(** An absolute path that [pathlib] parses has its root as first part and
    names after it. *)
Lemma parse_parts_absolute (args : list str) :
  Pathlib.is_absolute (Pathlib.parse_parts args) = true ->
  absolute_path (Pathlib.parse_parts args).
Proof.
  intros Ha. split; [now apply parse_parts_root|]. revert Ha.
  unfold Pathlib.parse_parts, Pathlib.is_absolute.
  pose proof (parse_rev_names (rev args)) as Hn.
  destruct (Pathlib.parse_rev (rev args)) as [rt parsed]. cbn [snd root parts] in *.
  intros ->. exists (rev parsed). split.
  - now rewrite rev_app_distr.
  - now rewrite forallb_rev.
Qed.


Lemma filter_forallb {A : Type} (f : A -> bool) (l : list A) :
  forallb f l = true -> List.filter f l = l.
Proof.
  induction l as [|a l IH]; [reflexivity|]. cbn [forallb List.filter].
  intros [-> Hl]%andb_true_iff. now rewrite IH.
Qed.

Lemma segments_join_part_names (names : list str) :
  forallb part_name names = true ->
  Pathlib.segments (Str.join Pathlib.slash names) = names.
Proof.
  intros H. unfold Pathlib.segments. destruct names as [|a names]; [reflexivity|].
  assert (Hs : Forall (fun x => Str.mem Pathlib.slash x = false) (a :: names)).
  { apply List.Forall_forall. intros x Hx.
    apply (proj1 (forallb_forall _ _) H), part_name_spec in Hx. tauto. }
  rewrite split_join; [|discriminate|assumption].
  apply filter_forallb. rewrite forallb_forall in *. intros x Hx.
  specialize (H x Hx). apply part_name_spec in H as (H1 & H2 & _).
  apply nonempty_true in H1. apply str_eqb_false in H2. now rewrite H1, H2.
Qed.


Lemma rooted_repeat (p : PosixPath) :
  rooted p -> exists k, (k = 1%nat \/ k = 2%nat) /\ root p = repeat Pathlib.slash k.
Proof. intros [H | H]; [exists 1%nat | exists 2%nat]; auto. Qed.

Lemma to_str_absolute_path (p : PosixPath) (names : list str) :
  rooted p -> parts p = root p :: names ->
  Pathlib.to_str p = root p ++ Str.join Pathlib.slash names.
Proof.
  intros Hr Hp. unfold Pathlib.to_str. rewrite Hp. cbn [tail].
  destruct Hr as [-> | ->]; reflexivity.
Qed.


(** ** From a path to a URL and back *)

Lemma make_parsed (v : value) (p : PosixPath) :
  Path.make v = Ok p -> exists args, p = Pathlib.parse_parts args.
Proof. destruct v; try discriminate; intros [= <-]; eauto. Qed.

Lemma absolute_parsed (h : host) (p a : PosixPath) :
  (exists args, p = Pathlib.parse_parts args) ->
  Path.absolute h p = Ok a -> exists args, a = Pathlib.parse_parts args.
Proof.
  intros Hp. unfold Path.absolute. destruct (Pathlib.is_absolute p).
  - now intros [= <-].
  - destruct (getcwd h); [|discriminate]. cbn [bind]. intros [= <-]. eauto.
Qed.

(** What [as_url] makes of a value that is not a URL: the absolute path of
    the value, its file-system bytes percent-encoded after [file://]. *)
Lemma as_url_of_path (h : host) (v r : value) :
  is_url v = Ok false -> as_url h v = Ok r ->
  exists a b,
    (let* p := Path.make v in Path.absolute h p) = Ok a
    /\ absolute_path a
    /\ Codec.fsencode (Pathlib.to_str a) = Ok b
    /\ r = VStr (lit "file://" ++ Codec.quote_from_bytes b).
Proof.
  unfold as_url. intros -> H. cbn [bind] in H.
  destruct (Path.make v) as [p|e] eqn:Hp; [|discriminate]. cbn [bind] in *.
  destruct (Path.absolute h p) as [a|e] eqn:Ha; [|discriminate]. cbn [bind] in H.
  destruct (Path.as_uri a) as [uri|e] eqn:Hu; [|discriminate]. cbn [bind] in H.
  injection H as <-. apply as_uri_shape in Hu as (Habs & b & Hb & ->).
  exists a, b. split; [reflexivity|]. split; [|now split].
  destruct (absolute_parsed h p a (make_parsed v p Hp) Ha) as [args ->].
  now apply parse_parts_absolute.
Qed.

Lemma absolute_path_text (a : PosixPath) :
  absolute_path a -> exists t, Pathlib.to_str a = 47 :: t.
Proof.
  intros (Hr & names & Hp & _). rewrite (to_str_absolute_path a names Hr Hp).
  destruct Hr as [-> | ->]; cbn [app]; eauto.
Qed.

(** The text of a URL that [as_url] makes of a path: [file:///] and
    characters of the URL path only. *)
Lemma as_url_text (h : host) (v r : value) :
  is_url v = Ok false -> as_url h v = Ok r ->
  exists a b q,
    (let* p := Path.make v in Path.absolute h p) = Ok a
    /\ absolute_path a
    /\ Codec.fsencode (Pathlib.to_str a) = Ok b
    /\ Codec.quote_from_bytes b = 47 :: q
    /\ forallb url_path_char (47 :: q) = true
    /\ r = VStr (lit "file://" ++ 47 :: q).
Proof.
  intros Hv Hr. destruct (as_url_of_path h v r Hv Hr) as (a & b & Ha & Hp & Hb & ->).
  destruct (absolute_path_text a Hp) as [t Ht].
  pose proof (quote_from_bytes_chars b (fsencode_bytes _ b Hb)) as Hq.
  pose proof Hb as Hb'. rewrite Ht, fsencode_cons in Hb'.
  change (Codec.fsencode_char 47) with (@Ok bytes [47]) in Hb'. cbn [bind] in Hb'.
  destruct (Codec.fsencode t) as [bt|e]; [|discriminate]. cbn [bind app] in Hb'.
  injection Hb' as <-.
  exists a, (47 :: bt), (Codec.quote_from_bytes bt).
  split; [assumption|]. split; [assumption|]. split; [assumption|].
  split; [reflexivity|]. split; [exact Hq | reflexivity].
Qed.

(** X7. On a POSIX host the URL that [as_url] makes of a path is
    [file:///] followed by letters, digits, [_ . - ~ /] and percent
    escapes only: it holds no [#], [?] or white space, and the URL parser
    reads it as a [file] URL with an empty network location and no query
    or fragment. *)
Theorem as_url_file_url (h : host) (v r : value) :
  os_name h = Posix ->
  is_url v = Ok false -> as_url h v = Ok r ->
  exists q,
    r = VStr (lit "file:///" ++ q)
    /\ forallb url_path_char q = true
    /\ UrlParse.urlparse h (lit "file:///" ++ q)
       = Ok (mkParseResult (lit "file") [] (47 :: q) [] [] []).
Proof.
  intros _ Hv Hr.
  destruct (as_url_text h v r Hv Hr) as (a & b & q & _ & _ & _ & _ & Hq & ->).
  exists q. split; [reflexivity|]. split.
  - cbn [forallb] in Hq. now apply andb_true_iff in Hq as [_ Hq].
  - now apply urlparse_file_path.
Qed.

(** X7, the witness. *)
Lemma as_url_file_url_witness :
  exists q,
    VStr (lit "file:///home/user/work/a%20b.nc") = VStr (lit "file:///" ++ q)
    /\ forallb url_path_char q = true
    /\ UrlParse.urlparse posix_host (lit "file:///" ++ q)
       = Ok (mkParseResult (lit "file") [] (47 :: q) [] [] []).
Proof.
  apply (as_url_file_url posix_host (VStr (lit "a b.nc"))); reflexivity.
Defined.

(** X8. On a POSIX host a part written onto the URL of a path is read
    back: for a value that is not a URL and that [as_url] turns into [u],
    whenever [mk_part_uri u n] returns a locator, the part of that locator
    is [n]. *)
Theorem get_part_from_uri_as_url (h : host) (v : value) (u r : str) (n : Z) :
  os_name h = Posix ->
  is_url v = Ok false -> as_url h v = Ok (VStr u) ->
  mk_part_uri h u n = Ok r ->
  get_part_from_uri h r = Ok (VInt n).
Proof.
  intros _ Hv Hr [-> Hint]%mk_part_uri_ok.
  destruct (as_url_text h v _ Hv Hr) as (a & b & q & _ & _ & _ & _ & Hq & Hu').
  assert (E : u = lit "file://" ++ 47 :: q) by congruence. subst u. clear Hu'.
  assert (Hu : Str.mem 35 (lit "file://" ++ 47 :: q) = false).
  { rewrite mem_app. now rewrite (url_path_char_mem 35 (47 :: q)). }
  rewrite get_part_from_uri_decimal_text by assumption.
  now rewrite urlparse_file_path.
Qed.

(** X8, the witness. *)
Lemma get_part_from_uri_as_url_witness :
  get_part_from_uri posix_host (lit "file:///home/user/work/a%20b.nc#part=12")
  = Ok (VInt 12).
Proof.
  apply (get_part_from_uri_as_url posix_host (VStr (lit "a b.nc"))
           (lit "file:///home/user/work/a%20b.nc")); reflexivity.
Defined.



(** ** Further properties of the path normaliser *)

Lemma normpath_fold_names (k : nat) (names stack : list str) :
  forallb plain_name names = true ->
  fold_left (Pathlib.normpath_step k) names stack = rev names ++ stack.
Proof.
  revert stack. induction names as [|a names IH]; intros stack; [reflexivity|].
  cbn [forallb fold_left rev]. intros [Ha Hn]%andb_true_iff.
  rewrite IH by assumption. rewrite <- app_assoc. cbn [app]. do 2 f_equal.
  apply plain_name_spec in Ha as (H1 & H2 & H3 & _).
  apply nonempty_true in H1. apply str_eqb_false in H2, H3.
  unfold Pathlib.normpath_step. now rewrite H1, H2, H3.
Qed.

Lemma normpath_fold_join (k : nat) (names stack : list str) :
  forallb plain_name names = true ->
  fold_left (Pathlib.normpath_step k)
    (Str.split Pathlib.slash (Str.join Pathlib.slash names)) stack
  = rev names ++ stack.
Proof.
  intros Hn. destruct names as [|a names]; [reflexivity|].
  rewrite split_join by (discriminate || now apply plain_names_no_slash).
  now apply normpath_fold_names.
Qed.

Lemma join_no_leading_slash (names : list str) :
  forallb plain_name names = true ->
  Str.startswith [Pathlib.slash] (Str.join Pathlib.slash names) = false.
Proof.
  destruct names as [|a names]; [reflexivity|]. cbn [forallb].
  intros [Ha _]%andb_true_iff. apply plain_name_spec in Ha as (Hne & _ & _ & Hs).
  destruct a as [|c a]; [congruence|].
  unfold Str.mem in Hs. cbn [existsb] in Hs. apply orb_false_iff in Hs as [Hc _].
  destruct names; cbn [Str.join app Str.startswith]; now rewrite Hc.
Qed.

(** [normpath] leaves a text in normal form as it is. *)
Lemma normpath_normal_text (k : nat) (names : list str) :
  k = 1%nat \/ k = 2%nat -> forallb plain_name names = true ->
  Pathlib.normpath (repeat Pathlib.slash k ++ Str.join Pathlib.slash names)
  = repeat Pathlib.slash k ++ Str.join Pathlib.slash names.
Proof.
  intros Hk Hn. pose proof (join_no_leading_slash names Hn) as Hj.
  pose proof (normpath_fold_join k names [] Hn) as Hf. rewrite app_nil_r in Hf.
  unfold Pathlib.normpath, Pathlib.slash in *.
  set (j := Str.join 47 names) in *.
  destruct Hk as [-> | ->]; cbn [repeat app Pathlib.nonempty negb].
  - assert (E : Str.startswith [47; 47] (47 :: j) = false).
    { cbn [Str.startswith] in *. now rewrite N.eqb_refl. }
    rewrite E. change (Str.startswith [47] (47 :: j)) with true. cbv iota.
    cbn [andb]. cbv iota. rewrite split_cons_sep. cbn [fold_left].
    change (Pathlib.normpath_step 1 [] []) with (@nil str).
    rewrite Hf, rev_involutive. reflexivity.
  - assert (E : Str.startswith [47; 47; 47] (47 :: 47 :: j) = false).
    { cbn [Str.startswith] in *. now rewrite !N.eqb_refl. }
    rewrite E. change (Str.startswith [47] (47 :: 47 :: j)) with true.
    change (Str.startswith [47; 47] (47 :: 47 :: j)) with true. cbn [andb negb]. cbv iota.
    rewrite !split_cons_sep. cbn [fold_left].
    change (Pathlib.normpath_step 2 [] []) with (@nil str).
    change (Pathlib.normpath_step 2 [] []) with (@nil str).
    rewrite Hf, rev_involutive. reflexivity.
Qed.

(** A path in lexical normal form is its own normal form. *)
Lemma norm_fixed (q : PosixPath) : lexically_normal q -> norm q = q.
Proof.
  intros (Hr & names & Hp & Hn). unfold norm.
  rewrite (to_str_absolute_path q names Hr Hp).
  destruct (rooted_repeat q Hr) as (k & Hk & Hroot).
  destruct q as [rt ps]. cbn [root parts] in *. subst rt ps.
  rewrite normpath_normal_text by assumption.
  now apply of_str_normal_text.
Qed.

(** X10. On a POSIX host [normalise_path] leaves a path in lexical normal
    form (absolute, without [.], [..] or empty names) as it is, whatever
    the base. *)
Theorem normalise_path_fixed (h : host) (q : PosixPath) (base : option pathlike) :
  os_name h = Posix ->
  lexically_normal q -> normalise_path h (PPath q) base = Ok q.
Proof.
  intros _ Hq. rewrite normalise_path_of_absolute.
  - cbn [as_path]. now rewrite norm_fixed.
  - cbn [as_path]. unfold Pathlib.is_absolute.
    now destruct Hq as ([-> | ->] & _).
Qed.

(** X10, the witness. *)
Lemma normalise_path_fixed_witness :
  normalise_path posix_host (PPath (mkPath (lit "/") [lit "/"; lit "a"; lit "b.nc"])) None
  = Ok (mkPath (lit "/") [lit "/"; lit "a"; lit "b.nc"]).
Proof.
  apply (normalise_path_fixed posix_host (mkPath (lit "/") [lit "/"; lit "a"; lit "b.nc"])).
  - reflexivity.
  - split; [now left|]. exists [lit "a"; lit "b.nc"]. split; reflexivity.
Defined.

Lemma normalise_path_text_lexically_normal (h : host) (s b : str) (q : PosixPath) :
  normalise_path h (PStr s) (Some (PStr b)) = Ok q -> lexically_normal q.
Proof.
  destruct (Pathlib.is_absolute (as_path (PStr s))) eqn:Hs.
  - rewrite (normalise_path_of_absolute h _ _ Hs). intros [= <-].
    apply norm_lexically_normal. now apply parse_parts_root.
  - rewrite (normalise_path_of_relative h _ _ Hs).
    destruct (Pathlib.is_absolute (as_path (PStr b))) eqn:Hb; [|discriminate].
    intros [= <-]. apply norm_lexically_normal. cbn [as_path] in *.
    unfold Path.truediv, Pathlib.join_parsed_parts.
    destruct (Pathlib.nonempty (root (Pathlib.parse_parts (parts (Path.of_str s)))))
      eqn:E.
    + now apply parse_parts_root.
    + apply (parse_parts_root [b]). exact Hb.
Qed.

(** X11. On a POSIX host normalising is idempotent on text: whatever
    path [q] [normalise_path] makes of a path text and a base text is in
    lexical normal form, and normalising [q] again, against any base,
    gives [q]. *)
Theorem normalise_path_idempotent (h : host) (s b : str) (q : PosixPath)
    (base : option pathlike) :
  os_name h = Posix ->
  normalise_path h (PStr s) (Some (PStr b)) = Ok q ->
  lexically_normal q /\ normalise_path h (PPath q) base = Ok q.
Proof.
  intros _ Hq. pose proof (normalise_path_text_lexically_normal h s b q Hq) as Hn.
  split; [assumption|]. rewrite normalise_path_of_absolute.
  - cbn [as_path]. now rewrite norm_fixed.
  - cbn [as_path]. unfold Pathlib.is_absolute.
    now destruct Hn as ([-> | ->] & _).
Qed.

(** X11, the witness. *)
Lemma normalise_path_idempotent_witness :
  lexically_normal (Path.of_str (lit "/a/x/y"))
  /\ normalise_path posix_host (PPath (Path.of_str (lit "/a/x/y"))) None
     = Ok (Path.of_str (lit "/a/x/y")).
Proof.
  apply (normalise_path_idempotent posix_host (lit "../x/./y") (lit "/a/b"));
    reflexivity.
Defined.

(** ** Further properties of the base directory *)

(** X12. On a POSIX host whatever [default_base_dir] returns is the
    resolved working directory or a [PWD] that can be trusted: set,
    absolute, and resolving to the working directory.  An unset, relative,
    unresolvable or stale [PWD] is never returned. *)
Theorem default_base_dir_sound (h : host) (r : PosixPath) :
  os_name h = Posix ->
  default_base_dir h = Ok r ->
  exists cwd,
    Path.resolve h (Path.of_str (lit ".")) = Ok cwd
    /\ (r = cwd \/ exists pwd, pwd_trusted h cwd pwd /\ r = Path.of_str pwd).
Proof.
  unfold default_base_dir. change (Path.of_str [46]) with (Path.of_str (lit ".")).
  destruct (Path.resolve h (Path.of_str (lit "."))) as [cwd|e]; [|intros _; discriminate].
  cbn [bind]. intros _ H. exists cwd. split; [reflexivity|].
  destruct (environ h !! lit "PWD") as [pwd|] eqn:Henv; [|left; congruence].
  destruct (Pathlib.is_absolute (Path.of_str pwd)) eqn:Habs; cbn [negb] in H;
    [|left; congruence].
  destruct (Path.resolve h (Path.of_str pwd)) as [r'|e] eqn:Hres;
    cbn [bind try_except] in H.
  - destruct (Pathlib.eqb cwd r') eqn:Heq; cbn [negb bind try_except] in H;
      [|left; congruence].
    right. exists pwd. split; [|congruence].
    split; [assumption|]. split; [assumption|]. exists r'. split; [assumption|].
    unfold Pathlib.eqb in Heq. apply bool_decide_eq_true in Heq. congruence.
  - destruct (isinstance_IOError e); [left; congruence | discriminate].
Qed.

(** X12, the witness. *)
Lemma default_base_dir_sound_witness :
  exists cwd,
    Path.resolve symlink_host (Path.of_str (lit ".")) = Ok cwd
    /\ (Path.of_str (lit "/home/user/link") = cwd
        \/ exists pwd, pwd_trusted symlink_host cwd pwd
                       /\ Path.of_str (lit "/home/user/link") = Path.of_str pwd).
Proof.
  apply (default_base_dir_sound symlink_host (Path.of_str (lit "/home/user/link")));
    reflexivity.
Defined.

(** X13. On a POSIX host [default_base_dir] raises in two cases only:
    resolving the working directory raises, or [PWD] is set to an absolute
    path whose resolution raises something that is no [IOError]; it then
    raises that same exception.  An [IOError] from resolving [PWD] is
    never passed on. *)
Theorem default_base_dir_raises (h : host) (e : exn) :
  os_name h = Posix ->
  default_base_dir h = Raise e <->
  Path.resolve h (Path.of_str (lit ".")) = Raise e
  \/ exists cwd pwd,
       Path.resolve h (Path.of_str (lit ".")) = Ok cwd
       /\ environ h !! lit "PWD" = Some pwd
       /\ Pathlib.is_absolute (Path.of_str pwd) = true
       /\ Path.resolve h (Path.of_str pwd) = Raise e
       /\ isinstance_IOError e = false.
Proof.
  intros _.
  unfold default_base_dir. change (Path.of_str [46]) with (Path.of_str (lit ".")).
  destruct (Path.resolve h (Path.of_str (lit "."))) as [cwd|e0]; cbn [bind].
  2: { split; [intros [= ->]; now left|].
       intros [[= ->] | (cwd & pwd & [=] & _)]. reflexivity. }
  split.
  - intros H. right. exists cwd.
    destruct (environ h !! lit "PWD") as [pwd|]; [|discriminate].
    exists pwd.
    destruct (Pathlib.is_absolute (Path.of_str pwd)); cbn [negb] in H; [|discriminate].
    destruct (Path.resolve h (Path.of_str pwd)) as [r'|e']; cbn [bind try_except] in H.
    + destruct (Pathlib.eqb cwd r'); cbn [negb bind try_except] in H; discriminate.
    + destruct (isinstance_IOError e') eqn:He; [discriminate|].
      injection H as ->. repeat split; assumption.
  - intros [[=] | (cwd' & pwd & [= <-] & -> & -> & -> & He)].
    cbn [negb bind try_except]. now rewrite He.
Qed.

(** X13, the witness. *)
Lemma default_base_dir_raises_witness :
  default_base_dir looping_host = Raise RuntimeError <->
  Path.resolve looping_host (Path.of_str (lit ".")) = Raise RuntimeError
  \/ exists cwd pwd,
       Path.resolve looping_host (Path.of_str (lit ".")) = Ok cwd
       /\ environ looping_host !! lit "PWD" = Some pwd
       /\ Pathlib.is_absolute (Path.of_str pwd) = true
       /\ Path.resolve looping_host (Path.of_str pwd) = Raise RuntimeError
       /\ isinstance_IOError RuntimeError = false.
Proof. apply (default_base_dir_raises looping_host RuntimeError). reflexivity. Defined.

Lemma rooted_absolute (p : PosixPath) : rooted p -> Pathlib.is_absolute p = true.
Proof. unfold Pathlib.is_absolute. now intros [-> | ->]. Qed.

(** Where the working directory resolves to a rooted path and resolving
    [PWD] fails with an I/O error at most, the base directory is a rooted
    path. *)
Lemma default_base_dir_rooted (h : host) (cwd : PosixPath) :
  Path.resolve h (Path.of_str (lit ".")) = Ok cwd -> rooted cwd ->
  pwd_fails_with_io_only h ->
  exists b, default_base_dir h = Ok b /\ rooted b.
Proof.
  intros Hcwd Hr Hio. unfold default_base_dir.
  change (Path.of_str [46]) with (Path.of_str (lit ".")). rewrite Hcwd. cbn [bind].
  destruct (environ h !! lit "PWD") as [pwd|] eqn:Henv; [|eauto].
  destruct (Pathlib.is_absolute (Path.of_str pwd)) eqn:Habs; cbn [negb]; [|eauto].
  destruct (Path.resolve h (Path.of_str pwd)) as [r'|e] eqn:Hres; cbn [bind try_except].
  - destruct (Pathlib.eqb cwd r'); cbn [negb bind try_except]; [|eauto].
    exists (Path.of_str pwd). split; [reflexivity | now apply parse_parts_root].
  - rewrite (Hio pwd e Henv Habs Hres). eauto.
Qed.

(** X14. Without a base, on a POSIX host whose working directory resolves
    to a rooted path and where resolving [PWD] fails with an I/O error at
    most, [normalise_path] makes a path in lexical normal form of every
    path text. *)
Theorem normalise_path_no_base (h : host) (cwd : PosixPath) (s : str) :
  os_name h = Posix ->
  Path.resolve h (Path.of_str (lit ".")) = Ok cwd -> rooted cwd ->
  pwd_fails_with_io_only h ->
  exists q, normalise_path h (PStr s) None = Ok q /\ lexically_normal q.
Proof.
  intros _ Hcwd Hr Hio.
  destruct (Pathlib.is_absolute (as_path (PStr s))) eqn:Hs.
  { exists (norm (as_path (PStr s))).
    split; [now apply normalise_path_of_absolute|].
    apply norm_lexically_normal. now apply parse_parts_root. }
  pose proof (default_base_dir_rooted h cwd Hcwd Hr Hio) as Hbase.
  destruct Hbase as (b & Hb & Hrb).
  exists (norm (Path.truediv b (as_path (PStr s)))). split.
  - unfold normalise_path. cbn [fmap option_fmap option_map]. rewrite Hs, Hb. reflexivity.
  - apply norm_lexically_normal. cbn [as_path].
    unfold Path.truediv, Pathlib.join_parsed_parts.
    destruct (Pathlib.nonempty (root (Pathlib.parse_parts (parts (Path.of_str s)))))
      eqn:E; [now apply parse_parts_root | exact Hrb].
Qed.

(** X14, the witness. *)
Lemma normalise_path_no_base_witness :
  exists q, normalise_path symlink_host (PStr (lit "x/../y.nc")) None = Ok q
            /\ lexically_normal q.
Proof.
  apply (normalise_path_no_base symlink_host (Path.of_str (lit "/data/work"))).
  - reflexivity.
  - reflexivity.
  - now left.
  - intros pwd e _ _. unfold Path.resolve, symlink_host, fs_resolve, plain_resolve.
    destruct (Pathlib.eqb _ _); discriminate.
Defined.

(** ** Further properties of locators *)

Lemma mem_rev (c : char) (s : str) : Str.mem c (rev s) = Str.mem c s.
Proof.
  induction s as [|x s IH]; [reflexivity|]. cbn [rev].
  rewrite mem_app, IH. unfold Str.mem. cbn [existsb]. rewrite orb_false_r.
  apply orb_comm.
Qed.

Lemma rev_part_text (u : str) (n : Z) :
  rev (u ++ lit "#part=" ++ PyInt.decimal_text n)
  = (rev (PyInt.decimal_text n) ++ lit "=trap") ++ 35 :: rev u.
Proof. rewrite !rev_app_distr, <- !app_assoc. reflexivity. Qed.

(** X15. [mk_part_uri] is injective: a part-qualified locator determines
    both the locator and the index it was made from, whatever the locator
    holds. *)
Theorem mk_part_uri_injective (h : host) (u u' r : str) (n m : Z) :
  mk_part_uri h u n = Ok r -> mk_part_uri h u' m = Ok r -> u = u' /\ n = m.
Proof.
  intros [-> _]%mk_part_uri_ok [H _]%mk_part_uri_ok.
  apply (f_equal (fun s => Str.split1 35 (rev s))) in H. cbv beta in H.
  rewrite !rev_part_text in H.
  rewrite !split1_app in H
    by (rewrite mem_app, mem_rev; now rewrite decimal_text_mem).
  injection H as H1 H2. split.
  - rewrite <- (rev_involutive u), <- (rev_involutive u'). now f_equal.
  - apply app_inv_tail in H1. apply decimal_text_injective.
    rewrite <- (rev_involutive (PyInt.decimal_text n)), <- (rev_involutive (PyInt.decimal_text m)).
    now f_equal.
Qed.

(** X15, the witness. *)
Lemma mk_part_uri_injective_witness :
  lit "s3://bucket/key" = lit "s3://bucket/key" /\ 3%Z = 3%Z.
Proof.
  apply (mk_part_uri_injective posix_host (lit "s3://bucket/key") _
           (lit "s3://bucket/key#part=3")); reflexivity.
Defined.

Lemma urlsplit_no_colon (h : host) (s : str) (c : ParseResult) :
  Str.mem 58 s = false -> UrlParse.urlsplit h s = Ok c -> scheme c = [].
Proof.
  intros Hs. unfold UrlParse.urlsplit.
  assert (E : UrlParse.split_scheme (UrlParse.sanitize s) = ([], UrlParse.sanitize s)).
  { unfold UrlParse.split_scheme.
    now rewrite (proj2 (find_none_iff 58 _) (mem_sanitize 58 s Hs)). }
  rewrite E.
  destruct (UrlParse.split_authority h (UrlParse.sanitize s)) as [[nl r]|e];
    [|discriminate].
  cbn [bind]. destruct (UrlParse.cut 35 r) as [r1 f].
  destruct (UrlParse.cut 63 r1) as [r2 q].
  destruct (UrlParse.checknetloc nl); [|discriminate].
  cbn [bind]. now intros [= <-].
Qed.

Lemma urlparse_scheme (h : host) (s : str) (c : ParseResult) :
  UrlParse.urlparse h s = Ok c ->
  exists r, UrlParse.urlsplit h s = Ok r /\ scheme c = scheme r.
Proof.
  unfold UrlParse.urlparse.
  destruct (UrlParse.urlsplit h s) as [r|e]; [|discriminate]. cbn [bind].
  intros H. exists r. split; [reflexivity|].
  destruct (_ && _).
  - destruct (UrlParse.splitparams (path r)). now injection H as <-.
  - now injection H as <-.
Qed.

(** X16. A plain path is no locator of a local file: for a non-empty
    string without a colon, [uri_to_local_path] raises [ValueError] (only
    file URIs are supported; the scheme tried is the empty one), unless
    the URL parser itself raises. *)
Theorem uri_to_local_path_no_colon (h : host) (s : str) :
  s <> [] -> Str.mem 58 s = false ->
  uri_to_local_path h (Some s)
  = let* _ := UrlParse.urlparse h s in Raise (ValueError (OnlyFileURIs [])).
Proof.
  intros Hne Hs. unfold uri_to_local_path. destruct s as [|x s]; [congruence|].
  destruct (UrlParse.urlparse h (x :: s)) as [c|e] eqn:Hc; [|reflexivity].
  cbn [bind]. destruct (urlparse_scheme h _ c Hc) as (r & Hr & ->).
  now rewrite (urlsplit_no_colon h _ r Hs Hr).
Qed.

(** X16, the witness. *)
Lemma uri_to_local_path_no_colon_witness :
  uri_to_local_path posix_host (Some (lit "/tmp/x.txt"))
  = Raise (ValueError (OnlyFileURIs [])).
Proof.
  apply (uri_to_local_path_no_colon posix_host (lit "/tmp/x.txt")).
  - discriminate.
  - reflexivity.
Defined.

(** X17. [as_url] takes strings and paths only: for any other value
    ([None], a number, [bytes]) it raises [TypeError], as the [Path]
    constructor does; it does not return [None] for [None]. *)
Theorem as_url_type_error (h : host) (v : value) :
  (forall s, v <> VStr s) -> (forall p, v <> VPath p) ->
  as_url h v = Raise TypeError.
Proof.
  intros Hs Hp. unfold as_url. rewrite (is_url_other v Hs). cbn [bind].
  destruct v as [| | | |s|p]; try reflexivity.
  - now destruct (Hs s).
  - now destruct (Hp p).
Qed.

(** X17, the witness. *)
Lemma as_url_type_error_witness : as_url posix_host VNone = Raise TypeError.
Proof. apply (as_url_type_error posix_host VNone); discriminate. Defined.

(** ** White space before a URL *)

(** No white-space character belongs to the class [[\w\d\+]]. *)
Lemma isspace_not_token (c : char) :
  Unicode.isspace c = true -> scheme_token_char c = false.
Proof.
  unfold Unicode.isspace, Unicode.in_ranges, Unicode.space_ranges.
  cbn [existsb fst snd]. b2p. intros H.
  assert (E : c = 9 \/ c = 10 \/ c = 11 \/ c = 12 \/ c = 13
              \/ c = 28 \/ c = 29 \/ c = 30 \/ c = 31 \/ c = 32
              \/ c = 133 \/ c = 160 \/ c = 5760
              \/ c = 8192 \/ c = 8193 \/ c = 8194 \/ c = 8195 \/ c = 8196 \/ c = 8197
              \/ c = 8198 \/ c = 8199 \/ c = 8200 \/ c = 8201 \/ c = 8202
              \/ c = 8232 \/ c = 8233 \/ c = 8239 \/ c = 8287 \/ c = 12288) by lia.
  clear H.
  repeat (destruct E as [-> | E]; [vm_compute; reflexivity|]).
  subst c. vm_compute. reflexivity.
Qed.

Lemma url_shaped_space (c : char) (s : str) :
  Unicode.isspace c = true -> (url_shaped (c :: s) <-> url_shaped s).
Proof.
  intros Hc. split.
  - intros (ws & tok & rest & E & Hws & Htok & Hcls).
    destruct ws as [|c' ws].
    + destruct tok as [|t tok]; [congruence|]. cbn [app] in E. injection E as <- _.
      cbn [forallb] in Hcls. apply andb_true_iff in Hcls as [Ht _].
      rewrite (isspace_not_token c Hc) in Ht. discriminate.
    + cbn [app forallb] in *. injection E as <- ->.
      apply andb_true_iff in Hws as [_ Hws]. now exists ws, tok, rest.
  - intros (ws & tok & rest & -> & Hws & Htok & Hcls).
    exists (c :: ws), tok, rest. cbn [app forallb]. now rewrite Hc, Hws.
Qed.

(** X18. White space before a locator does not count: whatever white
    space [ws] stands before a string, the string with it is taken for a
    URL exactly when the string without it is. *)
Theorem is_url_skips_space (ws s : str) :
  forallb Unicode.isspace ws = true ->
  is_url (VStr (ws ++ s)) = is_url (VStr s).
Proof.
  intros Hws. rewrite !is_url_str. f_equal. apply eq_true_iff_eq.
  rewrite !match_URL_RE.
  induction ws as [|c ws IH]; [reflexivity|]. cbn [forallb app] in *.
  apply andb_true_iff in Hws as [Hc Hws].
  rewrite (url_shaped_space c _ Hc). now apply IH.
Qed.

(** X18, the witness. *)
Lemma is_url_skips_space_witness :
  is_url (VStr (lit "  " ++ lit "s3://bucket/key")) = is_url (VStr (lit "s3://bucket/key")).
Proof. apply (is_url_skips_space (lit "  ")). reflexivity. Defined.

(** ** Joining below a base *)

Lemma splitroot_name (x : str) :
  Str.mem Pathlib.slash x = false -> Pathlib.splitroot x = ([], x).
Proof.
  destruct x as [|c x]; [reflexivity|]. unfold Str.mem. cbn [existsb].
  intros [Hc _]%orb_false_iff. apply N.eqb_neq in Hc. unfold Pathlib.slash in Hc.
  unfold Pathlib.splitroot.
  destruct c as [|q]; [reflexivity|].
  do 6 (destruct q as [q|q|]; try reflexivity). congruence.
Qed.

Lemma parse_rev_of_names (l : list str) :
  forallb part_name l = true -> Pathlib.parse_rev l = ([], l).
Proof.
  induction l as [|a l IH]; [reflexivity|]. cbn [forallb Pathlib.parse_rev].
  intros [Ha Hl]%andb_true_iff.
  pose proof (segments_join_part_names [a]) as Hseg. cbn [forallb Str.join] in Hseg.
  rewrite Ha in Hseg. specialize (Hseg eq_refl).
  apply part_name_spec in Ha as (H1 & _ & H3). apply nonempty_true in H1.
  rewrite H1, (splitroot_name a H3). cbn [Pathlib.nonempty].
  rewrite (IH Hl), Hseg. reflexivity.
Qed.

(** A list of names parses to the relative path of these names. *)
Lemma parse_parts_of_names (names : list str) :
  forallb part_name names = true -> Pathlib.parse_parts names = mkPath [] names.
Proof.
  intros Hn. unfold Pathlib.parse_parts.
  rewrite parse_rev_of_names by now rewrite forallb_rev.
  cbn [Pathlib.nonempty]. now rewrite rev_involutive.
Qed.

(** X19. On a POSIX host names are appended below the base: for a base in
    lexical normal form and a relative path of plain names (no [.], no
    [..]), [normalise_path] returns the base with the names of the path
    after its own; the result lies below the base. *)
Theorem normalise_path_below_base (h : host) (p b : PosixPath) :
  os_name h = Posix ->
  lexically_normal b ->
  root p = [] -> forallb plain_name (parts p) = true ->
  normalise_path h (PPath p) (Some (PPath b))
  = Ok (mkPath (root b) (parts b ++ parts p)).
Proof.
  intros _ Hb Hroot Hnames.
  rewrite normalise_path_of_relative
    by (cbn [as_path]; unfold Pathlib.is_absolute; now rewrite Hroot).
  cbn [as_path]. destruct Hb as (Hr & names & Hparts & Hplain).
  rewrite (rooted_absolute b Hr). f_equal.
  unfold Path.truediv, Pathlib.join_parsed_parts.
  rewrite parse_parts_of_names by now apply plain_name_part_name.
  cbn [root parts Pathlib.nonempty]. apply norm_fixed. split; [exact Hr|].
  exists (names ++ parts p). cbn [root parts]. split.
  - now rewrite Hparts.
  - now rewrite forallb_app, Hplain, Hnames.
Qed.

(** X19, the witness. *)
Lemma normalise_path_below_base_witness :
  normalise_path posix_host (PPath (Path.of_str (lit "c/d.nc")))
    (Some (PPath (Path.of_str (lit "/a/b"))))
  = Ok (mkPath (lit "/") [lit "/"; lit "a"; lit "b"; lit "c"; lit "d.nc"]).
Proof.
  apply (normalise_path_below_base posix_host (Path.of_str (lit "c/d.nc"))
           (Path.of_str (lit "/a/b"))).
  - reflexivity.
  - split; [now left|]. exists [lit "a"; lit "b"]. split; reflexivity.
  - reflexivity.
  - reflexivity.
Defined.

(** ** The URL of a path object *)

Lemma parse_parts_absolute_parts (a : PosixPath) :
  absolute_path a -> Pathlib.parse_parts (parts a) = a.
Proof.
  intros (Hr & names & Hp & Hn). destruct a as [rt ps]. cbn [root parts] in *.
  subst ps. unfold Pathlib.parse_parts. cbn [rev]. 
  assert (E : Pathlib.parse_rev (rev names ++ [rt]) = (rt, rev names)).
  { assert (Hrev : forallb part_name (rev names) = true) by now rewrite forallb_rev.
    clear Hn. induction (rev names) as [|x l IH].
    - destruct Hr as [Hr | Hr]; cbn [root] in Hr; subst rt; reflexivity.
    - cbn [forallb] in Hrev. apply andb_true_iff in Hrev as [Hx Hl].
      cbn [app Pathlib.parse_rev].
      pose proof (segments_join_part_names [x]) as Hseg. cbn [forallb Str.join] in Hseg.
      rewrite Hx in Hseg. specialize (Hseg eq_refl).
      apply part_name_spec in Hx as (H1 & _ & H3). apply nonempty_true in H1.
      rewrite H1, (splitroot_name x H3). cbn [Pathlib.nonempty].
      rewrite (IH Hl), Hseg. reflexivity. }
  rewrite E.
  replace (Pathlib.nonempty rt) with true
    by (destruct Hr as [Hr | Hr]; cbn [root] in Hr; now subst rt).
  now rewrite rev_app_distr, rev_involutive.
Qed.

(** X20. On a POSIX host a string and the absolute path object it names
    have the same URL: when [as_url] turns a value that is not a URL into
    a URL, it turns the absolute path of that value into the same URL. *)
Theorem as_url_of_absolute (h : host) (v r : value) (a : PosixPath) :
  os_name h = Posix ->
  is_url v = Ok false -> as_url h v = Ok r ->
  (let* p := Path.make v in Path.absolute h p) = Ok a ->
  as_url h (VPath a) = Ok r.
Proof.
  intros _ Hv Hr Ha.
  destruct (as_url_of_path h v r Hv Hr) as (a' & b & Ha' & Hp & Hb & ->).
  assert (E : a' = a) by congruence. subst a'.
  unfold as_url. rewrite is_url_other by discriminate. cbn [bind Path.make].
  rewrite (parse_parts_absolute_parts a Hp).
  destruct Hp as (Hroot & _). pose proof (rooted_absolute a Hroot) as Habs.
  unfold Path.absolute. rewrite Habs. cbn [bind].
  unfold Path.as_uri. rewrite Habs, Hb. reflexivity.
Qed.

(** X20, the witness. *)
Lemma as_url_of_absolute_witness :
  as_url posix_host (VPath (Path.of_str (lit "/home/user/work/a b.nc")))
  = Ok (VStr (lit "file:///home/user/work/a%20b.nc")).
Proof.
  apply (as_url_of_absolute posix_host (VStr (lit "a b.nc"))); reflexivity.
Defined.

(** ** The base may be normalised first *)

Lemma join_part_names_no_leading_slash (names : list str) :
  forallb part_name names = true ->
  Str.startswith [Pathlib.slash] (Str.join Pathlib.slash names) = false.
Proof.
  destruct names as [|a names]; [reflexivity|]. cbn [forallb].
  intros [Ha _]%andb_true_iff. apply part_name_spec in Ha as (Hne & _ & Hs).
  destruct a as [|c a]; [congruence|].
  unfold Str.mem in Hs. cbn [existsb] in Hs. apply orb_false_iff in Hs as [Hc _].
  destruct names; cbn [Str.join app Str.startswith]; now rewrite Hc.
Qed.

Lemma split_join_part_names (names : list str) :
  forallb part_name names = true ->
  fold_left (Pathlib.normpath_step 1) (Str.split Pathlib.slash (Str.join Pathlib.slash names)) []
  = fold_left (Pathlib.normpath_step 1) names []
  /\ fold_left (Pathlib.normpath_step 2) (Str.split Pathlib.slash (Str.join Pathlib.slash names)) []
     = fold_left (Pathlib.normpath_step 2) names [].
Proof.
  intros Hn. destruct names as [|a names]; [split; reflexivity|].
  rewrite split_join; [split; reflexivity | discriminate |].
  apply List.Forall_forall. intros x Hx.
  apply (proj1 (forallb_forall _ _) Hn), part_name_spec in Hx. tauto.
Qed.

(** [normpath] on the text of an absolute path: the root stays, and the
    names go through the stack of [normpath] one by one. *)
Lemma normpath_absolute_text (k : nat) (names : list str) :
  k = 1%nat \/ k = 2%nat -> forallb part_name names = true ->
  Pathlib.normpath (repeat Pathlib.slash k ++ Str.join Pathlib.slash names)
  = repeat Pathlib.slash k
    ++ Str.join Pathlib.slash (rev (fold_left (Pathlib.normpath_step k) names [])).
Proof.
  intros Hk Hn. pose proof (join_part_names_no_leading_slash names Hn) as Hj.
  destruct (split_join_part_names names Hn) as [Hf1 Hf2].
  unfold Pathlib.normpath, Pathlib.slash in *.
  set (j := Str.join 47 names) in *.
  destruct Hk as [-> | ->]; cbn [repeat app Pathlib.nonempty negb].
  - assert (E : Str.startswith [47; 47] (47 :: j) = false).
    { cbn [Str.startswith] in *. now rewrite N.eqb_refl. }
    rewrite E. change (Str.startswith [47] (47 :: j)) with true. cbv iota.
    cbn [andb]. cbv iota. rewrite split_cons_sep. cbn [fold_left].
    change (Pathlib.normpath_step 1 [] []) with (@nil str).
    rewrite Hf1. reflexivity.
  - assert (E : Str.startswith [47; 47; 47] (47 :: 47 :: j) = false).
    { cbn [Str.startswith] in *. now rewrite !N.eqb_refl. }
    rewrite E. change (Str.startswith [47] (47 :: 47 :: j)) with true.
    change (Str.startswith [47; 47] (47 :: 47 :: j)) with true. cbn [andb negb]. cbv iota.
    rewrite !split_cons_sep. cbn [fold_left].
    change (Pathlib.normpath_step 2 [] []) with (@nil str).
    change (Pathlib.normpath_step 2 [] []) with (@nil str).
    rewrite Hf2. reflexivity.
Qed.

Lemma normpath_stack_plain (k : nat) (names stack : list str) :
  k = 1%nat \/ k = 2%nat -> forallb part_name names = true ->
  forallb plain_name stack = true ->
  forallb plain_name (fold_left (Pathlib.normpath_step k) names stack) = true.
Proof.
  intros Hk Hn. apply normpath_fold_plain; [lia|].
  apply List.Forall_forall. intros x Hx.
  apply (proj1 (forallb_forall _ _) Hn), part_name_spec in Hx. tauto.
Qed.

(** The normal form of an absolute path: its root, and the names its own
    names leave on the stack of [normpath]. *)
Lemma norm_absolute_path (k : nat) (names : list str) :
  k = 1%nat \/ k = 2%nat -> forallb part_name names = true ->
  norm (mkPath (repeat Pathlib.slash k) (repeat Pathlib.slash k :: names))
  = mkPath (repeat Pathlib.slash k)
      (repeat Pathlib.slash k :: rev (fold_left (Pathlib.normpath_step k) names [])).
Proof.
  intros Hk Hn. unfold norm.
  rewrite (to_str_absolute_path _ names)
    by first [reflexivity | destruct Hk as [-> | ->]; [now left | now right]].
  cbn [root]. rewrite normpath_absolute_text by assumption.
  apply of_str_normal_text; [assumption|].
  rewrite forallb_rev. now apply normpath_stack_plain.
Qed.

Lemma of_str_relative_parts (s : str) :
  Pathlib.is_absolute (Path.of_str s) = false ->
  exists names,
    forallb part_name names = true
    /\ Pathlib.parse_parts (parts (Path.of_str s)) = mkPath [] names.
Proof.
  unfold Path.of_str, Pathlib.parse_parts, Pathlib.is_absolute.
  pose proof (parse_rev_names (rev [s])) as Hn.
  destruct (Pathlib.parse_rev (rev [s])) as [rt parsed]. cbn [snd root parts] in *.
  intros ->. exists (rev parsed).
  assert (Hr : forallb part_name (rev parsed) = true) by now rewrite forallb_rev.
  split; [assumption|]. now apply parse_parts_of_names.
Qed.

(** X21. On a POSIX host the base may be given normalised or not: for a
    relative path text and an absolute base text, [normalise_path] gives
    the same path against the base as against the normal form of the
    base. *)
Theorem normalise_path_base_normalised (h : host) (s b : str) :
  os_name h = Posix ->
  Pathlib.is_absolute (Path.of_str s) = false ->
  Pathlib.is_absolute (Path.of_str b) = true ->
  normalise_path h (PStr s) (Some (PPath (norm (Path.of_str b))))
  = normalise_path h (PStr s) (Some (PStr b)).
Proof.
  intros _ Hs Hb.
  destruct (parse_parts_absolute [b] Hb) as (Hr & names & Hparts & Hn).
  destruct (rooted_repeat _ Hr) as (k & Hk & Hroot).
  fold (Path.of_str b) in *.
  assert (HB : Path.of_str b
               = mkPath (repeat Pathlib.slash k) (repeat Pathlib.slash k :: names)).
  { destruct (Path.of_str b) as [rt ps]. cbn [root parts] in *. now subst. }
  destruct (of_str_relative_parts s Hs) as (np & Hnp & HP).
  rewrite !normalise_path_of_relative by exact Hs. cbn [as_path].
  rewrite Hb, HB, (norm_absolute_path k names Hk Hn).
  replace (Pathlib.is_absolute _) with true by (now destruct Hk as [-> | ->]).
  f_equal. unfold Path.truediv, Pathlib.join_parsed_parts. rewrite HP.
  cbn [root parts Pathlib.nonempty app].
  rewrite !norm_absolute_path;
    try assumption;
    try (rewrite forallb_app, Hnp, andb_true_r; try assumption;
         apply plain_name_part_name; rewrite forallb_rev;
         now apply normpath_stack_plain).
  do 3 f_equal. rewrite !fold_left_app. f_equal.
  rewrite normpath_fold_names, app_nil_r, rev_involutive; [reflexivity|].
  rewrite forallb_rev. now apply normpath_stack_plain.
Qed.

(** X21, the witness. *)
Lemma normalise_path_base_normalised_witness :
  normalise_path posix_host (PStr (lit "../x"))
    (Some (PPath (norm (Path.of_str (lit "/a/./b/../c")))))
  = normalise_path posix_host (PStr (lit "../x")) (Some (PStr (lit "/a/./b/../c"))).
Proof.
  apply (normalise_path_base_normalised posix_host (lit "../x") (lit "/a/./b/../c"));
    reflexivity.
Defined.

(** ** The case of the scheme *)

Lemma scheme_char_plain (c : char) :
  UrlParse.scheme_char c = true ->
  UrlParse.c0_control_or_space c = false
  /\ UrlParse.unsafe_url_byte c = false /\ (c =? 58) = false.
Proof.
  unfold UrlParse.scheme_char, UrlParse.c0_control_or_space, UrlParse.unsafe_url_byte,
    Unicode.ascii_alpha, Unicode.ascii_upper, Unicode.ascii_lower, Unicode.ascii_digit.
  b2p. lia.
Qed.

Lemma find_colon_after_scheme (sch r : str) :
  forallb UrlParse.scheme_char sch = true ->
  Str.find 58 (sch ++ 58 :: r) = Some (length sch).
Proof.
  induction sch as [|c sch IH]; [reflexivity|]. cbn [forallb app Str.find length].
  intros [Hc Hs]%andb_true_iff. destruct (scheme_char_plain c Hc) as (_ & _ & ->).
  now rewrite (IH Hs).
Qed.

Lemma drop_past {A : Type} (a : list A) (x : A) (r : list A) :
  drop (S (length a)) (a ++ x :: r) = r.
Proof. induction a as [|y a IH]; [reflexivity | exact IH]. Qed.

Lemma split_scheme_text (sch r : str) :
  scheme_text sch = true ->
  UrlParse.split_scheme (sch ++ 58 :: r) = (List.map Unicode.ascii_tolower sch, r).
Proof.
  destruct sch as [|c sch]; [discriminate|]. cbn [scheme_text].
  intros [Ha Hs]%andb_true_iff. unfold UrlParse.split_scheme.
  rewrite (find_colon_after_scheme _ r Hs).
  change (length (c :: sch)) with (S (length sch)).
  change ((c :: sch) ++ 58 :: r) with (c :: (sch ++ 58 :: r)). cbv iota.
  change (c :: (sch ++ 58 :: r)) with ((c :: sch) ++ 58 :: r).
  change (S (length sch)) with (length (c :: sch)).
  rewrite take_app_length, Ha, Hs. cbn [andb].
  now rewrite drop_past.
Qed.

Lemma sanitize_scheme_text (sch r : str) :
  scheme_text sch = true ->
  UrlParse.sanitize (sch ++ 58 :: r)
  = sch ++ 58 :: List.filter (fun c => negb (UrlParse.unsafe_url_byte c)) r.
Proof.
  destruct sch as [|c sch]; [discriminate|]. cbn [scheme_text].
  intros [_ Hs]%andb_true_iff. unfold UrlParse.sanitize.
  assert (Hc : UrlParse.c0_control_or_space c = false).
  { cbn [forallb] in Hs. apply andb_true_iff in Hs as [Hc _].
    now destruct (scheme_char_plain c Hc). }
  change ((c :: sch) ++ 58 :: r) with (c :: (sch ++ 58 :: r)).
  rewrite lstrip_stop by exact Hc.
  change (c :: (sch ++ 58 :: r)) with ((c :: sch) ++ 58 :: r).
  rewrite List.filter_app. f_equal. apply filter_all.
  rewrite forallb_forall in *. intros x Hx.
  destruct (scheme_char_plain x (Hs x Hx)) as (_ & -> & _). reflexivity.
Qed.

Lemma urlparse_scheme_case (h : host) (sch sch' rest : str) :
  scheme_text sch = true -> scheme_text sch' = true ->
  List.map Unicode.ascii_tolower sch = List.map Unicode.ascii_tolower sch' ->
  UrlParse.urlparse h (sch ++ 58 :: rest) = UrlParse.urlparse h (sch' ++ 58 :: rest).
Proof.
  intros Hs Hs' E. unfold UrlParse.urlparse, UrlParse.urlsplit.
  rewrite !sanitize_scheme_text, !split_scheme_text by assumption.
  now rewrite E.
Qed.

(** X22. The scheme of a locator is read without regard to case: two
    locators that differ in the case of the letters of their scheme only
    have the same local path, or raise the same exception
    ([FILE:///tmp/x] is read as [file:///tmp/x]). *)
Theorem uri_to_local_path_scheme_case (h : host) (sch sch' rest : str) :
  scheme_text sch = true -> scheme_text sch' = true ->
  List.map Unicode.ascii_tolower sch = List.map Unicode.ascii_tolower sch' ->
  uri_to_local_path h (Some (sch ++ 58 :: rest))
  = uri_to_local_path h (Some (sch' ++ 58 :: rest)).
Proof.
  intros Hs Hs' E. unfold uri_to_local_path.
  rewrite (urlparse_scheme_case h sch sch' rest Hs Hs' E).
  destruct sch as [|c sch]; [discriminate|]. destruct sch' as [|c' sch']; [discriminate|].
  reflexivity.
Qed.

(** X22, the witness. *)
Lemma uri_to_local_path_scheme_case_witness :
  uri_to_local_path posix_host (Some (lit "FILE" ++ 58 :: lit "///tmp/x.txt"))
  = uri_to_local_path posix_host (Some (lit "file" ++ 58 :: lit "///tmp/x.txt")).
Proof.
  apply (uri_to_local_path_scheme_case posix_host (lit "FILE") (lit "file")); reflexivity.
Defined.

(** ** Integer parts in any spelling *)

(** X23. A part is returned as an integer in whatever spelling [int]
    reads: when the fragment is [part=raw], with [raw] free of [&], [+]
    and [%], and [int] reads [raw] as [n] (leading zeros, inner
    underscores and digits of other scripts included), the part is the
    integer [n], not the text [raw]. *)
Theorem get_part_from_uri_integer (h : host) (u : str) (c : ParseResult) (raw : str) (n : Z) :
  UrlParse.urlparse h u = Ok c ->
  fragment c = lit "part=" ++ raw ->
  raw <> [] ->
  Str.mem 38 raw = false -> Str.mem 43 raw = false -> Str.mem 37 raw = false ->
  PyInt.parse h raw = Some n ->
  get_part_from_uri h u = Ok (VInt n).
Proof.
  intros Hc Hf Hne Hamp Hplus Hpct Hn.
  rewrite (get_part_from_uri_value h u c Hc), Hf.
  rewrite parse_qsl_part by assumption. rewrite dict_single.
  now apply maybe_int_number.
Qed.

(** X23, the witness. *)
Lemma get_part_from_uri_integer_witness :
  get_part_from_uri posix_host (lit "file:///x.nc#part=0_07") = Ok (VInt 7).
Proof.
  apply (get_part_from_uri_integer posix_host (lit "file:///x.nc#part=0_07")
           (mkParseResult (lit "file") [] (lit "/x.nc") [] [] (lit "part=0_07"))
           (lit "0_07")).
  - reflexivity.
  - reflexivity.
  - discriminate.
  - reflexivity.
  - reflexivity.
  - reflexivity.
  - reflexivity.
Defined.

(** * The path normaliser against the lexical normal form *)

(** ** Collapsing segments *)







(** ** Path texts and the paths [pathlib] makes of them *)










(** ** The path normaliser returns the lexical normal form *)







(** ** The coercion to a URL, case by case *)














(** * Examples *)

(** ** The library functions at work *)

Example urlparse_file_url :
  UrlParse.urlparse posix_host (lit "file:///tmp/x.txt#part=2")
  = Ok (mkParseResult (lit "file") [] (lit "/tmp/x.txt") [] [] (lit "part=2")).
Proof. vm_compute. reflexivity. Qed.

Example urlparse_http_url :
  UrlParse.urlparse posix_host (lit "HTTP://user@example.com:80/a/b;v=1?q=1#frag")
  = Ok (mkParseResult (lit "http") (lit "user@example.com:80") (lit "/a/b")
          (lit "v=1") (lit "q=1") (lit "frag")).
Proof. vm_compute. reflexivity. Qed.

Example urlparse_bracketed_host :
  UrlParse.urlparse posix_host (lit "http://[::1]:8080/x")
  = Ok (mkParseResult (lit "http") (lit "[::1]:8080") (lit "/x") [] [] []).
Proof. vm_compute. reflexivity. Qed.

Example urlparse_open_bracket :
  UrlParse.urlparse posix_host (lit "http://[::1/x") = Raise (ValueError InvalidIPv6URL).
Proof. vm_compute. reflexivity. Qed.

Example parse_qsl_fields :
  UrlParse.parse_qsl (lit "a=1&part=x+y%21&empty=&bare&part=7")
  = [(lit "a", lit "1"); (lit "part", lit "x y!"); (lit "part", lit "7")].
Proof. vm_compute. reflexivity. Qed.

Example dict_last_wins :
  dict (UrlParse.parse_qsl (lit "part=x&part=7")) !! lit "part" = Some (lit "7").
Proof. vm_compute. reflexivity. Qed.

Example unquote_utf8 : Codec.unquote (lit "caf%C3%A9") = lit "caf" ++ [233].
Proof. vm_compute. reflexivity. Qed.

Example unquote_ill_formed : Codec.unquote (lit "%E9t%C3") = [65533; 116; 65533].
Proof. vm_compute. reflexivity. Qed.

Example int_with_blanks_and_underscore :
  PyInt.parse posix_host (lit " +1_000 ") = Some 1000%Z.
Proof. vm_compute. reflexivity. Qed.

Example int_arabic_indic_digits :
  PyInt.parse posix_host [1633; 1634; 1635] = Some 123%Z.
Proof. vm_compute. reflexivity. Qed.

Example int_rejects_hex : PyInt.parse posix_host (lit "0x10") = None.
Proof. vm_compute. reflexivity. Qed.

Example decimal_text_negative : PyInt.decimal_text (-120) = lit "-120".
Proof. vm_compute. reflexivity. Qed.

Example normpath_collapses :
  Pathlib.normpath (lit "/a//b/./c/../../d/") = lit "/a/d".
Proof. vm_compute. reflexivity. Qed.

Example normpath_relative_keeps_dotdot :
  Pathlib.normpath (lit "../a/../../b") = lit "../../b".
Proof. vm_compute. reflexivity. Qed.

Example path_of_str_collapses :
  Path.of_str (lit "/a//b/./c/") = mkPath (lit "/") [lit "/"; lit "a"; lit "b"; lit "c"].
Proof. vm_compute. reflexivity. Qed.

Example path_truediv_absolute :
  Path.truediv (Path.of_str (lit "/a/b")) (Path.of_str (lit "/c")) = Path.of_str (lit "/c").
Proof. vm_compute. reflexivity. Qed.

(** ** The examples in the docstring of [is_url] *)

Example is_url_file_etc_blah : is_url (VStr (lit "file:///etc/blah")) = Ok true.
Proof. vm_compute. reflexivity. Qed.

Example is_url_http_greg : is_url (VStr (lit "http://greg.com/greg.txt")) = Ok true.
Proof. vm_compute. reflexivity. Qed.

Example is_url_s3_etc_blah : is_url (VStr (lit "s3:///etc/blah")) = Ok true.
Proof. vm_compute. reflexivity. Qed.

Example is_url_etc_blah : is_url (VStr (lit "/etc/blah")) = Ok false.
Proof. vm_compute. reflexivity. Qed.

Example is_url_drive_letter : is_url (VStr (lit "C:/etc/blah")) = Ok false.
Proof. vm_compute. reflexivity. Qed.

Example is_url_leading_space : is_url (VStr (10 :: 32 :: lit "file://x")) = Ok true.
Proof. vm_compute. reflexivity. Qed.

Example is_url_bytes : is_url (VBytes (lit "file:///etc/blah")) = Ok false.
Proof. vm_compute. reflexivity. Qed.

Example is_url_none : is_url VNone = Ok false.
Proof. vm_compute. reflexivity. Qed.

(** ** The part codec *)

Example mk_part_uri_example :
  mk_part_uri posix_host (lit "file:///data/scene.nc") 12
  = Ok (lit "file:///data/scene.nc#part=12").
Proof. vm_compute. reflexivity. Qed.

Example get_part_absent :
  get_part_from_uri posix_host (lit "file:///data/scene.nc") = Ok VNone.
Proof. vm_compute. reflexivity. Qed.

Example get_part_empty_value :
  get_part_from_uri posix_host (lit "file:///data/scene.nc#part=") = Ok VNone.
Proof. vm_compute. reflexivity. Qed.

Example get_part_percent_decoded :
  get_part_from_uri posix_host (lit "file:///x#part=a%20b") = Ok (VStr (lit "a b")).
Proof. vm_compute. reflexivity. Qed.

Example get_part_second_fragment :
  (let* r := mk_part_uri posix_host (lit "file:///x#part=1") 2 in
   get_part_from_uri posix_host r)
  = Ok (VStr (lit "1#part=2")).
Proof. vm_compute. reflexivity. Qed.

(** The limit of 4300 digits: the largest integer [mk_part_uri] takes, and
    the smallest it refuses. *)
Example mk_part_uri_at_the_limit :
  (exists r, mk_part_uri posix_host (lit "file:///x") (10 ^ 4300 - 1) = Ok r)
  /\ mk_part_uri posix_host (lit "file:///x") (10 ^ 4300)
     = Raise (ValueError ExceedsIntMaxStrDigits)
  /\ mk_part_uri posix_host (lit "file:///x") (- 10 ^ 4300)
     = Raise (ValueError ExceedsIntMaxStrDigits).
Proof.
  split; [|split].
  - eexists. vm_compute. reflexivity.
  - vm_compute. reflexivity.
  - vm_compute. reflexivity.
Qed.

(** A digit string beyond the limit is no integer to [int]: the part is
    returned as text. *)
Example int_beyond_the_limit :
  PyInt.parse posix_host (repeat 49 4300) <> None
  /\ PyInt.parse posix_host (repeat 49 4301) = None
  /\ PyInt.int posix_host (repeat 49 4301 ++ lit "x")
     = Raise (ValueError ExceedsIntMaxStrDigits)
  /\ PyInt.int posix_host (repeat 49 4301 ++ lit "__1")
     = Raise (ValueError InvalidIntLiteral).
Proof.
  split; [|split; [|split]].
  - vm_compute. discriminate.
  - vm_compute. reflexivity.
  - vm_compute. reflexivity.
  - vm_compute. reflexivity.
Qed.
